(** * BSE (Bristol Stock Exchange) as modified in [borsim.py]:
      a shallow embedding of the limit-order-book exchange and of the
      trader code, and the properties of the specification checked on it.

    Conventions of the embedding.
    - Python values are modelled by their mathematical counterparts:
      integers by [Z], floating-point numbers by exact rationals [Q]
      (by real numbers [R] in the AA trader, whose code calls
      [math.exp]); rounding errors of floats are not modelled.  What
      is stated of a float computation is therefore a bound or an
      order that correct rounding keeps, or the value at an input that
      is away from any rounding boundary.
    - The language is Python 3: [/] is true division, an ordering
      comparison with [None] raises [TypeError], and a [dict] iterates
      in insertion order, an assignment to a key that is already
      present keeping the key at its place.  A [dict] whose iteration
      order matters is an association list in that order.
    - A Python exception is a [Raise] result; [None] is [None].
    - An order type is ['Bid'] or ['Ask']; the source aborts the
      session ([sys.exit]) on any other tag, which the two-constructor
      type [OType] leaves out.
    - Prices on the book are integers (pennies, as [bse_sys_minprice],
      [bse_sys_maxprice] and [ticksize] are).
    - A value drawn from the module [random] is an argument of the
      function that draws it: what is proved holds for every draw.
      Text that is only printed or written to a file is left out. *)

From Stdlib Require Import ZArith QArith Qround Qabs List String Bool Lia.
From Stdlib Require Import Sorting.Sorted.
From Stdlib Require Import Reals Lra Psatz.
Import ListNotations.

Open Scope Z_scope.

(* ================================================================= *)
(** ** Python runtime: exceptions, dictionaries, sequences *)

Inductive exn : Type :=
| KeyError | IndexError | ValueError | ZeroDivisionError | TypeError
| SystemExit.

Inductive result (A : Type) : Type :=
| Ret (a : A)
| Raise (e : exn).
Arguments Ret {A} a.
Arguments Raise {A} e.

Definition bind {A B : Type} (m : result A) (k : A -> result B) : result B :=
  match m with
  | Ret a => k a
  | Raise e => Raise e
  end.

Notation "x <- m ;; k" := (bind m (fun x => k))
  (at level 61, m at next level, right associativity).
Notation "' p <- m ;; k" := (bind m (fun x => match x with p => k end))
  (at level 61, p pattern, m at next level, right associativity).

Definition of_option {A : Type} (e : exn) (o : option A) : result A :=
  match o with
  | Some a => Ret a
  | None => Raise e
  end.

Section Dict.
Context {K V : Type}.
Variable eqb : K -> K -> bool.

(** [d.get(k)] *)
Fixpoint dict_get (k : K) (d : list (K * V)) : option V :=
  match d with
  | [] => None
  | (k', v) :: r => if eqb k k' then Some v else dict_get k r
  end.

(** [d[k] = v]: an existing key keeps its position, a new key goes
    last. *)
Fixpoint dict_set (k : K) (v : V) (d : list (K * V)) : list (K * V) :=
  match d with
  | [] => [(k, v)]
  | (k', v') :: r =>
      if eqb k k' then (k', v) :: r else (k', v') :: dict_set k v r
  end.

(** [del d[k]] on a key that is present (a no-op otherwise; the
    callers below raise [KeyError] themselves when it is absent). *)
Fixpoint dict_del (k : K) (d : list (K * V)) : list (K * V) :=
  match d with
  | [] => []
  | (k', v') :: r => if eqb k k' then r else (k', v') :: dict_del k r
  end.

Definition dict_keys (d : list (K * V)) : list K := map fst d.
Definition dict_values (d : list (K * V)) : list V := map snd d.
End Dict.

(** [len(x)] *)
Definition len {A : Type} (l : list A) : Z := Z.of_nat (List.length l).

(** [l[-1]] *)
Fixpoint last_opt {A : Type} (l : list A) : option A :=
  match l with
  | [] => None
  | [a] => Some a
  | _ :: r => last_opt r
  end.

(** [l[0]] *)
Definition first_opt {A : Type} (l : list A) : option A := hd_error l.

(** [max(keys)] and [min(keys)]; [None] stands for the [ValueError] of
    an empty argument. *)
Definition max_opt (l : list Z) : option Z :=
  match l with
  | [] => None
  | x :: r => Some (fold_left Z.max r x)
  end.

Definition min_opt (l : list Z) : option Z :=
  match l with
  | [] => None
  | x :: r => Some (fold_left Z.min r x)
  end.

(** Items of a price-keyed dictionary in ascending key order: what
    [for price in sorted(d)] visits together with [d[price]]. *)
Fixpoint insert_item {V : Type} (it : Z * V) (l : list (Z * V)) : list (Z * V) :=
  match l with
  | [] => [it]
  | x :: r => if fst it <=? fst x then it :: l else x :: insert_item it r
  end.

Definition sorted_items {V : Type} (d : list (Z * V)) : list (Z * V) :=
  fold_right insert_item [] d.

(* ================================================================= *)
(** ** Orders *)

Definition bse_sys_minprice : Z := 1.
Definition bse_sys_maxprice : Z := 1000.
Definition ticksize : Z := 1.

Inductive OType : Type := Bid | Ask.

Definition otype_eqb (a b : OType) : bool :=
  match a, b with
  | Bid, Bid | Ask, Ask => true
  | _, _ => false
  end.

(** class [Order]; the price type is a parameter because the exchange
    and most traders quote integer prices and the AA trader a float. *)
Record Order {P : Type} : Type := mkOrder {
  tid : string;
  otype : OType;
  price : P;
  qty : Z;
  time : Q;
  qid : Z
}.
Arguments Order P : clear implicits.
Arguments mkOrder {P} tid otype price qty time qid.

Definition set_qid {P : Type} (o : Order P) (q : Z) : Order P :=
  mkOrder (tid o) (otype o) (price o) (qty o) (time o) q.

(* ================================================================= *)
(** ** One side of the book: class [Orderbook_half] *)

Module Orderbook_half.

(** One element [[time, qty, tid, qid]] of the order list of a price
    level. *)
Record LobEntry : Type := mkEntry {
  e_time : Q;
  e_qty : Z;
  e_tid : string;
  e_qid : Z
}.

Definition entry_of (o : Order Z) : LobEntry :=
  mkEntry (time o) (qty o) (tid o) (qid o).

(** [self.lob]: price -> [[qty, orderlist]] *)
Definition Lob : Type := list (Z * (Z * list LobEntry)).

Record t : Type := mk {
  booktype : OType;
  orders : list (string * Order Z);
  lob : Lob;
  lob_anon : list (Z * Z);
  best_price : option Z;
  best_tid : option string;
  worstprice : Z;
  n_orders : Z;
  lob_depth : Z
}.

Definition init (booktype : OType) (worstprice : Z) : t :=
  mk booktype [] [] [] None None worstprice 0 0.

Definition set_orders (h : t) (os : list (string * Order Z)) : t :=
  mk (booktype h) os (lob h) (lob_anon h) (best_price h) (best_tid h)
     (worstprice h) (n_orders h) (lob_depth h).
Definition set_lob (h : t) (l : Lob) : t :=
  mk (booktype h) (orders h) l (lob_anon h) (best_price h) (best_tid h)
     (worstprice h) (n_orders h) (lob_depth h).
Definition set_lob_anon (h : t) (a : list (Z * Z)) : t :=
  mk (booktype h) (orders h) (lob h) a (best_price h) (best_tid h)
     (worstprice h) (n_orders h) (lob_depth h).
Definition set_best (h : t) (p : option Z) (o : option string) : t :=
  mk (booktype h) (orders h) (lob h) (lob_anon h) p o
     (worstprice h) (n_orders h) (lob_depth h).
Definition set_best_price (h : t) (p : option Z) : t :=
  set_best h p (best_tid h).
Definition set_n_orders (h : t) (n : Z) : t :=
  mk (booktype h) (orders h) (lob h) (lob_anon h) (best_price h) (best_tid h)
     (worstprice h) n (lob_depth h).
Definition set_lob_depth (h : t) (n : Z) : t :=
  mk (booktype h) (orders h) (lob h) (lob_anon h) (best_price h) (best_tid h)
     (worstprice h) (n_orders h) n.

(** [anonymize_lob]: [[price, qty]] pairs in ascending price order. *)
Definition anonymize_lob (l : Lob) : list (Z * Z) :=
  map (fun it => (fst it, fst (snd it))) (sorted_items l).

(** Body of the loop of [build_lob] for one order. *)
Definition lob_add (l : Lob) (order : Order Z) : Lob :=
  match dict_get Z.eqb (price order) l with
  | Some (q, orderlist) =>
      dict_set Z.eqb (price order)
               (q + qty order, orderlist ++ [entry_of order]) l
  | None =>
      dict_set Z.eqb (price order) (qty order, [entry_of order]) l
  end.

(** [self.lob[price][1][0][2]] *)
Definition head_tid (l : Lob) (p : Z) : option string :=
  match dict_get Z.eqb p l with
  | Some (_, e :: _) => Some (e_tid e)
  | _ => None
  end.

(** The best price read off the anonymized book: its last element for
    bids, its first for asks. *)
Definition anon_best (bt : OType) (anon : list (Z * Z)) : option Z :=
  match bt with
  | Bid => option_map fst (last_opt anon)
  | Ask => option_map fst (first_opt anon)
  end.

(** [build_lob].  With a non-empty [lob] the subscripts of the source
    cannot fail: the anonymized list is as long as the book and every
    price level holds an order (lemma [best_of_spec] below), so no
    exception is modelled here. *)
Definition build_lob (h : t) : t :=
  let l := fold_left lob_add (dict_values (orders h)) [] in
  let anon := anonymize_lob l in
  let h1 := set_lob_anon (set_lob h l) anon in
  if 0 <? len l then
    let bp := anon_best (booktype h) anon in
    set_best h1 bp (match bp with Some p => head_tid l p | None => None end)
  else
    set_best h1 None None.

Inductive response : Type := Addition | Overwrite.

(** [book_add] *)
Definition book_add (h : t) (order : Order Z) : response * t :=
  let n := n_orders h in
  let h1 := set_orders h (dict_set String.eqb (tid order) order (orders h)) in
  let h2 := set_n_orders h1 (len (orders h1)) in
  let h3 := build_lob h2 in
  if negb (n =? n_orders h3) then (Addition, h3) else (Overwrite, h3).

(** [book_del] *)
Definition book_del (h : t) (order : Order Z) : t :=
  match dict_get String.eqb (tid order) (orders h) with
  | Some _ =>
      let h1 := set_orders h (dict_del String.eqb (tid order) (orders h)) in
      let h2 := set_n_orders h1 (len (orders h1)) in
      build_lob h2
  | None => h
  end.

(** [del (self.orders[tid])] *)
Definition del_owner (h : t) (owner : string) : result t :=
  match dict_get String.eqb owner (orders h) with
  | Some _ => Ret (set_orders h (dict_del String.eqb owner (orders h)))
  | None => Raise KeyError
  end.

(** [delete_best]: returns the trader id of the deleted order. *)
Definition delete_best (h : t) : result (string * t) :=
  bp <- of_option KeyError (best_price h) ;;
  '(best_price_qty, orderlist) <- of_option KeyError (dict_get Z.eqb bp (lob h)) ;;
  e <- of_option IndexError (first_opt orderlist) ;;
  let best_price_counterparty := e_tid e in
  h' <- (if best_price_qty =? 1 then
           let h1 := set_lob h (dict_del Z.eqb bp (lob h)) in
           h2 <- del_owner h1 best_price_counterparty ;;
           let h3 := set_n_orders h2 (n_orders h2 - 1) in
           if 0 <? n_orders h3 then
             p <- of_option ValueError
                    (match booktype h3 with
                     | Bid => max_opt (dict_keys (lob h3))
                     | Ask => min_opt (dict_keys (lob h3))
                     end) ;;
             Ret (set_lob_depth (set_best_price h3 (Some p))
                                (len (dict_keys (lob h3))))
           else
             Ret (set_lob_depth (set_best_price h3 (Some (worstprice h3))) 0)
         else
           let h1 := set_lob h (dict_set Z.eqb bp
                                   (best_price_qty - 1, tl orderlist) (lob h)) in
           h2 <- del_owner h1 best_price_counterparty ;;
           Ret (set_n_orders h2 (n_orders h2 - 1))) ;;
  Ret (best_price_counterparty, build_lob h').

End Orderbook_half.

(* ================================================================= *)
(** ** The exchange: classes [Orderbook] and [Exchange] *)

Module Exchange.

Module H := Orderbook_half.

(** [transaction_record] of [process_order2] *)
Record Trade : Type := mkTrade {
  t_time : Q;
  t_price : Z;
  party1 : string;
  party2 : string;
  t_qty : Z
}.

(** A tape record: its ['type'] is ['Trade'] or ['Cancel']. *)
Inductive TapeItem : Type :=
| TradeRec (tr : Trade)
| CancelRec (time : Q) (order : Order Z).

Record t : Type := mk {
  bids : H.t;
  asks : H.t;
  tape : list TapeItem;
  quote_id : Z
}.

(** [Orderbook.__init__] *)
Definition init : t :=
  mk (H.init Bid bse_sys_minprice) (H.init Ask bse_sys_maxprice) [] 0.

Definition set_bids (ex : t) (h : H.t) : t :=
  mk h (asks ex) (tape ex) (quote_id ex).
Definition set_asks (ex : t) (h : H.t) : t :=
  mk (bids ex) h (tape ex) (quote_id ex).
Definition set_tape (ex : t) (tp : list TapeItem) : t :=
  mk (bids ex) (asks ex) tp (quote_id ex).
Definition set_quote_id (ex : t) (q : Z) : t :=
  mk (bids ex) (asks ex) (tape ex) q.

(** The three lines that re-read the best price and its owner from a
    side after [book_add] or [book_del]:
    [best_price = side.lob_anon[..][0]],
    [side.best_tid = side.lob[best_price][1][0][2]]. *)
Definition reread_best (h : H.t) : result H.t :=
  bp <- of_option IndexError (H.anon_best (H.booktype h) (H.lob_anon h)) ;;
  bt <- of_option KeyError (H.head_tid (H.lob h) bp) ;;
  Ret (H.set_best h (Some bp) (Some bt)).

(** [add_order]: returns [[order.qid, response]], the order as stored
    (with its quote id) and the new state. *)
Definition add_order (ex : t) (order : Order Z)
  : result (Z * H.response * Order Z * t) :=
  let order := set_qid order (quote_id ex) in
  let ex := set_quote_id ex (qid order + 1) in
  match otype order with
  | Bid =>
      let '(response, h) := H.book_add (bids ex) order in
      h' <- reread_best h ;;
      Ret (qid order, response, order, set_bids ex h')
  | Ask =>
      let '(response, h) := H.book_add (asks ex) order in
      h' <- reread_best h ;;
      Ret (qid order, response, order, set_asks ex h')
  end.

(** One side's part of [del_order]. *)
Definition del_side (h : H.t) (order : Order Z) : result H.t :=
  let h := H.book_del h order in
  if 0 <? H.n_orders h then reread_best h
  else Ret (H.set_best h None None).

(** [del_order] *)
Definition del_order (ex : t) (time : Q) (order : Order Z) : result t :=
  match otype order with
  | Bid =>
      h <- del_side (bids ex) order ;;
      let ex := set_bids ex h in
      Ret (set_tape ex (tape ex ++ [CancelRec time order]))
  | Ask =>
      h <- del_side (asks ex) order ;;
      let ex := set_asks ex h in
      Ret (set_tape ex (tape ex ++ [CancelRec time order]))
  end.

(** [process_order2]: returns the transaction record, or [None].
    On the paths that leave [counterparty] at [None] the source does
    not bind [price]; it is not read there, and stands as [0]. *)
Definition process_order2 (ex : t) (time : Q) (order : Order Z)
  : result (option Trade * t) :=
  '(qid, response, order, ex) <- add_order ex order ;;
  let order := set_qid order qid in
  let best_ask := H.best_price (asks ex) in
  let best_ask_tid := H.best_tid (asks ex) in
  let best_bid := H.best_price (bids ex) in
  let best_bid_tid := H.best_tid (bids ex) in
  '(counterparty, price, ex) <-
    match otype order with
    | Bid =>
        if 0 <? H.n_orders (asks ex) then
          match best_bid, best_ask with
          | Some bb, Some ba =>
              if bb >=? ba then
                (* bid lifts the best ask *)
                '(_, a) <- H.delete_best (asks ex) ;;
                let ex := set_asks ex a in
                '(_, b) <- H.delete_best (bids ex) ;;
                let ex := set_bids ex b in
                Ret (best_ask_tid, ba, ex)
              else Ret (None, 0, ex)
          | _, _ => Raise TypeError
          end
        else Ret (None, 0, ex)
    | Ask =>
        if 0 <? H.n_orders (bids ex) then
          match best_ask, best_bid with
          | Some ba, Some bb =>
              if ba <=? bb then
                (* ask hits the best bid *)
                '(_, b) <- H.delete_best (bids ex) ;;
                let ex := set_bids ex b in
                '(_, a) <- H.delete_best (asks ex) ;;
                let ex := set_asks ex a in
                Ret (best_bid_tid, bb, ex)
              else Ret (None, 0, ex)
          | _, _ => Raise TypeError
          end
        else Ret (None, 0, ex)
    end ;;
  match counterparty with
  | Some cp =>
      let transaction_record := mkTrade time price cp (tid order) (qty order) in
      Ret (Some transaction_record,
           set_tape ex (tape ex ++ [TradeRec transaction_record]))
  | None => Ret (None, ex)
  end.

End Exchange.

(* ================================================================= *)
(** ** Published data and the objects it shares with the exchange

    [publish_lob] builds new dictionaries, but stores in them the list
    objects [self.bids.lob_anon], [self.asks.lob_anon] and [self.tape]
    themselves.  A store of list objects makes that sharing explicit:
    the exchange object holds the locations of its three lists, and so
    does the published dictionary.

    The store holds these three lists and nothing else.  Their
    elements (the [[price, qty]] lists and the records of the tape,
    mutable objects themselves, equally shared) are kept as values,
    and [lob_anon] names the list bound at the moment of publication
    (the next [build_lob] binds a new one).  The store therefore
    serves to state what is shared; that something is not shared is
    nowhere concluded from it. *)

Module Heap.

Definition loc : Type := nat.

Inductive obj : Type :=
| LobList (l : list (Z * Z))
| TapeList (l : list Exchange.TapeItem).

Definition t : Type := loc -> option obj.

Definition update (s : t) (l : loc) (o : obj) : t :=
  fun l' => if Nat.eqb l' l then Some o else s l'.

(** In-place mutations of a list object: [x.append(v)],
    [x[i] = v] and [del x[:]]. *)
Inductive mutation : Type :=
| AppendTape (v : Exchange.TapeItem)
| AppendLob (v : Z * Z)
| SetLob (i : nat) (v : Z * Z)
| Clear.

Fixpoint set_nth {A : Type} (i : nat) (v : A) (l : list A) : option (list A) :=
  match l, i with
  | [], _ => None
  | _ :: r, O => Some (v :: r)
  | x :: r, S i => option_map (cons x) (set_nth i v r)
  end.

Definition mutate_obj (m : mutation) (o : obj) : result obj :=
  match m, o with
  | AppendTape v, TapeList l => Ret (TapeList (l ++ [v]))
  | AppendLob v, LobList l => Ret (LobList (l ++ [v]))
  | SetLob i v, LobList l =>
      l' <- of_option IndexError (set_nth i v l) ;; Ret (LobList l')
  | Clear, TapeList _ => Ret (TapeList [])
  | Clear, LobList _ => Ret (LobList [])
  | _, _ => Raise TypeError
  end.

(** Performing mutation [m] on the list object at location [l]. *)
Definition mutate (s : t) (l : loc) (m : mutation) : result t :=
  o <- of_option KeyError (s l) ;;
  o' <- mutate_obj m o ;;
  Ret (update s l o').

End Heap.

Module Published.

(** The exchange as an object: its scalar attributes and orders are
    those of [state]; its three published lists live in the store at
    the given locations (the list fields of [state] are not read). *)
Record ExchangeObj : Type := mkObj {
  state : Exchange.t;
  bids_lob_anon : Heap.loc;
  asks_lob_anon : Heap.loc;
  tape : Heap.loc
}.

(** The live exchange state: [state] with the contents of its list
    objects read from the store. *)
Definition live (s : Heap.t) (o : ExchangeObj) : option Exchange.t :=
  match s (bids_lob_anon o), s (asks_lob_anon o), s (tape o) with
  | Some (Heap.LobList b), Some (Heap.LobList a), Some (Heap.TapeList tp) =>
      let ex := state o in
      Some (Exchange.mk
              (Orderbook_half.set_lob_anon (Exchange.bids ex) b)
              (Orderbook_half.set_lob_anon (Exchange.asks ex) a)
              tp (Exchange.quote_id ex))
  | _, _, _ => None
  end.

(** The dictionaries [{'best': .., 'worst': .., 'n': .., 'lob': ..}] *)
Record side_data : Type := mkSide {
  best : option Z;
  worst : Z;
  n : Z;
  lob : Heap.loc
}.

(** [public_data] *)
Record public_data : Type := mkData {
  pd_time : Q;
  pd_bids : side_data;
  pd_asks : side_data;
  QID : Z;
  pd_tape : Heap.loc
}.

(** [publish_lob]: the store is not written. *)
Definition publish_lob (o : ExchangeObj) (time : Q) : public_data :=
  let ex := state o in
  mkData time
    (mkSide (Orderbook_half.best_price (Exchange.bids ex))
            (Orderbook_half.worstprice (Exchange.bids ex))
            (Orderbook_half.n_orders (Exchange.bids ex))
            (bids_lob_anon o))
    (mkSide (Orderbook_half.best_price (Exchange.asks ex))
            (Orderbook_half.worstprice (Exchange.asks ex))
            (Orderbook_half.n_orders (Exchange.asks ex))
            (asks_lob_anon o))
    (Exchange.quote_id ex)
    (tape o).

(** An exchange object for a given state, and its three lists laid
    out in an otherwise empty store. *)
Definition obj_of (ex : Exchange.t) : ExchangeObj := mkObj ex 0%nat 1%nat 2%nat.

Definition alloc (ex : Exchange.t) : Heap.t * ExchangeObj :=
  let s0 : Heap.t := fun _ => None in
  let s1 := Heap.update s0 0%nat
              (Heap.LobList (Orderbook_half.lob_anon (Exchange.bids ex))) in
  let s2 := Heap.update s1 1%nat
              (Heap.LobList (Orderbook_half.lob_anon (Exchange.asks ex))) in
  let s3 := Heap.update s2 2%nat (Heap.TapeList (Exchange.tape ex)) in
  (s3, obj_of ex).

End Published.

(* ================================================================= *)
(** ** Traders *)

(** Result of a method that may stop half-way: the state it leaves is
    kept in both cases. *)
Inductive outcome (S : Type) : Type :=
| Done (s : S)
| Aborted (e : exn) (s : S).
Arguments Done {S} s.
Arguments Aborted {S} e s.

(** [a / b] on floats *)
Definition truediv (a b : Q) : result Q :=
  if Qeq_bool b 0 then Raise ZeroDivisionError else Ret (a / b)%Q.

(** [int(x)]: truncation toward zero *)
Definition py_int (x : Q) : Z := Z.quot (Qnum x) (Z.pos (Qden x)).

Module Trader.

Inductive response : Type := LOB_Cancel | Proceed.

(** The attributes [willing] and [able] are never read and are left
    out. *)
Record t : Type := mk {
  ttype : string;
  tid : string;
  balance : Q;
  blotter : list Exchange.Trade;
  orders : list (Order Z);
  n_quotes : Z;
  birthtime : Q;
  profitpertime : Q;
  n_trades : Z;
  lastquote : option (Order Z)
}.

(** [Trader.__init__] *)
Definition init (ttype tid : string) (balance time : Q) : t :=
  mk ttype tid balance [] [] 0 time 0 0 None.

Definition set_orders (tr : t) (os : list (Order Z)) : t :=
  mk (ttype tr) (tid tr) (balance tr) (blotter tr) os (n_quotes tr)
     (birthtime tr) (profitpertime tr) (n_trades tr) (lastquote tr).
Definition set_blotter (tr : t) (b : list Exchange.Trade) : t :=
  mk (ttype tr) (tid tr) (balance tr) b (orders tr) (n_quotes tr)
     (birthtime tr) (profitpertime tr) (n_trades tr) (lastquote tr).
Definition set_balance (tr : t) (b : Q) : t :=
  mk (ttype tr) (tid tr) b (blotter tr) (orders tr) (n_quotes tr)
     (birthtime tr) (profitpertime tr) (n_trades tr) (lastquote tr).
Definition set_n_trades (tr : t) (k : Z) : t :=
  mk (ttype tr) (tid tr) (balance tr) (blotter tr) (orders tr) (n_quotes tr)
     (birthtime tr) (profitpertime tr) k (lastquote tr).
Definition set_profitpertime (tr : t) (p : Q) : t :=
  mk (ttype tr) (tid tr) (balance tr) (blotter tr) (orders tr) (n_quotes tr)
     (birthtime tr) p (n_trades tr) (lastquote tr).
Definition set_n_quotes (tr : t) (k : Z) : t :=
  mk (ttype tr) (tid tr) (balance tr) (blotter tr) (orders tr) k
     (birthtime tr) (profitpertime tr) (n_trades tr) (lastquote tr).
Definition set_lastquote (tr : t) (q : option (Order Z)) : t :=
  mk (ttype tr) (tid tr) (balance tr) (blotter tr) (orders tr) (n_quotes tr)
     (birthtime tr) (profitpertime tr) (n_trades tr) q.

(** [add_order] *)
Definition add_order (tr : t) (order : Order Z) : response * t :=
  let response := if 0 <? n_quotes tr then LOB_Cancel else Proceed in
  (response, set_orders tr [order]).

(** [del_order] *)
Definition del_order (tr : t) : t := set_orders tr [].

(** [bookkeep]; [outstr] is only printed and is left out. *)
Definition bookkeep (tr : t) (trade : Exchange.Trade) (time : Q) : outcome t :=
  let tr := set_blotter tr (blotter tr ++ [trade]) in
  let transactionprice := Exchange.t_price trade in
  match orders tr with
  | [] => Aborted IndexError tr
  | o :: _ =>
      let profit := match otype o with
                    | Bid => price o - transactionprice
                    | Ask => transactionprice - price o
                    end in
      let tr := set_balance tr (balance tr + inject_Z profit)%Q in
      let tr := set_n_trades tr (n_trades tr + 1) in
      match truediv (balance tr) (time - birthtime tr)%Q with
      | Raise e => Aborted e tr
      | Ret ppt =>
          let tr := set_profitpertime tr ppt in
          if profit <? 0 then Aborted SystemExit tr
          else Done (del_order tr)
      end
  end.

End Trader.

(** [Trader_Giveaway] *)
Module Trader_Giveaway.

Definition getorder (tr : Trader.t) (time countdown : Q)
           (lob : Published.public_data) : option (Order Z) * Trader.t :=
  match Trader.orders tr with
  | [] => (None, tr)
  | o :: _ =>
      let quoteprice := price o in
      let order := mkOrder (Trader.tid tr) (otype o) quoteprice (qty o)
                           time (Published.QID lob) in
      (Some order, Trader.set_lastquote tr (Some order))
  end.

End Trader_Giveaway.

(** [Trader_ZIP]: the attributes that [getorder] reads or writes (the
    learning parameters are used by [respond] only). *)
Module Trader_ZIP.

(** [order.price], before the attribute [price] of the trader hides
    the name. *)
Definition order_price (o : Order Z) : Z := price o.

Record t : Type := mk {
  super : Trader.t;
  job : option OType;
  active : bool;
  margin : option Q;
  margin_buy : Q;
  margin_sell : Q;
  price : option Z;
  limit : option Z
}.

(** [getorder].  The product [limit * (1 + margin)] is exact here; in
    binary64 it can fall on the other side of a whole number, and the
    truncated quote is then one off.  What is stated of the quote is
    its side of the limit, which rounding keeps, and its value at
    given inputs away from a whole number. *)
Definition getorder (z : t) (time countdown : Q)
           (lob : Published.public_data) : option (Order Z) * t :=
  match Trader.orders (super z) with
  | [] =>
      (None, mk (super z) (job z) false (margin z) (margin_buy z)
                (margin_sell z) (price z) (limit z))
  | o :: _ =>
      let limit' := order_price o in
      let job' := otype o in
      let margin' := match job' with
                     | Bid => margin_buy z   (* currently a buyer *)
                     | Ask => margin_sell z  (* currently a seller *)
                     end in
      let quoteprice := py_int (inject_Z limit' * (1 + margin'))%Q in
      let order := mkOrder (Trader.tid (super z)) job' quoteprice (qty o)
                           time (Published.QID lob) in
      (Some order,
       mk (Trader.set_lastquote (super z) (Some order)) (Some job') true
          (Some margin') (margin_buy z) (margin_sell z)
          (Some quoteprice) (Some limit'))
  end.

End Trader_ZIP.

(** [Trader_GDX]: the observation memories read by the belief
    functions. *)
Module Trader_GDX.

Record t : Type := mk {
  super : Trader.t;
  outstanding_bids : list (Z * Z);
  outstanding_asks : list (Z * Z);
  accepted_asks : list Z;
  accepted_bids : list Z
}.

(** [n = 0; for p in l: if test(p): n += 1] *)
Definition count_if (test : Z -> bool) (l : list Z) : Z :=
  fold_left (fun n p => if test p then n + 1 else n) l 0.

(** [p >= price] and [p <= price] for a book price [p] *)
Definition ge_price (price : Q) (p : Z) : bool := Qle_bool price (inject_Z p).
Definition le_price (price : Q) (p : Z) : bool := Qle_bool (inject_Z p) price.

(** [a / b] on two counters *)
Definition count_div (a b : Z) : result Q := truediv (inject_Z a) (inject_Z b).

Definition belief_sell (g : t) (price : Q) : result Q :=
  let accepted_asks_greater := count_if (ge_price price) (accepted_asks g) in
  let bids_greater := count_if (ge_price price) (map fst (outstanding_bids g)) in
  let unaccepted_asks_lower := count_if (le_price price) (map fst (outstanding_asks g)) in
  if accepted_asks_greater + bids_greater + unaccepted_asks_lower =? 0 then Ret 0%Q
  else count_div (accepted_asks_greater + bids_greater)
                 (accepted_asks_greater + bids_greater + unaccepted_asks_lower).

Definition belief_buy (g : t) (price : Q) : result Q :=
  let accepted_bids_lower := count_if (le_price price) (accepted_bids g) in
  let asks_lower := count_if (le_price price) (map fst (outstanding_asks g)) in
  let unaccepted_bids_greater := count_if (ge_price price) (map fst (outstanding_bids g)) in
  if accepted_bids_lower + asks_lower + unaccepted_bids_greater =? 0 then Ret 0%Q
  else count_div (accepted_bids_lower + asks_lower)
                 (accepted_bids_lower + asks_lower + unaccepted_bids_greater).

End Trader_GDX.

(* ================================================================= *)
(** ** The session loop, for a market of Giveaway traders

    The parts of [customer_orders] and [market_session] that assign a
    customer order, withdraw the quotes of the traders that answered
    ['LOB_Cancel'], and let one chosen trader quote and trade. *)

Module Session.

Definition traders : Type := list (string * Trader.t).

Definition of_outcome {S : Type} (o : outcome S) : result S :=
  match o with
  | Done s => Ret s
  | Aborted e _ => Raise e
  end.

(** [customer_orders], the issue of one due order: returns the
    response with the updated traders and cancellation list. *)
Definition issue (trs : traders) (cancellations : list string) (order : Order Z)
  : result (Trader.response * traders * list string) :=
  let tname := tid order in
  tr <- of_option KeyError (dict_get String.eqb tname trs) ;;
  let '(response, tr) := Trader.add_order tr order in
  let trs := dict_set String.eqb tname tr trs in
  match response with
  | Trader.LOB_Cancel => Ret (response, trs, cancellations ++ [tname])
  | Trader.Proceed => Ret (response, trs, cancellations)
  end.

(** [for kill in kills: ...] *)
Fixpoint kill_quotes (trs : traders) (ex : Exchange.t) (time : Q)
         (kills : list string) : result Exchange.t :=
  match kills with
  | [] => Ret ex
  | kill :: rest =>
      tr <- of_option KeyError (dict_get String.eqb kill trs) ;;
      ex <- match Trader.lastquote tr with
            | Some q => Exchange.del_order ex time q
            | None => Ret ex
            end ;;
      kill_quotes trs ex time rest
  end.

(** [traders[name].bookkeep(trade, order, verbose, time)] *)
Definition bookkeep (trs : traders) (name : string) (trade : Exchange.Trade)
           (time : Q) : result traders :=
  tr <- of_option KeyError (dict_get String.eqb name trs) ;;
  tr <- of_outcome (Trader.bookkeep tr trade time) ;;
  Ret (dict_set String.eqb name tr trs).

(** The quote of trader [tid] and what follows from it, up to the
    settlement of a trade. *)
Definition quote (trs : traders) (ex : Exchange.t) (time time_left : Q)
           (tid : string) : result (option Exchange.Trade * traders * Exchange.t) :=
  tr <- of_option KeyError (dict_get String.eqb tid trs) ;;
  let '(order, tr) :=
    Trader_Giveaway.getorder tr time time_left
      (Published.publish_lob (Published.obj_of ex) time) in
  let trs := dict_set String.eqb tid tr trs in
  match order with
  | None => Ret (None, trs, ex)
  | Some order =>
      o <- of_option IndexError (first_opt (Trader.orders tr)) ;;
      if otype_eqb (otype order) Ask && (price order <? price o) then
        Raise SystemExit  (* 'Bad ask' *)
      else if otype_eqb (otype order) Bid && (price order >? price o) then
        Raise SystemExit  (* 'Bad bid' *)
      else
        let trs := dict_set String.eqb tid (Trader.set_n_quotes tr 1) trs in
        '(trade, ex) <- Exchange.process_order2 ex time order ;;
        match trade with
        | Some tr =>
            trs <- bookkeep trs (Exchange.party1 tr) tr time ;;
            trs <- bookkeep trs (Exchange.party2 tr) tr time ;;
            Ret (Some tr, trs, ex)
        | None => Ret (None, trs, ex)
        end
  end.

(** Number of quotes of trader [name] resting on the book. *)
Definition live_quotes (ex : Exchange.t) (name : string) : Z :=
  (match dict_get String.eqb name (Orderbook_half.orders (Exchange.bids ex)) with
   | Some _ => 1 | None => 0 end)
  + (match dict_get String.eqb name (Orderbook_half.orders (Exchange.asks ex)) with
     | Some _ => 1 | None => 0 end).

End Session.

(* ================================================================= *)
(** ** The AA trader: [calcTarget] and [getorder]

    Floats are real numbers here, [math.exp] is the exponential.  The
    attributes set once in [__init__] and never assigned again are
    constants; the attributes that only [respond] uses are left out.

    What binary64 adds to the exponential is not modelled: the
    [OverflowError] of [math.exp] for an argument above about 709.78,
    and a result rounded to 1.0 for an argument close to 0.  The
    results on this trader are therefore stated either for the case
    that [calcTarget] returns, or for the state in which every AA
    trader starts, whose arguments are far from both. *)

Module Trader_AA.

Local Open Scope R_scope.

Definition r_shout_change_relative : R := 0.05.
Definition r_shout_change_absolute : R := 0.05.
Definition offer_change_rate : R := 3.0.
Definition marketMax : R := IZR bse_sys_maxprice.

Record t : Type := mk {
  tid : string;
  orders : list (Order R);
  lastquote : option (Order R);
  active : bool;
  limit : option R;
  job : option OType;
  theta : R;
  previous_transactions : list R;
  estimated_equilibrium : list R;
  prev_best_bid_p : option R;
  prev_best_ask_p : option R;
  buy_target : option R;
  sell_target : option R;
  buy_r : R;
  sell_r : R
}.

Definition set_buy_target (a : t) (x : option R) : t :=
  mk (tid a) (orders a) (lastquote a) (active a) (limit a) (job a) (theta a)
     (previous_transactions a) (estimated_equilibrium a) (prev_best_bid_p a)
     (prev_best_ask_p a) x (sell_target a) (buy_r a) (sell_r a).
Definition set_sell_target (a : t) (x : option R) : t :=
  mk (tid a) (orders a) (lastquote a) (active a) (limit a) (job a) (theta a)
     (previous_transactions a) (estimated_equilibrium a) (prev_best_bid_p a)
     (prev_best_ask_p a) (buy_target a) x (buy_r a) (sell_r a).
Definition set_active (a : t) (b : bool) : t :=
  mk (tid a) (orders a) (lastquote a) b (limit a) (job a) (theta a)
     (previous_transactions a) (estimated_equilibrium a) (prev_best_bid_p a)
     (prev_best_ask_p a) (buy_target a) (sell_target a) (buy_r a) (sell_r a).
Definition set_limit_job (a : t) (l : R) (j : OType) : t :=
  mk (tid a) (orders a) (lastquote a) (active a) (Some l) (Some j) (theta a)
     (previous_transactions a) (estimated_equilibrium a) (prev_best_bid_p a)
     (prev_best_ask_p a) (buy_target a) (sell_target a) (buy_r a) (sell_r a).
Definition set_lastquote (a : t) (q : option (Order R)) : t :=
  mk (tid a) (orders a) q (active a) (limit a) (job a) (theta a)
     (previous_transactions a) (estimated_equilibrium a) (prev_best_bid_p a)
     (prev_best_ask_p a) (buy_target a) (sell_target a) (buy_r a) (sell_r a).
(** [self.orders = [order]], as [add_order] leaves it. *)
Definition set_orders (a : t) (os : list (Order R)) : t :=
  mk (tid a) os (lastquote a) (active a) (limit a) (job a) (theta a)
     (previous_transactions a) (estimated_equilibrium a) (prev_best_bid_p a)
     (prev_best_ask_p a) (buy_target a) (sell_target a) (buy_r a) (sell_r a).

(** [__init__]; [r1] and [r2] are the values of [random.random()]
    drawn for [buy_r] and for [sell_r]. *)
Definition init (tid : string) (r1 r2 : R) : t :=
  mk tid [] None false None None (-2.0) [] [] None None None None
     (-1.0 * (0.3 * r1)) (-1.0 * (0.3 * r2)).

(** [x / y] *)
Definition rdiv (x y : R) : result R :=
  if Req_dec_T y 0 then Raise ZeroDivisionError else Ret (x / y).

(** The local [p] of [calcTarget]: the last equilibrium estimate,
    moved off the limit [l] when equal to it, or an initial guess when
    there is no estimate yet. *)
Definition equilibrium (a : t) (l : R) (j : OType) : R :=
  match last_opt (estimated_equilibrium a) with
  | Some p => if Req_dec_T l p then p * 1.000001 else p
  | None => match j with
            | Bid => l - l * 0.2
            | Ask => l + l * 0.2
            end
  end.

(** [calcTarget].  Without a job no branch is taken; with a job the
    limit is used as a number. *)
Definition calcTarget (a : t) : result t :=
  match job a with
  | None => Ret a
  | Some j =>
      l <- of_option TypeError (limit a) ;;
      let p := equilibrium a l j in
      let theta := theta a in
      match j with
      | Bid =>
          minus_thing <- rdiv (exp (- buy_r a * theta) - 1) (exp theta - 1) ;;
          plus_thing <- rdiv (exp (buy_r a * theta) - 1) (exp theta - 1) ;;
          theta_bar <- rdiv (theta * l - theta * p) p ;;
          let theta_bar := if Req_dec_T theta_bar 0 then 0.0001 else theta_bar in
          let theta_bar := if Req_dec_T (exp theta_bar - 1) 0 then 0.0001
                           else theta_bar in
          bar_thing <- rdiv (exp (- buy_r a * theta_bar) - 1) (exp theta_bar - 1) ;;
          let target :=
            if Rle_dec l p then (* extramarginal *)
              if Rle_dec 0 (buy_r a) then l else l * (1 - minus_thing)
            else (* intramarginal *)
              if Rle_dec 0 (buy_r a) then p + (l - p) * plus_thing
              else p * (1 - bar_thing) in
          let target := if Rlt_dec l target then l else target in
          Ret (set_buy_target a (Some target))
      | Ask =>
          minus_thing <- rdiv (exp (- sell_r a * theta) - 1) (exp theta - 1) ;;
          plus_thing <- rdiv (exp (sell_r a * theta) - 1) (exp theta - 1) ;;
          theta_bar <- rdiv (theta * l - theta * p) p ;;
          let theta_bar := if Req_dec_T theta_bar 0 then 0.0001 else theta_bar in
          let theta_bar := if Req_dec_T (exp theta_bar - 1) 0 then 0.0001
                           else theta_bar in
          bar_thing <- rdiv (exp (- sell_r a * theta_bar) - 1) (exp theta_bar - 1) ;;
          (* the source assigns [buy_target] in this branch too *)
          let target :=
            if Rle_dec l p then
              if Rle_dec 0 (buy_r a) then l
              else l + (marketMax - l) * minus_thing
            else
              if Rle_dec 0 (buy_r a) then l + (p - l) * (1 - plus_thing)
              else p + (marketMax - p) * bar_thing in
          let a := set_buy_target a (Some target) in
          s <- of_option TypeError (sell_target a) ;;  (* [None < l] *)
          Ret (if Rlt_dec s l then set_sell_target a (Some l) else a)
      end
  end.

(** The locals [o_bid] and [o_ask] of [getorder]: the best bid and
    ask remembered from the last market event, 0 and [marketMax] when
    there was none. *)
Definition o_bid (a : t) : R :=
  match prev_best_bid_p a with
  | None => 0
  | Some p => p
  end.

Definition o_ask (a : t) : R :=
  match prev_best_ask_p a with
  | None => marketMax
  | Some p => p
  end.

(** [getorder] *)
Definition getorder (a : t) (time countdown : Q) (lob : Published.public_data)
  : result (option (Order R) * t) :=
  match orders a with
  | [] => Ret (None, set_active a false)
  | o :: _ =>
      let a := set_limit_job (set_active a true) (price o) (otype o) in
      let limit := price o in
      a <- calcTarget a ;;
      let o_bid := o_bid a in
      let o_ask := o_ask a in
      r <-
        match otype o with
        | Bid => (* buyer *)
            if Rle_dec limit o_bid then Ret None
            else if 0 <? len (previous_transactions a) then
              (* has been at least one transaction *)
              let o_ask_plus :=
                (1 + r_shout_change_relative) * o_ask + r_shout_change_absolute in
              Ret (Some (o_bid + (Rmin limit o_ask_plus - o_bid) / offer_change_rate))
            else
              bt <- of_option TypeError (buy_target a) ;;
              if Rle_dec o_ask bt then Ret (Some o_ask)
              else Ret (Some (o_bid + (bt - o_bid) / offer_change_rate))
        | Ask =>
            if Rge_dec limit o_ask then Ret None
            else if 0 <? len (previous_transactions a) then
              let o_bid_minus :=
                (1 - r_shout_change_relative) * o_bid - r_shout_change_absolute in
              Ret (Some (o_ask - (o_ask - Rmax limit o_bid_minus) / offer_change_rate))
            else
              st <- of_option TypeError (sell_target a) ;;
              if Rge_dec o_bid st then Ret (Some o_bid)
              else Ret (Some (o_ask - (o_ask - st) / offer_change_rate))
        end ;;
      match r with
      | None => Ret (None, a)
      | Some quoteprice =>
          let order := mkOrder (tid a) (otype o) quoteprice (qty o) time
                               (Published.QID lob) in
          Ret (Some order, set_lastquote a (Some order))
      end
  end.

End Trader_AA.

(* ================================================================= *)
(** ** Specification vocabulary: the book *)

Module OH := Orderbook_half.
Module AA := Trader_AA.

(** The orders of a side that rest at price [p], in iteration order of
    the owner map. *)
Definition at_price (p : Z) (os : list (Order Z)) : list (Order Z) :=
  filter (fun o => price o =? p) os.

(** What the loop of [build_lob] accumulates at one price level. *)
Definition level_merge (cur : option (Z * list OH.LobEntry)) (f : list (Order Z))
  : option (Z * list OH.LobEntry) :=
  fold_left (fun cur o =>
               Some (match cur with
                     | Some (q, ol) => (q + qty o, ol ++ [OH.entry_of o])
                     | None => (qty o, [OH.entry_of o])
                     end)) f cur.

(** [p] is the best price of the orders [os] of a side of type [bt]. *)
Definition is_best (bt : OType) (p : Z) (os : list (Order Z)) : Prop :=
  In p (map price os) /\
  forall o, In o os -> match bt with
                       | Bid => price o <= p
                       | Ask => p <= price o
                       end.

(** Every order is filed under its own trader id, once. *)
Definition keyed (os : list (string * Order Z)) : Prop :=
  Forall (fun kv => tid (snd kv) = fst kv) os /\ NoDup (dict_keys os).

(** A consistent side: the derived attributes are those that
    [build_lob] computes from the owner map. *)
Definition half_ok (h : OH.t) : Prop :=
  OH.build_lob h = h /\ OH.n_orders h = len (OH.orders h) /\ keyed (OH.orders h).

(** All resting orders have a positive quantity. *)
Definition pos_qty (h : OH.t) : Prop :=
  Forall (fun kv => 0 < qty (snd kv)) (OH.orders h).

(** The aggregate quantity of a list of orders. *)
Definition sum_qty (f : list (Order Z)) : Z :=
  fold_right (fun o s => qty o + s) 0 f.

(** The book that [build_lob] makes of the orders [os]. *)
Definition lob_of (os : list (Order Z)) : OH.Lob := fold_left OH.lob_add os [].

(** The best price and its owner, as [build_lob] reads them off a book. *)
Definition best_of (bt : OType) (l : OH.Lob) : option Z * option string :=
  if 0 <? len l then
    let bp := OH.anon_best bt (OH.anonymize_lob l) in
    (bp, match bp with Some p => OH.head_tid l p | None => None end)
  else (None, None).

(** The state that [delete_best] returns once owner [c] is removed;
    [d] is the depth count it leaves. *)
Definition after_delete (h : OH.t) (c : string) (d : Z) : OH.t :=
  OH.build_lob
    (OH.set_lob_depth
       (OH.set_n_orders
          (OH.set_orders h (dict_del String.eqb c (OH.orders h)))
          (OH.n_orders h - 1)) d).

(** A consistent exchange: two consistent sides, of the right types. *)
Definition ex_ok (ex : Exchange.t) : Prop :=
  half_ok (Exchange.bids ex) /\ half_ok (Exchange.asks ex) /\
  OH.booktype (Exchange.bids ex) = Bid /\ OH.booktype (Exchange.asks ex) = Ask.

(** Every resting bid is priced below every resting ask. *)
Definition uncrossed (ex : Exchange.t) : Prop :=
  forall b a,
    In b (dict_values (OH.orders (Exchange.bids ex))) ->
    In a (dict_values (OH.orders (Exchange.asks ex))) ->
    price b < price a.

(** The trade record and tape update that end [process_order2]. *)
Definition finish (time : Q) (order : Order Z)
           (r : option string * Z * Exchange.t)
  : result (option Exchange.Trade * Exchange.t) :=
  let '(counterparty, price, ex) := r in
  match counterparty with
  | Some cp =>
      let tr := Exchange.mkTrade time price cp (tid order) (qty order) in
      Ret (Some tr, Exchange.set_tape ex (Exchange.tape ex ++ [Exchange.TradeRec tr]))
  | None => Ret (None, ex)
  end.

(** The states of the exchange reached from the initial one by calls
    of [process_order2] and [del_order] that return. *)
Inductive reachable : Exchange.t -> Prop :=
| reach_init : reachable Exchange.init
| reach_process : forall ex time order tr ex',
    reachable ex ->
    Exchange.process_order2 ex time order = Ret (tr, ex') ->
    reachable ex'
| reach_cancel : forall ex time order ex',
    reachable ex ->
    Exchange.del_order ex time order = Ret ex' ->
    reachable ex'.

(** The side an order of type [ot] goes to, and the opposite side. *)
Definition own_side (ex : Exchange.t) (ot : OType) : OH.t :=
  match ot with Bid => Exchange.bids ex | Ask => Exchange.asks ex end.

Definition opp_side (ex : Exchange.t) (ot : OType) : OH.t :=
  match ot with Bid => Exchange.asks ex | Ask => Exchange.bids ex end.

(** The incoming side's best price [own] crosses the opposite best
    [opp]: best bid >= best ask. *)
Definition crosses (ot : OType) (own opp : Z) : Prop :=
  match ot with Bid => own >= opp | Ask => own <= opp end.

(* ================================================================= *)
(** ** Example orders, books and traders *)

(** The ask of S01 at 50 and the bid of B01 at 60, one unit each, with
    the timestamp and quote id they are submitted with. *)
Definition S01_ask (t : Q) (q : Z) : Order Z := mkOrder "S01" Ask 50 1 t q.

Definition B01_bid (t : Q) (q : Z) : Order Z := mkOrder "B01" Bid 60 1 t q.

(** State of the exchange once the ask of S01 rests alone. *)
Definition ex_S01 : Exchange.t :=
  Eval vm_compute in
    match Exchange.process_order2 Exchange.init 1 (S01_ask 1 0) with
    | Ret (_, ex) => ex
    | Raise _ => Exchange.init
    end.

(** A bid of B02 at 40, below the ask of S01. *)
Definition B02_bid40 : Order Z := mkOrder "B02" Bid 40 1 2 0.

(** State of the exchange once the bid of B01 at 60 is admitted next
    to the ask of S01. *)
Definition ex_S01_B01 : Exchange.t :=
  Eval vm_compute in
    match Exchange.add_order ex_S01 (B01_bid 2 0) with
    | Ret (_, _, _, ex) => ex
    | Raise _ => Exchange.init
    end.

(** The bids of a session in which B01 bids 30 at time 1, B02 bids 40
    at time 2 and B01 re-quotes at 40 at time 3 (no asks). *)
Definition ex_requote : Exchange.t :=
  Eval vm_compute in
    match
      ('(_, ex) <- Exchange.process_order2 Exchange.init 1 (mkOrder "B01" Bid 30 1 1 0) ;;
       '(_, ex) <- Exchange.process_order2 ex 2 (mkOrder "B02" Bid 40 1 2 0) ;;
       Exchange.process_order2 ex 3 (mkOrder "B01" Bid 40 1 3 0))
    with
    | Ret (_, ex) => ex
    | Raise _ => Exchange.init
    end.

(** A bid side holding the single order of B01 at price 40. *)
Definition h_one : OH.t :=
  Eval vm_compute in
    snd (OH.book_add (OH.init Bid bse_sys_minprice) (mkOrder "B01" Bid 40 1 1 0)).

(** State of the exchange once B02 bids 40 under the ask of S01 at 50. *)
Definition ex_S01_B02 : Exchange.t :=
  Eval vm_compute in
    match Exchange.process_order2 ex_S01 2 B02_bid40 with
    | Ret (_, ex) => ex
    | Raise _ => Exchange.init
    end.

(** The two orders resting at 40 in [ex_requote], with the quote ids
    the exchange gave them. *)
Definition B01_requote : Order Z := mkOrder "B01" Bid 40 1 3 2.

Definition B02_resting : Order Z := mkOrder "B02" Bid 40 1 2 1.

(* ================================================================= *)
(** ** Specification vocabulary: the traders *)

(** Profit of a settlement against the pending order [o]. *)
Definition profit_of (o : Order Z) (trade : Exchange.Trade) : Z :=
  match otype o with
  | Bid => price o - Exchange.t_price trade
  | Ask => Exchange.t_price trade - price o
  end.

(** A bid with limit 60 assigned to B01, and B01 as a Giveaway buyer
    born at time 0 that works it. *)
Definition B01_limit60 : Order Z := mkOrder "B01" Bid 60 1 0 0.

Definition B01_trader : Trader.t :=
  Trader.set_orders (Trader.init "GVWY" "B01" 0 0) [B01_limit60].

Definition trade_50 (time : Q) : Exchange.Trade :=
  Exchange.mkTrade time 50 "S01" "B01" 1.

(** [round(x)] as the specification names it: the nearest integer, a
    tie going to the even neighbour (Python's built-in [round]). *)
Definition round_half_even (x : Q) : Z :=
  let f := Qfloor x in
  match (x - inject_Z f ?= 1 # 2)%Q with
  | Lt => f
  | Gt => f + 1
  | Eq => if Z.even f then f else f + 1
  end.

(** The margin that [Trader_ZIP.getorder] applies to an order of the
    given type. *)
Definition zip_margin (z : Trader_ZIP.t) (ot : OType) : Q :=
  match ot with
  | Bid => Trader_ZIP.margin_buy z
  | Ask => Trader_ZIP.margin_sell z
  end.

(** A ZIP seller working an ask with limit 10 at a margin of 0.08. *)
Definition S01_limit10 : Order Z := mkOrder "S01" Ask 10 1 0 0.

Definition zip_seller : Trader_ZIP.t :=
  Trader_ZIP.mk (Trader.set_orders (Trader.init "ZIP" "S01" 0 0) [S01_limit10])
                None false None (- (1 # 10)) (2 # 25) None None.

(** The data published by the exchange before any order. *)
Definition lob_empty : Published.public_data :=
  Published.publish_lob (Published.obj_of Exchange.init) 1.

(** A market of two Giveaway traders born at time 0, and the customer
    orders assigned to them. *)
Definition market0 : Session.traders :=
  [("B01"%string, Trader.init "GVWY" "B01" 0 0);
   ("S01"%string, Trader.init "GVWY" "S01" 0 0)].

Definition S01_limit50 : Order Z := mkOrder "S01" Ask 50 1 0 0.

Definition B01_limit70 : Order Z := mkOrder "B01" Bid 70 1 3 0.

(** S01 is assigned an ask with limit 50 and B01 a bid with limit 60;
    S01 quotes at time 1, B01 at time 2. *)
Definition session_until_trade
  : result (option Exchange.Trade * Session.traders * Exchange.t) :=
  '(_, trs, kills) <- Session.issue market0 [] S01_limit50 ;;
  '(_, trs, kills) <- Session.issue trs kills B01_limit60 ;;
  ex <- Session.kill_quotes trs Exchange.init 1 kills ;;
  '(_, trs, ex) <- Session.quote trs ex 1 1 "S01" ;;
  Session.quote trs ex 2 1 "B01".

(** A record that is not on the tape of the exchange. *)
Definition forged : Exchange.TapeItem :=
  Exchange.TradeRec (Exchange.mkTrade 9 999 "X" "Y" 1).

(** The state in which [getorder] calls [calcTarget] for the pending
    order [o]. *)
Definition aa_start (a : AA.t) (o : Order R) : AA.t :=
  AA.set_limit_job (AA.set_active a true) (price o) (otype o).

(** The pair that [getorder] returns with a quote at [quoteprice]. *)
Definition aa_quote (a1 : AA.t) (o : Order R) (quoteprice : R) (time : Q)
           (lob : Published.public_data) : option (Order R) * AA.t :=
  let order := mkOrder (AA.tid a1) (otype o) quoteprice (qty o) time
                       (Published.QID lob) in
  (Some order, AA.set_lastquote a1 (Some order)).

(** A customer bid with limit 100, and an AA buyer working it after
    one trade at 90, remembering a best ask of 120 and the given best
    bid. *)
Definition B01_limit100 : Order R := mkOrder "B01" Bid 100%R 1 0 0.

Definition aa_buyer (best_bid : option R) : AA.t :=
  AA.mk "B01" [B01_limit100] None false None None (-2)%R [90%R] [90%R]
        best_bid (Some 120%R) (Some 90%R) (Some 90%R) (-0.1)%R (-0.1)%R.



(** The order as [add_order] stores it: with the next quote id. *)
Definition admitted (ex : Exchange.t) (order : Order Z) : Order Z :=
  set_qid order (Exchange.quote_id ex).

(** The orders of the incoming side once [order] is admitted. *)
Definition own_admitted (ex : Exchange.t) (order : Order Z)
  : list (string * Order Z) :=
  dict_set String.eqb (tid order) (admitted ex order)
           (OH.orders (own_side ex (otype order))).

(** The resting order of trader [k] on the side of type [s]. *)
Definition resting (ex : Exchange.t) (s : OType) (k : string) : option (Order Z) :=
  dict_get String.eqb k (OH.orders (own_side ex s)).

(** One call of the exchange, and a sequence of calls run from a
    state; the run stops at the first exception. *)
Inductive call : Type :=
| Process (time : Q) (order : Order Z)
| Cancel (time : Q) (order : Order Z).

Definition run_call (ex : Exchange.t) (c : call) : result Exchange.t :=
  match c with
  | Process time order =>
      '(_, ex') <- Exchange.process_order2 ex time order ;; Ret ex'
  | Cancel time order => Exchange.del_order ex time order
  end.

Fixpoint run (ex : Exchange.t) (cs : list call) : result Exchange.t :=
  match cs with
  | [] => Ret ex
  | c :: rest => ex' <- run_call ex c ;; run ex' rest
  end.

(** The quantity submitted by a call; a cancellation submits none. *)
Definition positive_call (c : call) : Prop :=
  match c with
  | Process _ order => 0 < qty order
  | Cancel _ _ => True
  end.

(** A bid of S01 at 60, above its own ask at 50. *)
Definition S01_bid60 : Order Z := mkOrder "S01" Bid 60 1 2 0.

(** State of the exchange once the bid of B01 at 60 has traded with
    the ask of S01. *)
Definition ex_traded : Exchange.t :=
  Eval vm_compute in
    match Exchange.process_order2 ex_S01 2 (B01_bid 2 0) with
    | Ret (_, ex) => ex
    | Raise _ => Exchange.init
    end.

(** The calls of a short session: S01 asks 50, B02 bids 40, B02
    withdraws, B01 bids 60. *)
Definition calls_example : list call :=
  [Process 1 (S01_ask 1 0); Process 2 B02_bid40; Cancel 3 B02_bid40;
   Process 4 (B01_bid 4 0)].

(* ================================================================= *)
(** ** More traders: Shaver, Sniper and the learning rule of ZIP *)

(** [a < b] on floats *)
Definition Qlt_bool (a b : Q) : bool := negb (Qle_bool b a).

(** [Trader_Shaver]: one tick better than the best price of its own
    side, never past the limit; the worst price of the side when it
    is empty.  ['best'] of a side is [None] or a number: adding to
    [None] is a [TypeError]. *)
Module Trader_Shaver.

Definition getorder (tr : Trader.t) (time countdown : Q)
           (lob : Published.public_data)
  : result (option (Order Z) * Trader.t) :=
  match Trader.orders tr with
  | [] => Ret (None, tr)
  | o :: _ =>
      let limitprice := price o in
      let otype := otype o in
      quoteprice <-
        match otype with
        | Bid =>
            if 0 <? Published.n (Published.pd_bids lob) then
              best <- of_option TypeError (Published.best (Published.pd_bids lob)) ;;
              let quoteprice := best + 1 in
              Ret (if quoteprice >? limitprice then limitprice else quoteprice)
            else Ret (Published.worst (Published.pd_bids lob))
        | Ask =>
            if 0 <? Published.n (Published.pd_asks lob) then
              best <- of_option TypeError (Published.best (Published.pd_asks lob)) ;;
              let quoteprice := best - 1 in
              Ret (if quoteprice <? limitprice then limitprice else quoteprice)
            else Ret (Published.worst (Published.pd_asks lob))
        end ;;
      let order := mkOrder (Trader.tid tr) otype quoteprice (qty o) time
                           (Published.QID lob) in
      Ret (Some order, Trader.set_lastquote tr (Some order))
  end.

End Trader_Shaver.

(** [Trader_Sniper]: a Shaver that waits until little time is left
    and then shaves more the less time there is. *)
Module Trader_Sniper.

Definition lurk_threshold : Q := 2 # 10.
Definition shavegrowthrate : Z := 3.

(** [int(1.0 / (0.01 + countdown / (shavegrowthrate * lurk_threshold)))].
    The quotients are exact here.  In binary64 the denominator
    vanishes at another negative countdown than the -0.006 of exact
    arithmetic; what is stated of [shave] is for countdowns that are
    not negative, and consists of bounds and an order that rounding
    keeps. *)
Definition shave (countdown : Q) : result Z :=
  d <- truediv countdown (inject_Z shavegrowthrate * lurk_threshold) ;;
  x <- truediv 1 ((1 # 100) + d) ;;
  Ret (py_int x).

Definition getorder (tr : Trader.t) (time countdown : Q)
           (lob : Published.public_data)
  : result (option (Order Z) * Trader.t) :=
  shave <- shave countdown ;;
  match Trader.orders tr with
  | [] => Ret (None, tr)
  | o :: _ =>
      if Qlt_bool lurk_threshold countdown then Ret (None, tr)
      else
        let limitprice := price o in
        let otype := otype o in
        quoteprice <-
          match otype with
          | Bid =>
              if 0 <? Published.n (Published.pd_bids lob) then
                best <- of_option TypeError (Published.best (Published.pd_bids lob)) ;;
                let quoteprice := best + shave in
                Ret (if quoteprice >? limitprice then limitprice else quoteprice)
              else Ret (Published.worst (Published.pd_bids lob))
          | Ask =>
              if 0 <? Published.n (Published.pd_asks lob) then
                best <- of_option TypeError (Published.best (Published.pd_asks lob)) ;;
                let quoteprice := best - shave in
                Ret (if quoteprice <? limitprice then limitprice else quoteprice)
              else Ret (Published.worst (Published.pd_asks lob))
          end ;;
        let order := mkOrder (Trader.tid tr) otype quoteprice (qty o) time
                             (Published.QID lob) in
        Ret (Some order, Trader.set_lastquote tr (Some order))
  end.

End Trader_Sniper.

(** [int(round(x, 0))]: the nearest integer, a tie going to the even
    neighbour. *)
Definition py_round (x : Q) : Z := round_half_even x.

(** The functions nested in [Trader_ZIP.respond].  The trader is the
    record [Trader_ZIP.t] together with the learning parameters that
    only [respond] uses.  A value drawn from [random.random()] is an
    argument of the function that draws it. *)
Module ZIP_respond.

Record t : Type := mk {
  zip : Trader_ZIP.t;
  prev_change : Q;
  beta : Q;
  momntm : Q;
  ca : Q;
  cr : Q
}.

Definition set_zip (z : t) (x : Trader_ZIP.t) : t :=
  mk x (prev_change z) (beta z) (momntm z) (ca z) (cr z).
Definition set_prev_change (z : t) (c : Q) : t :=
  mk (zip z) c (beta z) (momntm z) (ca z) (cr z).

(** [self.margin_buy = newmargin; self.margin = newmargin] *)
Definition set_margin_buy (x : Trader_ZIP.t) (m : Q) : Trader_ZIP.t :=
  Trader_ZIP.mk (Trader_ZIP.super x) (Trader_ZIP.job x) (Trader_ZIP.active x)
                (Some m) m (Trader_ZIP.margin_sell x)
                (Trader_ZIP.price x) (Trader_ZIP.limit x).
(** [self.margin_sell = newmargin; self.margin = newmargin] *)
Definition set_margin_sell (x : Trader_ZIP.t) (m : Q) : Trader_ZIP.t :=
  Trader_ZIP.mk (Trader_ZIP.super x) (Trader_ZIP.job x) (Trader_ZIP.active x)
                (Some m) (Trader_ZIP.margin_buy x) m
                (Trader_ZIP.price x) (Trader_ZIP.limit x).
Definition set_price (x : Trader_ZIP.t) (p : Z) : Trader_ZIP.t :=
  Trader_ZIP.mk (Trader_ZIP.super x) (Trader_ZIP.job x) (Trader_ZIP.active x)
                (Trader_ZIP.margin x) (Trader_ZIP.margin_buy x)
                (Trader_ZIP.margin_sell x) (Some p) (Trader_ZIP.limit x).

(** [target_up]; [r_abs] and [r_rel] are the two random values, in
    the order in which they are drawn.  The price is a trade price or
    a best price of the book: an integer or a float, as the quotes of
    the traders in the market are. *)
Definition target_up (z : t) (r_abs r_rel : Q) (price : Q) : Z :=
  let ptrb_abs := (ca z * r_abs)%Q in
  let ptrb_rel := (price * (1 + cr z * r_rel))%Q in
  py_round (ptrb_rel + ptrb_abs)%Q.

(** [target_down] *)
Definition target_down (z : t) (r_abs r_rel : Q) (price : Q) : Z :=
  let ptrb_abs := (ca z * r_abs)%Q in
  let ptrb_rel := (price * (1 - cr z * r_rel))%Q in
  py_round (ptrb_rel - ptrb_abs)%Q.

(** [willing_to_trade]; [self.price] is compared only when the job
    and the activity test have passed, and is then used as a number. *)
Definition willing_to_trade (z : t) (price : Q) : result bool :=
  let x := zip z in
  w1 <- match Trader_ZIP.job x with
        | Some Bid =>
            if Trader_ZIP.active x then
              p <- of_option TypeError (Trader_ZIP.price x) ;;
              Ret (Qle_bool price (inject_Z p))
            else Ret false
        | _ => Ret false
        end ;;
  w2 <- match Trader_ZIP.job x with
        | Some Ask =>
            if Trader_ZIP.active x then
              p <- of_option TypeError (Trader_ZIP.price x) ;;
              Ret (Qle_bool (inject_Z p) price)
            else Ret false
        | _ => Ret false
        end ;;
  Ret (w1 || w2).

(** [profit_alter] *)
Definition profit_alter (z : t) (price : Z) : result t :=
  oldprice <- of_option TypeError (Trader_ZIP.price (zip z)) ;;
  let diff := price - oldprice in
  let change := ((1 - momntm z) * (beta z * inject_Z diff)
                 + momntm z * prev_change z)%Q in
  let z := set_prev_change z change in
  limit <- of_option TypeError (Trader_ZIP.limit (zip z)) ;;
  q <- truediv (inject_Z oldprice + change)%Q (inject_Z limit) ;;
  let newmargin := (q - 1)%Q in
  let x :=
    match Trader_ZIP.job (zip z) with
    | Some Bid =>
        if Qlt_bool newmargin 0 then set_margin_buy (zip z) newmargin else zip z
    | _ =>
        if Qlt_bool 0 newmargin then set_margin_sell (zip z) newmargin else zip z
    end in
  (* set the price from limit and profit-margin *)
  m <- of_option TypeError (Trader_ZIP.margin x) ;;
  Ret (set_zip z (set_price x (py_round (inject_Z limit * (1 + m))%Q))).

End ZIP_respond.

(* ================================================================= *)
(** ** Customer orders and statistics

    The deterministic parts of [customer_orders] and the return value
    of [trade_stats].  A value drawn by [random.randint] is an argument
    of the function that draws it; what is written to the dump file is
    left out. *)

Module Customer_orders.

(** [min(a, b)] and [max(a, b)]: the first argument unless the second
    is smaller, respectively larger. *)
Definition py_min (a b : Q) : Q := if Qlt_bool b a then b else a.
Definition py_max (a b : Q) : Q := if Qlt_bool a b then b else a.

Definition sysmin_check (price : Q) : Q :=
  if Qlt_bool price (inject_Z bse_sys_minprice) then inject_Z bse_sys_minprice
  else price.

Definition sysmax_check (price : Q) : Q :=
  if Qlt_bool (inject_Z bse_sys_maxprice) price then inject_Z bse_sys_maxprice
  else price.

(** One range [(min, max, ...)] of a schedule: the two prices, then
    the optional third and fourth elements, each a function of the
    issue time or something that is not callable. *)
Inductive offset : Type :=
| Callable (f : Q -> Q)
| NotCallable.

Record range : Type := mkRange {
  r_first : Q;
  r_second : Q;
  r_more : list offset
}.

(** ['fixed'], ['jittered'], ['random'], or any other value. *)
Inductive stepmode : Type := Fixed | Jittered | Random | OtherMode.

(** The values that [random.randint] returns in [getorderprice]: the
    jitter, the index of the schedule chosen and the random price. *)
Record draws : Type := mkDraws {
  d_jitter : Z;
  d_sched : nat;
  d_price : Z
}.

(** [getorderprice].  The step size and its multiples are exact here;
    in binary64 [int(i * stepsize)] can be one less than the truncated
    exact product.  What is stated of the price are the limits it is
    clipped to, the exceptions, and for whole prices its bounds and
    its order in [i]. *)
Definition getorderprice (i : Z) (sched : list range) (n : Z) (mode : stepmode)
           (issuetime : Q) (d : draws) : result Q :=
  r0 <- of_option IndexError (first_opt sched) ;;
  '(offset_min, offset_max) <-
    match r_more r0 with
    | offsetfn :: more =>
        match offsetfn with
        | Callable f =>
            (* same offset for min and max *)
            let offset_min := f issuetime in
            match more with
            | offsetfn2 :: _ =>
                match offsetfn2 with
                | Callable g => Ret (offset_min, g issuetime)
                | NotCallable => Raise SystemExit
                end
            | [] => Ret (offset_min, offset_min)
            end
        | NotCallable => Raise SystemExit
        end
    | [] => Ret (0, 0)%Q
    end ;;
  let pmin := sysmin_check (offset_min + py_min (r_first r0) (r_second r0)) in
  let pmax := sysmax_check (offset_max + py_max (r_first r0) (r_second r0)) in
  let prange := (pmax - pmin)%Q in
  stepsize <- truediv prange (inject_Z (n - 1)) ;;
  let halfstep := py_round (stepsize / 2) in
  orderprice <-
    match mode with
    | Fixed => Ret (pmin + inject_Z (py_int (inject_Z i * stepsize)))%Q
    | Jittered =>
        Ret (pmin + inject_Z (py_int (inject_Z i * stepsize))
             + inject_Z (d_jitter d))%Q
    | Random =>
        _ <- (if 1 <? len sched then
                (* more than one schedule: choose one equiprobably *)
                r <- of_option IndexError (nth_error sched (d_sched d)) ;;
                Ret (sysmin_check (py_min (r_first r) (r_second r)),
                     sysmax_check (py_max (r_first r) (r_second r)))
              else Ret (pmin, pmax)) ;;
        Ret (inject_Z (d_price d))
    | OtherMode => Raise SystemExit
    end ;;
  Ret (sysmin_check (sysmax_check orderprice)).

(** One element of a supply or demand schedule: its timezone, its
    ranges and its step mode. *)
Record zone {R M : Type} : Type := mkZone {
  z_from : Q;
  z_to : Q;
  z_ranges : R;
  z_stepmode : M
}.
Arguments zone R M : clear implicits.
Arguments mkZone {R M} z_from z_to z_ranges z_stepmode.

(** [getschedmode].  The statement [exit] in the loop names the
    built-in and does not call it, so the loop visits every schedule;
    [found] is [None] while [got_one] is [False] and holds
    [(schedrange, mode)] afterwards. *)
Definition getschedmode {R M : Type} (time : Q) (os : list (zone R M))
  : result (R * M) :=
  let found :=
    fold_left (fun found sched =>
                 if Qle_bool (z_from sched) time && Qlt_bool time (z_to sched)
                 then Some (z_ranges sched, z_stepmode sched)
                 else found) os None in
  match found with
  | Some r => Ret r
  | None => Raise SystemExit
  end.

(** [order.time], before the parameter [time] hides the name. *)
Definition order_time (o : Order Z) : Q := time o.

(** The loop of [customer_orders] over a non-empty list of pending
    orders: the orders whose time has come are issued to their
    traders, the others stay pending. *)
Fixpoint issue_due (time : Q) (trs : Session.traders) (pending : list (Order Z))
         (new_pending : list (Order Z)) (cancellations : list string)
  : result (list (Order Z) * list string * Session.traders) :=
  match pending with
  | [] => Ret (new_pending, cancellations, trs)
  | order :: rest =>
      if Qlt_bool (order_time order) time then
        '(_, trs, cancellations) <- Session.issue trs cancellations order ;;
        issue_due time trs rest new_pending cancellations
      else
        issue_due time trs rest (new_pending ++ [order]) cancellations
  end.

End Customer_orders.

Module Stats.

(** [{'n': n, 'balance_sum': t_balance}] *)
Record entry : Type := mkEntry {
  n : Z;
  balance_sum : Q
}.

(** The first loop of [trade_stats]: [trader_types]. *)
Definition tally (trs : Session.traders) : list (string * entry) :=
  fold_left (fun trader_types (kv : string * Trader.t) =>
               let ttype := Trader.ttype (snd kv) in
               let e := match dict_get String.eqb ttype trader_types with
                        | Some e => mkEntry (n e + 1)
                                            (balance_sum e + Trader.balance (snd kv))
                        | None => mkEntry 1 (Trader.balance (snd kv))
                        end in
               dict_set String.eqb ttype e trader_types) trs [].

(** [sorted(keys)] on strings *)
Fixpoint insert_key (k : string) (l : list string) : list string :=
  match l with
  | [] => [k]
  | x :: r => if String.leb k x then k :: l else x :: insert_key k r
  end.

Definition sorted_keys (l : list string) : list string :=
  fold_right insert_key [] l.

(** [trade_stats]: the lists [returned_types] and
    [returned_avg_balances]. *)
Definition trade_stats (trs : Session.traders) : result (list string * list Q) :=
  let trader_types := tally trs in
  fold_left (fun acc ttype =>
               '(returned_types, returned_avg_balances) <- acc ;;
               e <- of_option KeyError (dict_get String.eqb ttype trader_types) ;;
               avg_balance <- truediv (balance_sum e) (inject_Z (n e)) ;;
               Ret (returned_types ++ [ttype],
                    returned_avg_balances ++ [avg_balance]))
            (sorted_keys (dict_keys trader_types)) (Ret ([], [])).

End Stats.

(** The published data of the side an order of type [ot] goes to. *)
Definition side_of (lob : Published.public_data) (ot : OType) : Published.side_data :=
  match ot with
  | Bid => Published.pd_bids lob
  | Ask => Published.pd_asks lob
  end.

(** A quote that is no worse for the customer than the limit price: a
    bid at or below it, an ask at or above it. *)
Definition within_limit (ot : OType) (limit quote : Z) : Prop :=
  match ot with
  | Bid => quote <= limit
  | Ask => limit <= quote
  end.

(** The price a Shaver-like trader aims at: [shave] ticks better than
    the best price [b] of its side. *)
Definition shaved (ot : OType) (b shave : Z) : Z :=
  match ot with
  | Bid => b + shave
  | Ask => b - shave
  end.

(** A Shaver holding the bid of B01 with limit 60, and the data
    published for the book on which B02 bids 40 under the ask of S01. *)
Definition shaver_B01 : Trader.t :=
  Trader.set_orders (Trader.init "SHVR" "B01" 0 0) [B01_limit60].

Definition lob_S01_B02 : Published.public_data :=
  Published.publish_lob (Published.obj_of ex_S01_B02) 3.


(** The float that [shave] truncates. *)
Definition shave_arg (countdown : Q) : Q :=
  (1 / ((1 # 100) + countdown / (inject_Z 3 * (2 # 10))))%Q.

(** The ZIP seller of the example once it has quoted, with learning
    rate 0.3, momentum 0.05 and no change remembered. *)
Definition zip_learner : ZIP_respond.t :=
  ZIP_respond.mk (snd (Trader_ZIP.getorder zip_seller 1 1 lob_empty))
                 0 (3 # 10) (5 # 100) (5 # 100) (5 # 100).

Definition zip_learner_12 : ZIP_respond.t :=
  Eval vm_compute in
    match ZIP_respond.profit_alter zip_learner 12 with
    | Ret z => z
    | Raise _ => zip_learner
    end.

(** The state a method leaves, finished or not. *)
Definition state_of {S : Type} (o : outcome S) : S :=
  match o with
  | Done s => s
  | Aborted _ s => s
  end.

(** B01 once its bid with limit 60 is settled at 50 at time 2. *)
Definition B01_settled : Trader.t :=
  Eval vm_compute in state_of (Trader.bookkeep B01_trader (trade_50 2) 2).

(** The market once S01 has been given its customer order. *)
Definition market1 : Session.traders :=
  Eval vm_compute in
    match Session.issue market0 [] S01_limit50 with
    | Ret (_, trs, _) => trs
    | Raise _ => market0
    end.

(** Whether [time] lies in the timezone of a schedule. *)
Definition in_zone {R M : Type} (time : Q) (s : Customer_orders.zone R M) : bool :=
  Qle_bool (Customer_orders.z_from s) time && Qlt_bool time (Customer_orders.z_to s).

(** Two schedules whose timezones overlap between 5 and 10. *)
Definition zones_overlapping : list (Customer_orders.zone Z Customer_orders.stepmode) :=
  [Customer_orders.mkZone 0 10 100 Customer_orders.Fixed;
   Customer_orders.mkZone 5 15 200 Customer_orders.Random].

(** A schedule with the single range from 50 to 150. *)
Definition sched_50_150 : list Customer_orders.range :=
  [Customer_orders.mkRange 50 150 []].

Definition no_draws : Customer_orders.draws := Customer_orders.mkDraws 0 0 0.

(** A pending customer order whose time has come. *)
Definition due (time : Q) (o : Order Z) : bool :=
  Qlt_bool (Customer_orders.order_time o) time.

(** Whether trader [name] counts a live quote. *)
Definition quoting (trs : Session.traders) (name : string) : bool :=
  match dict_get String.eqb name trs with
  | Some tr => 0 <? Trader.n_quotes tr
  | None => false
  end.

(** The last due order of [pending] that is addressed to [name]. *)
Definition last_due (time : Q) (name : string) (pending : list (Order Z))
  : option (Order Z) :=
  last_opt (filter (fun o => due time o && String.eqb (tid o) name) pending).

(** Trader [tr], named [name], once the due orders of [pending] are
    issued. *)
Definition reassigned (time : Q) (pending : list (Order Z)) (name : string)
           (tr : Trader.t) : Trader.t :=
  match last_due time name pending with
  | Some o => Trader.set_orders tr [o]
  | None => tr
  end.

(** Whether a due order is addressed to a trader of [trs]. *)
Definition addressed (time : Q) (trs : Session.traders) (o : Order Z) : Prop :=
  due time o = true -> dict_get String.eqb (tid o) trs <> None.

(** Two pending orders: one of S01 for time 0, one of B01 for time 3. *)
Definition pending_example : list (Order Z) := [S01_limit50; B01_limit70].

(** The traders of type [T], in the order of the trader map. *)
Definition of_type (T : string) (trs : Session.traders) : list Trader.t :=
  filter (fun t => String.eqb (Trader.ttype t) T) (dict_values trs).

(** The sum of the balances of a list of traders. *)
Definition sum_balance (l : list Trader.t) : Q :=
  fold_right (fun t s => (Trader.balance t + s)%Q) 0%Q l.

(** What the first loop of [trade_stats] accumulates for one type. *)
Definition tally_merge (cur : option Stats.entry) (l : list Trader.t)
  : option Stats.entry :=
  fold_left (fun cur t =>
               Some (match cur with
                     | Some e => Stats.mkEntry (Stats.n e + 1)
                                               (Stats.balance_sum e + Trader.balance t)
                     | None => Stats.mkEntry 1 (Trader.balance t)
                     end)) l cur.

(** The body of the first loop of [trade_stats]. *)
Definition tally_step (trader_types : list (string * Stats.entry))
           (kv : string * Trader.t) : list (string * Stats.entry) :=
  let ttype := Trader.ttype (snd kv) in
  let e := match dict_get String.eqb ttype trader_types with
           | Some e => Stats.mkEntry (Stats.n e + 1)
                                     (Stats.balance_sum e + Trader.balance (snd kv))
           | None => Stats.mkEntry 1 (Trader.balance (snd kv))
           end in
  dict_set String.eqb ttype e trader_types.

(** The average that [trade_stats] returns for a type. *)
Definition avg_of (tt : list (string * Stats.entry)) (T : string) : Q :=
  match dict_get String.eqb T tt with
  | Some e => (Stats.balance_sum e / inject_Z (Stats.n e))%Q
  | None => 0%Q
  end.

(* ================================================================= *)
(** ** Dictionaries and sorted views *)

Section DictFacts.
Context {K V : Type}.
Variable eqb : K -> K -> bool.
Hypothesis eqb_spec : forall a b, eqb a b = true <-> a = b.

Lemma eqb_refl' : forall a, eqb a a = true.
Proof. intro a. apply eqb_spec. reflexivity. Qed.

Lemma eqb_neq : forall a b, a <> b -> eqb a b = false.
Proof.
  intros a b H. destruct (eqb a b) eqn:E; [|reflexivity].
  apply eqb_spec in E. contradiction.
Qed.

Lemma dict_get_set_same : forall k (v : V) d,
    dict_get eqb k (dict_set eqb k v d) = Some v.
Proof.
  intros k v d. induction d as [|[k' v'] r IH]; simpl.
  - rewrite eqb_refl'. reflexivity.
  - destruct (eqb k k') eqn:E; simpl; rewrite E; auto.
Qed.

Lemma dict_get_set_other : forall k k' (v : V) d,
    k <> k' -> dict_get eqb k (dict_set eqb k' v d) = dict_get eqb k d.
Proof.
  intros k k' v d Hne. induction d as [|[k2 v2] r IH]; simpl.
  - rewrite eqb_neq by assumption. reflexivity.
  - destruct (eqb k' k2) eqn:E; simpl.
    + apply eqb_spec in E. subst k2.
      rewrite eqb_neq by assumption. reflexivity.
    + rewrite IH. reflexivity.
Qed.

Lemma dict_get_del_other : forall k k' (d : list (K * V)),
    k <> k' -> dict_get eqb k (dict_del eqb k' d) = dict_get eqb k d.
Proof.
  intros k k' d Hne. induction d as [|[k2 v2] r IH]; simpl; auto.
  destruct (eqb k' k2) eqn:E; simpl.
  - apply eqb_spec in E. subst k2. rewrite eqb_neq by assumption. reflexivity.
  - rewrite IH. reflexivity.
Qed.

Lemma dict_get_In : forall k (v : V) d,
    dict_get eqb k d = Some v -> In (k, v) d.
Proof.
  intros k v d. induction d as [|[k2 v2] r IH]; simpl; [discriminate|].
  destruct (eqb k k2) eqn:E.
  - apply eqb_spec in E. subst k2. intros [= ->]. left; reflexivity.
  - intro H. right. auto.
Qed.

Lemma dict_get_keys : forall k (d : list (K * V)),
    In k (dict_keys d) <-> dict_get eqb k d <> None.
Proof.
  intros k d. induction d as [|[k2 v2] r IH]; simpl.
  - split; [tauto | congruence].
  - destruct (eqb k k2) eqn:E.
    + apply eqb_spec in E. subst. split; [discriminate | auto].
    + rewrite <- IH. split.
      * intros [H|H]; [|exact H]. subst. rewrite eqb_refl' in E. discriminate.
      * auto.
Qed.

Lemma dict_get_NoDup : forall k (v : V) d,
    NoDup (dict_keys d) -> In (k, v) d -> dict_get eqb k d = Some v.
Proof.
  intros k v d. induction d as [|[k2 v2] r IH]; simpl; [tauto|].
  intros Hnd [H|H].
  - inversion H; subst. rewrite eqb_refl'. reflexivity.
  - inversion Hnd as [|? ? Hnin Hnd']; subst.
    destruct (eqb k k2) eqn:E.
    + apply eqb_spec in E. subst k2. exfalso. apply Hnin.
      unfold dict_keys. change k with (fst (k, v)). apply in_map. exact H.
    + auto.
Qed.

Lemma dict_set_keys_present : forall k (v v0 : V) d,
    dict_get eqb k d = Some v0 -> dict_keys (dict_set eqb k v d) = dict_keys d.
Proof.
  intros k v v0 d. induction d as [|[k2 v2] r IH]; simpl; [discriminate|].
  destruct (eqb k k2) eqn:E; simpl; [reflexivity|].
  intro H. rewrite IH by assumption. reflexivity.
Qed.

Lemma dict_set_absent : forall k (v : V) d,
    dict_get eqb k d = None -> dict_set eqb k v d = d ++ [(k, v)].
Proof.
  intros k v d. induction d as [|[k2 v2] r IH]; simpl; [reflexivity|].
  destruct (eqb k k2) eqn:E; [discriminate|].
  intro H. rewrite IH by assumption. reflexivity.
Qed.

Lemma dict_del_In : forall kv k (d : list (K * V)),
    In kv (dict_del eqb k d) -> In kv d.
Proof.
  intros kv k d. induction d as [|[k2 v2] r IH]; simpl; auto.
  destruct (eqb k k2); simpl; [auto|]. intros [H|H]; auto.
Qed.

Lemma dict_del_NoDup : forall k (d : list (K * V)),
    NoDup (dict_keys d) -> NoDup (dict_keys (dict_del eqb k d)).
Proof.
  intros k d. induction d as [|[k2 v2] r IH]; simpl; auto.
  intro H. inversion H as [|? ? Hnin Hnd]; subst.
  destruct (eqb k k2); simpl; [assumption|].
  constructor; [|auto].
  intro Hin. apply Hnin. unfold dict_keys in *.
  apply in_map_iff in Hin. destruct Hin as [kv [Hk Hin]].
  apply in_map_iff. exists kv. split; [assumption|].
  eapply dict_del_In. eassumption.
Qed.

Lemma dict_del_len : forall k (v : V) d,
    dict_get eqb k d = Some v -> len (dict_del eqb k d) = len d - 1.
Proof.
  intros k v d. unfold len. induction d as [|[k2 v2] r IH]; [discriminate|].
  cbn [dict_get dict_del]. destruct (eqb k k2) eqn:E.
  - intros _. cbn [List.length]. lia.
  - intro H. specialize (IH H). cbn [List.length]. lia.
Qed.

Lemma dict_del_absent : forall k (d : list (K * V)),
    NoDup (dict_keys d) ->
    dict_get eqb k (dict_del eqb k d) = None.
Proof.
  intros k d. induction d as [|[k2 v2] r IH]; simpl; auto.
  intro H. inversion H as [|? ? Hnin Hnd]; subst.
  destruct (eqb k k2) eqn:E; simpl.
  - apply eqb_spec in E. subst k2.
    destruct (dict_get eqb k r) eqn:G; [|reflexivity].
    exfalso. apply Hnin. apply dict_get_keys. congruence.
  - rewrite E. auto.
Qed.

End DictFacts.

Lemma Zeqb_spec' : forall a b : Z, (a =? b) = true <-> a = b.
Proof. intros. apply Z.eqb_eq. Qed.

Lemma Seqb_spec' : forall a b : string, String.eqb a b = true <-> a = b.
Proof. intros. apply String.eqb_eq. Qed.

Lemma insert_item_In : forall (V : Type) (it x : Z * V) l,
    In x (insert_item it l) <-> x = it \/ In x l.
Proof.
  intros V it x l. induction l as [|h r IH]; simpl.
  - intuition congruence.
  - destruct (fst it <=? fst h); simpl.
    + intuition congruence.
    + rewrite IH. intuition congruence.
Qed.

Lemma sorted_items_In : forall (V : Type) (x : Z * V) l,
    In x (sorted_items l) <-> In x l.
Proof.
  intros V x l. induction l as [|h r IH]; simpl; [tauto|].
  rewrite insert_item_In, IH. intuition congruence.
Qed.

Lemma last_opt_cons : forall (A : Type) (a : A) l,
    l <> [] -> last_opt (a :: l) = last_opt l.
Proof. intros A a [|b l] H; [contradiction | reflexivity]. Qed.

Lemma insert_item_nonempty : forall (V : Type) (it : Z * V) l,
    insert_item it l <> [].
Proof.
  intros V it [|h r]; simpl; [discriminate|].
  destruct (fst it <=? fst h); discriminate.
Qed.

Lemma first_insert_item : forall (V : Type) (a : Z * V) s,
    first_opt (insert_item a s) =
    match s with
    | [] => Some a
    | h :: _ => Some (if fst a <=? fst h then a else h)
    end.
Proof.
  intros V a [|h r]; simpl; [reflexivity|].
  destruct (fst a <=? fst h); reflexivity.
Qed.

Lemma last_insert_item : forall (V : Type) (a : Z * V) s,
    (last_opt (insert_item a s) = Some a /\ forall x, In x s -> fst x <= fst a)
    \/ (last_opt (insert_item a s) = last_opt s /\ exists y, In y s /\ fst a <= fst y).
Proof.
  intros V a s. induction s as [|h r IH].
  - left. split; [reflexivity | intros x []].
  - cbn [insert_item]. destruct (fst a <=? fst h) eqn:E.
    + right. split; [reflexivity|]. exists h. split; [left; reflexivity | lia].
    + rewrite last_opt_cons by apply insert_item_nonempty.
      destruct IH as [[Hl Ha] | [Hl [y [Hy Hle]]]].
      * left. split; [assumption|]. intros x [<-|Hx]; [lia | auto].
      * right. rewrite Hl. split.
        -- symmetry. apply last_opt_cons. intro; subst; contradiction.
        -- exists y. split; [right; assumption | assumption].
Qed.

(** The first item of the sorted view has the least key. *)
Lemma first_sorted_min : forall (V : Type) (l : list (Z * V)),
    l <> [] ->
    exists it, first_opt (sorted_items l) = Some it /\ In it l /\
               forall x, In x l -> fst it <= fst x.
Proof.
  intros V l. induction l as [|a r IH]; [congruence|]. intros _.
  cbn [sorted_items fold_right]. fold (sorted_items r).
  rewrite first_insert_item.
  destruct r as [|b r'].
  - exists a. simpl. repeat split; auto. intros x [<-|[]]. lia.
  - destruct IH as [m [Hm [Hin Hmin]]]; [discriminate|].
    destruct (sorted_items (b :: r')) as [|h s] eqn:Es; [discriminate|].
    simpl in Hm. injection Hm as ->.
    destruct (fst a <=? fst m) eqn:E.
    + exists a. split; [reflexivity|]. split; [left; reflexivity|].
      intros x [<-|Hx]; [lia|]. specialize (Hmin x Hx). lia.
    + exists m. split; [reflexivity|]. split; [right; assumption|].
      intros x [<-|Hx]; [lia | auto].
Qed.

(** The last item of the sorted view has the greatest key. *)
Lemma last_sorted_max : forall (V : Type) (l : list (Z * V)),
    l <> [] ->
    exists it, last_opt (sorted_items l) = Some it /\ In it l /\
               forall x, In x l -> fst x <= fst it.
Proof.
  intros V l. induction l as [|a r IH]; [congruence|]. intros _.
  cbn [sorted_items fold_right]. fold (sorted_items r).
  destruct (last_insert_item V a (sorted_items r)) as [[Hl Ha] | [Hl [y [Hy Hle]]]].
  - exists a. split; [assumption|]. split; [left; reflexivity|].
    intros x [<-|Hx]; [lia|]. apply Ha. apply sorted_items_In. assumption.
  - rewrite sorted_items_In in Hy.
    destruct IH as [m [Hm [Hin Hmax]]]; [intro; subst; contradiction|].
    exists m. split; [congruence|]. split; [right; assumption|].
    intros x [<-|Hx]; [|auto]. specialize (Hmax y Hy). lia.
Qed.

Lemma last_opt_map : forall (A B : Type) (f : A -> B) l,
    last_opt (map f l) = option_map f (last_opt l).
Proof.
  intros A B f l. induction l as [|a r IH]; [reflexivity|].
  destruct r as [|b r']; [reflexivity|].
  change (last_opt (map f (a :: b :: r'))) with (last_opt (map f (b :: r'))).
  rewrite IH. reflexivity.
Qed.

Lemma first_opt_map : forall (A B : Type) (f : A -> B) l,
    first_opt (map f l) = option_map f (first_opt l).
Proof. intros A B f [|a r]; reflexivity. Qed.

(* ================================================================= *)
(** ** What [build_lob] computes *)



Lemma level_merge_some : forall f q ol,
    level_merge (Some (q, ol)) f = Some (q + sum_qty f, ol ++ map OH.entry_of f).
Proof.
  induction f as [|o f IH]; intros q ol; simpl.
  - rewrite Z.add_0_r, app_nil_r. reflexivity.
  - unfold level_merge in *. rewrite IH. rewrite <- app_assoc. simpl.
    f_equal. f_equal. lia.
Qed.

Lemma level_merge_none : forall f,
    level_merge None f =
    match f with
    | [] => None
    | o :: r => Some (qty o + sum_qty r, OH.entry_of o :: map OH.entry_of r)
    end.
Proof.
  intros [|o r]; [reflexivity|].
  unfold level_merge. simpl. fold (level_merge (Some (qty o, [OH.entry_of o])) r).
  rewrite level_merge_some. reflexivity.
Qed.

Lemma lob_add_get : forall acc o p,
    dict_get Z.eqb p (OH.lob_add acc o) =
    if price o =? p then level_merge (dict_get Z.eqb p acc) [o]
    else dict_get Z.eqb p acc.
Proof.
  intros acc o p. unfold OH.lob_add.
  destruct (price o =? p) eqn:E.
  - apply Z.eqb_eq in E. subst p.
    destruct (dict_get Z.eqb (price o) acc) as [[q ol]|] eqn:G;
      rewrite (dict_get_set_same Z.eqb Zeqb_spec'); reflexivity.
  - apply Z.eqb_neq in E.
    destruct (dict_get Z.eqb (price o) acc) as [[q ol]|] eqn:G;
      apply (dict_get_set_other Z.eqb Zeqb_spec'); congruence.
Qed.

Lemma lob_get_fold : forall os acc p,
    dict_get Z.eqb p (fold_left OH.lob_add os acc) =
    level_merge (dict_get Z.eqb p acc) (at_price p os).
Proof.
  induction os as [|o os IH]; intros acc p; [reflexivity|].
  cbn [fold_left]. rewrite IH, lob_add_get. unfold at_price. cbn [filter].
  destruct (price o =? p); reflexivity.
Qed.

Lemma lob_get : forall os p,
    dict_get Z.eqb p (lob_of os) = level_merge None (at_price p os).
Proof. intros. unfold lob_of. rewrite lob_get_fold. reflexivity. Qed.

Lemma at_price_nonempty : forall p os,
    at_price p os <> [] <-> In p (map price os).
Proof.
  intros p os. unfold at_price. split.
  - intro H. destruct (filter _ os) as [|o r] eqn:E; [congruence|].
    assert (Hin : In o (filter (fun o => price o =? p) os)) by (rewrite E; left; reflexivity).
    apply filter_In in Hin. destruct Hin as [Hin Hp]. apply Z.eqb_eq in Hp.
    subst p. apply in_map. assumption.
  - intros Hin Hf. apply in_map_iff in Hin. destruct Hin as [o [Hp Hin]].
    assert (Hin' : In o (filter (fun o => price o =? p) os)).
    { apply filter_In. split; [assumption | apply Z.eqb_eq; assumption]. }
    rewrite Hf in Hin'. contradiction.
Qed.

Lemma lob_keys : forall os p,
    In p (dict_keys (lob_of os)) <-> In p (map price os).
Proof.
  intros os p. rewrite (dict_get_keys Z.eqb Zeqb_spec'), lob_get, level_merge_none.
  rewrite <- at_price_nonempty. destruct (at_price p os); split; congruence.
Qed.

Lemma build_lob_eq : forall h,
    OH.build_lob h =
    let l := lob_of (dict_values (OH.orders h)) in
    OH.mk (OH.booktype h) (OH.orders h) l (OH.anonymize_lob l)
          (fst (best_of (OH.booktype h) l)) (snd (best_of (OH.booktype h) l))
          (OH.worstprice h) (OH.n_orders h) (OH.lob_depth h).
Proof.
  intro h. unfold OH.build_lob, best_of, lob_of.
  destruct (0 <? len _); reflexivity.
Qed.

Lemma build_lob_idem : forall h, OH.build_lob (OH.build_lob h) = OH.build_lob h.
Proof.
  intro h. rewrite (build_lob_eq (OH.build_lob h)).
  rewrite (build_lob_eq h). reflexivity.
Qed.

Lemma len_pos : forall (A : Type) (l : list A), l <> [] -> (0 <? len l) = true.
Proof.
  intros A [|a l] H; [congruence|]. apply Z.ltb_lt. unfold len. cbn [List.length]. lia.
Qed.

Lemma anon_best_spec : forall bt (l : OH.Lob),
    l <> [] ->
    exists p v, OH.anon_best bt (OH.anonymize_lob l) = Some p /\ In (p, v) l /\
                forall x, In x (dict_keys l) ->
                          match bt with Bid => x <= p | Ask => p <= x end.
Proof.
  intros bt l Hne. unfold OH.anon_best, OH.anonymize_lob.
  destruct bt.
  - destruct (last_sorted_max _ l Hne) as [[p v] [Hl [Hin Hmax]]].
    exists p, v. rewrite last_opt_map, Hl. split; [reflexivity|]. split; [assumption|].
    intros x Hx. unfold dict_keys in Hx. apply in_map_iff in Hx.
    destruct Hx as [it [<- Hit]]. apply (Hmax it Hit).
  - destruct (first_sorted_min _ l Hne) as [[p v] [Hl [Hin Hmin]]].
    exists p, v. rewrite first_opt_map, Hl. split; [reflexivity|]. split; [assumption|].
    intros x Hx. unfold dict_keys in Hx. apply in_map_iff in Hx.
    destruct Hx as [it [<- Hit]]. apply (Hmin it Hit).
Qed.

Lemma lob_of_nonempty : forall os, os <> [] -> lob_of os <> [].
Proof.
  intros [|o os] H; [congruence|]. intro E.
  assert (Hin : In (price o) (dict_keys (lob_of (o :: os)))).
  { apply lob_keys. left. reflexivity. }
  rewrite E in Hin. contradiction.
Qed.

Lemma best_of_spec : forall bt os,
    os <> [] ->
    exists p o rest,
      best_of bt (lob_of os) = (Some p, Some (tid o)) /\
      is_best bt p os /\ at_price p os = o :: rest /\
      dict_get Z.eqb p (lob_of os) =
      Some (qty o + sum_qty rest, OH.entry_of o :: map OH.entry_of rest).
Proof.
  intros bt os Hne. pose proof (lob_of_nonempty os Hne) as Hl.
  destruct (anon_best_spec bt _ Hl) as [p [v [Hb [Hin Hext]]]].
  assert (Hk : In p (map price os)).
  { apply lob_keys. unfold dict_keys. change p with (fst (p, v)). apply in_map. exact Hin. }
  pose proof (proj2 (at_price_nonempty p os) Hk) as Hf.
  destruct (at_price p os) as [|o rest] eqn:Ef; [congruence|].
  assert (Hg : dict_get Z.eqb p (lob_of os) =
               Some (qty o + sum_qty rest, OH.entry_of o :: map OH.entry_of rest)).
  { rewrite lob_get, Ef, level_merge_none. reflexivity. }
  exists p, o, rest. split; [|split; [|split; [exact Ef | exact Hg]]].
  - unfold best_of. rewrite (len_pos _ _ Hl). cbv zeta. rewrite Hb.
    unfold OH.head_tid. rewrite Hg. reflexivity.
  - split; [assumption|]. intros o' Ho'. apply Hext. apply lob_keys.
    apply in_map. assumption.
Qed.

Lemma half_ok_fields : forall h,
    half_ok h ->
    let l := lob_of (dict_values (OH.orders h)) in
    OH.lob h = l /\ OH.lob_anon h = OH.anonymize_lob l /\
    OH.best_price h = fst (best_of (OH.booktype h) l) /\
    OH.best_tid h = snd (best_of (OH.booktype h) l).
Proof.
  intros h [Hb _]. rewrite build_lob_eq in Hb. cbv zeta in *.
  repeat split.
  - exact (eq_sym (f_equal OH.lob Hb)).
  - exact (eq_sym (f_equal OH.lob_anon Hb)).
  - exact (eq_sym (f_equal OH.best_price Hb)).
  - exact (eq_sym (f_equal OH.best_tid Hb)).
Qed.

Lemma build_lob_ext : forall h1 h2,
    OH.booktype h1 = OH.booktype h2 -> OH.orders h1 = OH.orders h2 ->
    OH.worstprice h1 = OH.worstprice h2 -> OH.n_orders h1 = OH.n_orders h2 ->
    OH.lob_depth h1 = OH.lob_depth h2 ->
    OH.build_lob h1 = OH.build_lob h2.
Proof.
  intros h1 h2 H1 H2 H3 H4 H5. rewrite !build_lob_eq.
  rewrite H1, H2, H3, H4, H5. reflexivity.
Qed.

Lemma keyed_get : forall os o,
    keyed os -> In o (dict_values os) ->
    dict_get String.eqb (tid o) os = Some o.
Proof.
  intros os o [Hk Hnd] Hin. unfold dict_values in Hin.
  apply in_map_iff in Hin. destruct Hin as [[k o'] [Ho Hin]]. simpl in Ho. subst o'.
  rewrite Forall_forall in Hk. specialize (Hk _ Hin). simpl in Hk. subst k.
  apply (dict_get_NoDup String.eqb Seqb_spec'); assumption.
Qed.

Lemma at_price_head : forall p os o rest,
    at_price p os = o :: rest -> In o os /\ price o = p.
Proof.
  intros p os o rest H.
  assert (Hin : In o (at_price p os)) by (rewrite H; left; reflexivity).
  unfold at_price in Hin. apply filter_In in Hin. destruct Hin as [Hin Hp].
  apply Z.eqb_eq in Hp. auto.
Qed.


Lemma max_opt_some : forall l, l <> [] -> exists p, max_opt l = Some p.
Proof. intros [|x r] H; [congruence|]. simpl. eauto. Qed.

Lemma min_opt_some : forall l, l <> [] -> exists p, min_opt l = Some p.
Proof. intros [|x r] H; [congruence|]. simpl. eauto. Qed.

(* ================================================================= *)
(** ** What [delete_best] does *)

Lemma delete_best_cases : forall h,
    half_ok h -> OH.orders h <> [] ->
    exists p o rest,
      OH.best_price h = Some p /\ OH.best_tid h = Some (tid o) /\
      is_best (OH.booktype h) p (dict_values (OH.orders h)) /\
      at_price p (dict_values (OH.orders h)) = o :: rest /\
      dict_get String.eqb (tid o) (OH.orders h) = Some o /\
      ((exists d, OH.delete_best h = Ret (tid o, after_delete h (tid o) d))
       \/ (OH.delete_best h = Raise ValueError /\
           qty o + sum_qty rest = 1 /\ 0 < OH.n_orders h - 1 /\
           dict_del Z.eqb p (OH.lob h) = [])).
Proof.
  intros h Hok Hne.
  destruct (half_ok_fields h Hok) as [Hl [_ [Hbp Hbt]]].
  assert (Hne' : dict_values (OH.orders h) <> []).
  { unfold dict_values. destruct (OH.orders h); [congruence | discriminate]. }
  destruct (best_of_spec (OH.booktype h) _ Hne') as [p [o [rest [Hb [Hbest [Hat Hg]]]]]].
  rewrite Hb in Hbp, Hbt. cbn [fst snd] in Hbp, Hbt.
  destruct (at_price_head _ _ _ _ Hat) as [Hin Hp].
  destruct Hok as [_ [_ Hk]].
  pose proof (keyed_get _ _ Hk Hin) as Hget.
  exists p, o, rest. repeat (split; [assumption|]).
  unfold OH.delete_best. rewrite Hbp. cbn [of_option bind]. rewrite Hl, Hg.
  cbn [of_option bind first_opt hd_error OH.e_tid OH.entry_of].
  destruct (qty o + sum_qty rest =? 1) eqn:Eq.
  - unfold OH.del_owner. cbn [OH.orders OH.set_lob]. rewrite Hget.
    cbn [bind].
    match goal with |- context [if ?c then _ else _] => destruct c eqn:En end.
    + cbn [OH.booktype OH.set_n_orders OH.set_orders OH.set_lob OH.lob OH.n_orders] in *.
      destruct (dict_del Z.eqb p (lob_of (dict_values (OH.orders h)))) as [|kv r] eqn:Ed.
      * right. apply Z.eqb_eq in Eq. apply Z.ltb_lt in En.
        destruct (OH.booktype h); cbn; auto.
      * left.
        assert (exists q, match OH.booktype h with
                          | Bid => max_opt (dict_keys (kv :: r))
                          | Ask => min_opt (dict_keys (kv :: r))
                          end = Some q) as [q Hq].
        { destruct (OH.booktype h); [apply max_opt_some | apply min_opt_some];
            discriminate. }
        rewrite Hq. cbn [of_option bind].
        eexists. f_equal. f_equal. apply build_lob_ext; reflexivity.
    + left. cbn [bind]. eexists. f_equal. f_equal. apply build_lob_ext; reflexivity.
  - left. unfold OH.del_owner. cbn [OH.orders OH.set_lob]. rewrite Hget.
    cbn [bind]. exists (OH.lob_depth h). f_equal. 
Qed.

Lemma set_best_same : forall h, OH.set_best h (OH.best_price h) (OH.best_tid h) = h.
Proof. intros []. reflexivity. Qed.

Lemma dict_values_In : forall (K V : Type) (d : list (K * V)) k v,
    In (k, v) d -> In v (dict_values d).
Proof.
  intros K V d k v H. unfold dict_values. change v with (snd (k, v)).
  apply in_map. assumption.
Qed.

Lemma keyed_In : forall os o,
    keyed os -> In o (dict_values os) -> In (tid o, o) os.
Proof.
  intros os o Hk Hin. apply (dict_get_In String.eqb Seqb_spec').
  apply keyed_get; assumption.
Qed.

Lemma dict_del_keeps_other : forall (os : list (string * Order Z)) k k' v,
    NoDup (dict_keys os) -> In (k', v) (dict_del String.eqb k os) -> k' <> k.
Proof.
  intros os k k' v Hnd Hin Heq. subst k'.
  pose proof (dict_del_NoDup String.eqb k os Hnd) as Hnd'.
  pose proof (dict_get_NoDup String.eqb Seqb_spec' _ _ _ Hnd' Hin) as Hg.
  rewrite (dict_del_absent String.eqb Seqb_spec') in Hg by assumption.
  discriminate.
Qed.

Lemma keyed_del : forall os k, keyed os -> keyed (dict_del String.eqb k os).
Proof.
  intros os k [Hf Hnd]. split.
  - rewrite Forall_forall in *. intros kv Hin. apply Hf.
    eapply dict_del_In. eassumption.
  - apply dict_del_NoDup. assumption.
Qed.

Lemma dict_set_In : forall (os : list (string * Order Z)) k v kv,
    In kv (dict_set String.eqb k v os) -> kv = (k, v) \/ In kv os.
Proof.
  intros os k v kv. induction os as [|[k2 v2] r IH]; simpl.
  - intros [H|[]]. left. congruence.
  - destruct (String.eqb k k2) eqn:E; simpl.
    + apply String.eqb_eq in E. subst k2. intros [H|H]; auto.
    + intros [H|H]; auto. destruct (IH H); auto.
Qed.

Lemma keyed_set : forall os o, keyed os -> keyed (dict_set String.eqb (tid o) o os).
Proof.
  intros os o [Hf Hnd]. split.
  - rewrite Forall_forall in *. intros kv Hin.
    destruct (dict_set_In _ _ _ _ Hin) as [->|H]; [reflexivity | auto].
  - destruct (dict_get String.eqb (tid o) os) eqn:G.
    + rewrite (dict_set_keys_present String.eqb _ _ _ _ G). assumption.
    + rewrite (dict_set_absent String.eqb _ _ _ G).
      unfold dict_keys in *. rewrite map_app. simpl.
      apply NoDup_app; [assumption | repeat constructor; intros [] | ].
      intros a Ha [<-|[]].
      apply (proj1 (dict_get_keys String.eqb Seqb_spec' _ _)) in Ha. congruence.
Qed.

Lemma dict_set_nonempty : forall (os : list (string * Order Z)) k v,
    dict_set String.eqb k v os <> [].
Proof.
  intros [|[k2 v2] r] k v; simpl; [discriminate|].
  destruct (String.eqb k k2); discriminate.
Qed.

Lemma after_delete_fields : forall h c d,
    OH.orders (after_delete h c d) = dict_del String.eqb c (OH.orders h) /\
    OH.booktype (after_delete h c d) = OH.booktype h /\
    OH.worstprice (after_delete h c d) = OH.worstprice h /\
    OH.n_orders (after_delete h c d) = OH.n_orders h - 1 /\
    OH.lob_depth (after_delete h c d) = d.
Proof.
  intros h c d. unfold after_delete. rewrite build_lob_eq. cbn. auto.
Qed.

Lemma after_delete_ok : forall h c d o,
    half_ok h -> dict_get String.eqb c (OH.orders h) = Some o ->
    half_ok (after_delete h c d).
Proof.
  intros h c d o [Hb [Hn Hk]] Hg.
  destruct (after_delete_fields h c d) as [Ho [_ [_ [Hn' _]]]].
  split; [apply build_lob_idem|]. split.
  - rewrite Hn', Ho, Hn. symmetry. eapply dict_del_len. eassumption.
  - rewrite Ho. apply keyed_del. assumption.
Qed.

Lemma sum_qty_pos : forall f,
    Forall (fun o => 0 < qty o) f -> f <> [] -> 0 < sum_qty f.
Proof.
  induction f as [|o f IH]; intros Hf Hne; [congruence|].
  inversion Hf as [|? ? Ho Hf']; subst. simpl.
  destruct f as [|o' f']; [simpl; lia|].
  assert (0 < sum_qty (o' :: f')) by (apply IH; [assumption | discriminate]). lia.
Qed.

Lemma filter_misses : forall (A : Type) (f : A -> bool) l,
    (List.length (filter f l) < List.length l)%nat ->
    exists x, In x l /\ f x = false.
Proof.
  intros A f l. induction l as [|a r IH]; simpl; [lia|].
  destruct (f a) eqn:E; simpl; intro H.
  - destruct IH as [x [Hx Hf]]; [lia|]. exists x. auto.
  - exists a. auto.
Qed.

Lemma pos_qty_values : forall h,
    pos_qty h -> Forall (fun o => 0 < qty o) (dict_values (OH.orders h)).
Proof.
  intros h H. unfold pos_qty in H. unfold dict_values.
  rewrite Forall_forall in *. intros o Ho. apply in_map_iff in Ho.
  destruct Ho as [kv [<- Hin]]. auto.
Qed.

Lemma Forall_filter : forall (A : Type) (P : A -> Prop) f l,
    Forall P l -> Forall P (filter f l).
Proof.
  intros A P f l H. rewrite Forall_forall in *. intros x Hx.
  apply filter_In in Hx. apply H. tauto.
Qed.

(** With positive quantities [delete_best] returns on any non-empty
    consistent side. *)
Lemma delete_best_total : forall h,
    half_ok h -> OH.orders h <> [] -> pos_qty h ->
    exists p o rest d,
      OH.best_price h = Some p /\ OH.best_tid h = Some (tid o) /\
      is_best (OH.booktype h) p (dict_values (OH.orders h)) /\
      at_price p (dict_values (OH.orders h)) = o :: rest /\
      dict_get String.eqb (tid o) (OH.orders h) = Some o /\
      OH.delete_best h = Ret (tid o, after_delete h (tid o) d).
Proof.
  intros h Hok Hne Hpos.
  destruct (delete_best_cases h Hok Hne)
    as [p [o [rest [Hbp [Hbt [Hbest [Hat [Hget [[d Hd] | [_ [Hq [Hn Hdel]]]]]]]]]]]].
  - exists p, o, rest, d. auto 10.
  - exfalso.
    pose proof (pos_qty_values h Hpos) as Hall.
    assert (Hf : Forall (fun o => 0 < qty o) (o :: rest)).
    { rewrite <- Hat. apply Forall_filter. assumption. }
    inversion Hf as [|? ? Ho Hrest]; subst.
    assert (rest = []) as ->.
    { destruct rest as [|o2 r2]; [reflexivity|].
      assert (0 < sum_qty (o2 :: r2)) by (apply sum_qty_pos; [assumption|discriminate]).
      lia. }
    pose proof (half_ok_fields h Hok) as [Hl _].
    destruct Hok as [_ [Hlen _]].
    destruct (filter_misses _ (fun o => price o =? p) (dict_values (OH.orders h)))
      as [o2 [Hin2 Hp2]].
    { fold (at_price p (dict_values (OH.orders h))). rewrite Hat.
      unfold dict_values. rewrite length_map. unfold len in Hlen. cbn [List.length]. lia. }
    apply Z.eqb_neq in Hp2.
    assert (Hk2 : dict_get Z.eqb (price o2) (OH.lob h) <> None).
    { apply (dict_get_keys Z.eqb Zeqb_spec'). rewrite Hl. apply lob_keys.
      apply in_map. assumption. }
    rewrite <- (dict_get_del_other Z.eqb Zeqb_spec' (price o2) p) in Hk2 by assumption.
    rewrite Hdel in Hk2. apply Hk2. reflexivity.
Qed.

(* ================================================================= *)
(** ** Admission and cancellation at the exchange *)

Lemma best_of_parts : forall bt l p c,
    l <> [] -> best_of bt l = (Some p, Some c) ->
    OH.anon_best bt (OH.anonymize_lob l) = Some p /\ OH.head_tid l p = Some c.
Proof.
  intros bt l p c Hne H. unfold best_of in H. rewrite (len_pos _ _ Hne) in H.
  cbv zeta in H. injection H as H1 H2. rewrite H1 in H2. auto.
Qed.

Lemma values_nonempty : forall (K V : Type) (d : list (K * V)),
    d <> [] -> dict_values d <> [].
Proof. intros K V [|a r] H; [congruence | discriminate]. Qed.

Lemma reread_best_ok : forall h,
    half_ok h -> OH.orders h <> [] -> Exchange.reread_best h = Ret h.
Proof.
  intros h Hok Hne.
  destruct (half_ok_fields h Hok) as [Hl [Ha [Hbp Hbt]]].
  pose proof (values_nonempty _ _ _ Hne) as Hne'.
  destruct (best_of_spec (OH.booktype h) _ Hne') as [p [o [rest [Hb _]]]].
  destruct (best_of_parts _ _ _ _ (lob_of_nonempty _ Hne') Hb) as [H1 H2].
  rewrite Hb in Hbp, Hbt. cbn [fst snd] in Hbp, Hbt.
  unfold Exchange.reread_best. rewrite Ha, H1. cbn [of_option bind].
  rewrite Hl, H2. cbn [of_option bind].
  rewrite <- Hbp, <- Hbt, set_best_same. reflexivity.
Qed.

Lemma book_add_snd : forall h o,
    snd (OH.book_add h o) =
    OH.build_lob
      (OH.set_n_orders
         (OH.set_orders h (dict_set String.eqb (tid o) o (OH.orders h)))
         (len (dict_set String.eqb (tid o) o (OH.orders h)))).
Proof.
  intros h o. unfold OH.book_add.
  match goal with |- context [if ?c then _ else _] => destruct c end; reflexivity.
Qed.

Lemma book_add_ok : forall h o,
    half_ok h ->
    half_ok (snd (OH.book_add h o)) /\
    OH.orders (snd (OH.book_add h o)) = dict_set String.eqb (tid o) o (OH.orders h) /\
    OH.booktype (snd (OH.book_add h o)) = OH.booktype h /\
    OH.worstprice (snd (OH.book_add h o)) = OH.worstprice h.
Proof.
  intros h o [Hb [Hn Hk]]. rewrite book_add_snd.
  split; [split; [apply build_lob_idem|]|]; rewrite build_lob_eq; cbn; auto.
  split; [reflexivity | apply keyed_set; assumption].
Qed.

Lemma book_del_ok : forall h o,
    half_ok h ->
    half_ok (OH.book_del h o) /\
    (forall x, In x (dict_values (OH.orders (OH.book_del h o))) ->
               In x (dict_values (OH.orders h))) /\
    OH.booktype (OH.book_del h o) = OH.booktype h.
Proof.
  intros h o Hok. unfold OH.book_del.
  destruct (dict_get String.eqb (tid o) (OH.orders h)) as [o0|] eqn:G.
  - destruct Hok as [Hb [Hn Hk]].
    split; [split; [apply build_lob_idem|]|]; rewrite build_lob_eq; cbn.
    + split; [reflexivity | apply keyed_del; assumption].
    + split; [|reflexivity]. intros x Hx. unfold dict_values in *.
      apply in_map_iff in Hx. destruct Hx as [kv [<- Hin]].
      apply in_map. eapply dict_del_In. eassumption.
  - auto.
Qed.

Lemma half_ok_empty_best : forall h,
    half_ok h -> OH.orders h = [] ->
    OH.best_price h = None /\ OH.best_tid h = None.
Proof.
  intros h Hok He. destruct (half_ok_fields h Hok) as [_ [_ [Hbp Hbt]]].
  rewrite He in Hbp, Hbt. cbn in Hbp, Hbt. auto.
Qed.

Lemma n_orders_pos : forall h,
    half_ok h -> (0 <? OH.n_orders h) = true <-> OH.orders h <> [].
Proof.
  intros h [_ [Hn _]]. rewrite Hn, Z.ltb_lt. unfold len.
  destruct (OH.orders h); cbn [List.length]; split; intro; try congruence; lia.
Qed.

Lemma del_side_ok : forall h o,
    half_ok h -> Exchange.del_side h o = Ret (OH.book_del h o).
Proof.
  intros h o Hok. unfold Exchange.del_side.
  destruct (book_del_ok h o Hok) as [Hok' _].
  destruct (0 <? OH.n_orders (OH.book_del h o)) eqn:E.
  - apply reread_best_ok; [assumption|]. apply n_orders_pos; assumption.
  - assert (He : OH.orders (OH.book_del h o) = []).
    { destruct (OH.orders (OH.book_del h o)) eqn:Eo; [reflexivity|].
      assert ((0 <? OH.n_orders (OH.book_del h o)) = true).
      { apply n_orders_pos; [assumption|]. rewrite Eo. discriminate. }
      congruence. }
    destruct (half_ok_empty_best _ Hok' He) as [H1 H2].
    rewrite <- H1 at 1. rewrite <- H2 at 1. rewrite set_best_same. reflexivity.
Qed.

Lemma add_order_bid : forall ex order,
    ex_ok ex -> otype order = Bid ->
    let o' := set_qid order (Exchange.quote_id ex) in
    Exchange.add_order ex order =
    Ret (Exchange.quote_id ex, fst (OH.book_add (Exchange.bids ex) o'), o',
         Exchange.mk (snd (OH.book_add (Exchange.bids ex) o')) (Exchange.asks ex)
                     (Exchange.tape ex) (Exchange.quote_id ex + 1)).
Proof.
  intros ex order [Hb _] Hot o'. unfold Exchange.add_order.
  cbn [otype set_qid qid]. rewrite Hot.
  cbn [Exchange.bids Exchange.set_quote_id].
  fold o'. destruct (book_add_ok (Exchange.bids ex) o' Hb) as [Hok [Ho _]].
  destruct (OH.book_add (Exchange.bids ex) o') as [r h] eqn:E. cbn [fst snd] in *.
  rewrite reread_best_ok; [reflexivity | assumption |].
  rewrite Ho. apply dict_set_nonempty.
Qed.

Lemma add_order_ask : forall ex order,
    ex_ok ex -> otype order = Ask ->
    let o' := set_qid order (Exchange.quote_id ex) in
    Exchange.add_order ex order =
    Ret (Exchange.quote_id ex, fst (OH.book_add (Exchange.asks ex) o'), o',
         Exchange.mk (Exchange.bids ex) (snd (OH.book_add (Exchange.asks ex) o'))
                     (Exchange.tape ex) (Exchange.quote_id ex + 1)).
Proof.
  intros ex order [_ [Ha _]] Hot o'. unfold Exchange.add_order.
  cbn [otype set_qid qid]. rewrite Hot.
  cbn [Exchange.asks Exchange.set_quote_id].
  fold o'. destruct (book_add_ok (Exchange.asks ex) o' Ha) as [Hok [Ho _]].
  destruct (OH.book_add (Exchange.asks ex) o') as [r h] eqn:E. cbn [fst snd] in *.
  rewrite reread_best_ok; [reflexivity | assumption |].
  rewrite Ho. apply dict_set_nonempty.
Qed.

Lemma process_bid_eq : forall ex time order,
    ex_ok ex -> otype order = Bid ->
    let o' := set_qid order (Exchange.quote_id ex) in
    let b1 := snd (OH.book_add (Exchange.bids ex) o') in
    let ex1 := Exchange.mk b1 (Exchange.asks ex) (Exchange.tape ex)
                           (Exchange.quote_id ex + 1) in
    Exchange.process_order2 ex time order =
    bind (if 0 <? OH.n_orders (Exchange.asks ex) then
            match OH.best_price b1, OH.best_price (Exchange.asks ex) with
            | Some bb, Some ba =>
                if bb >=? ba then
                  '(_, a) <- OH.delete_best (Exchange.asks ex) ;;
                  '(_, b) <- OH.delete_best b1 ;;
                  Ret (OH.best_tid (Exchange.asks ex), ba,
                       Exchange.mk b a (Exchange.tape ex) (Exchange.quote_id ex + 1))
                else Ret (None, 0, ex1)
            | _, _ => Raise TypeError
            end
          else Ret (None, 0, ex1))
         (finish time order).
Proof.
  intros ex time order Hok Hot o' b1 ex1.
  unfold Exchange.process_order2. rewrite (add_order_bid ex order Hok Hot).
  fold o' b1 ex1. cbn [bind].
  change (otype (set_qid o' (Exchange.quote_id ex))) with (otype order).
  change (tid (set_qid o' (Exchange.quote_id ex))) with (tid order).
  change (qty (set_qid o' (Exchange.quote_id ex))) with (qty order).
  rewrite Hot. subst ex1.
  cbn [Exchange.bids Exchange.asks Exchange.tape Exchange.quote_id
       Exchange.set_asks Exchange.set_bids].
  destruct (0 <? OH.n_orders (Exchange.asks ex)); [|reflexivity].
  destruct (OH.best_price b1) as [bb|]; [|reflexivity].
  destruct (OH.best_price (Exchange.asks ex)) as [ba|]; [|reflexivity].
  destruct (bb >=? ba); [|reflexivity].
  destruct (OH.delete_best (Exchange.asks ex)) as [[ca a]|e]; [|reflexivity].
  cbn [bind].
  cbn [Exchange.bids Exchange.asks Exchange.tape Exchange.quote_id
       Exchange.set_asks Exchange.set_bids].
  destruct (OH.delete_best b1) as [[cb b]|e]; reflexivity.
Qed.

Lemma process_ask_eq : forall ex time order,
    ex_ok ex -> otype order = Ask ->
    let o' := set_qid order (Exchange.quote_id ex) in
    let a1 := snd (OH.book_add (Exchange.asks ex) o') in
    let ex1 := Exchange.mk (Exchange.bids ex) a1 (Exchange.tape ex)
                           (Exchange.quote_id ex + 1) in
    Exchange.process_order2 ex time order =
    bind (if 0 <? OH.n_orders (Exchange.bids ex) then
            match OH.best_price a1, OH.best_price (Exchange.bids ex) with
            | Some ba, Some bb =>
                if ba <=? bb then
                  '(_, b) <- OH.delete_best (Exchange.bids ex) ;;
                  '(_, a) <- OH.delete_best a1 ;;
                  Ret (OH.best_tid (Exchange.bids ex), bb,
                       Exchange.mk b a (Exchange.tape ex) (Exchange.quote_id ex + 1))
                else Ret (None, 0, ex1)
            | _, _ => Raise TypeError
            end
          else Ret (None, 0, ex1))
         (finish time order).
Proof.
  intros ex time order Hok Hot o' a1 ex1.
  unfold Exchange.process_order2. rewrite (add_order_ask ex order Hok Hot).
  fold o' a1 ex1. cbn [bind].
  change (otype (set_qid o' (Exchange.quote_id ex))) with (otype order).
  change (tid (set_qid o' (Exchange.quote_id ex))) with (tid order).
  change (qty (set_qid o' (Exchange.quote_id ex))) with (qty order).
  rewrite Hot. subst ex1.
  cbn [Exchange.bids Exchange.asks Exchange.tape Exchange.quote_id
       Exchange.set_asks Exchange.set_bids].
  destruct (0 <? OH.n_orders (Exchange.bids ex)); [|reflexivity].
  destruct (OH.best_price a1) as [ba|]; [|reflexivity].
  destruct (OH.best_price (Exchange.bids ex)) as [bb|]; [|reflexivity].
  destruct (ba <=? bb); [|reflexivity].
  destruct (OH.delete_best (Exchange.bids ex)) as [[cb b]|e]; [|reflexivity].
  cbn [bind].
  cbn [Exchange.bids Exchange.asks Exchange.tape Exchange.quote_id
       Exchange.set_asks Exchange.set_bids].
  destruct (OH.delete_best a1) as [[ca a]|e]; reflexivity.
Qed.

(* ================================================================= *)
(** ** The invariant of the exchange *)

Lemma del_values_sub : forall (os : list (string * Order Z)) k x,
    In x (dict_values (dict_del String.eqb k os)) -> In x (dict_values os).
Proof.
  intros os k x Hx. unfold dict_values in *. apply in_map_iff in Hx.
  destruct Hx as [kv [<- Hin]]. apply in_map. eapply dict_del_In. eassumption.
Qed.

Lemma set_values : forall (os : list (string * Order Z)) k v x,
    In x (dict_values (dict_set String.eqb k v os)) -> x = v \/ In x (dict_values os).
Proof.
  intros os k v x Hx. unfold dict_values in *. apply in_map_iff in Hx.
  destruct Hx as [kv [<- Hin]]. destruct (dict_set_In _ _ _ _ Hin) as [->|H].
  - left. reflexivity.
  - right. apply in_map. assumption.
Qed.

(** Who is left on a side after the admission of [o'] and the removal
    of the owner of [ob]: a previous order, or [o'] itself, in which
    case [ob] was a previous order. *)
Lemma survivor_cases : forall old o' ob x,
    keyed old ->
    In ob (dict_values (dict_set String.eqb (tid o') o' old)) ->
    In x (dict_values (dict_del String.eqb (tid ob)
                                (dict_set String.eqb (tid o') o' old))) ->
    In x (dict_values old) \/ (x = o' /\ In ob (dict_values old)).
Proof.
  intros old o' ob x Hk Hob Hx.
  pose proof (keyed_set old o' Hk) as Hk'.
  unfold dict_values in Hx. apply in_map_iff in Hx. destruct Hx as [[k x'] [Hx' Hin]].
  cbn in Hx'. subst x'.
  pose proof (dict_del_keeps_other _ _ _ _ (proj2 Hk') Hin) as Hne.
  apply dict_del_In in Hin.
  destruct (dict_set_In _ _ _ _ Hin) as [Heq|Hold].
  - injection Heq as -> ->. right. split; [reflexivity|].
    destruct (set_values _ _ _ _ Hob) as [->|H]; [congruence | assumption].
  - left. eapply dict_values_In. eassumption.
Qed.

Lemma is_best_witness : forall bt p os,
    is_best bt p os -> exists o, In o os /\ price o = p.
Proof.
  intros bt p os [Hin _]. apply in_map_iff in Hin. destruct Hin as [o [Hp Ho]]. eauto.
Qed.

Lemma inv_process_bid : forall ex time order tr ex',
    ex_ok ex -> uncrossed ex -> otype order = Bid ->
    Exchange.process_order2 ex time order = Ret (tr, ex') ->
    ex_ok ex' /\ uncrossed ex'.
Proof.
  intros ex time order tr ex' Hok Hun Hot H.
  rewrite process_bid_eq in H by assumption. cbv zeta in H.
  set (o' := set_qid order (Exchange.quote_id ex)) in *.
  set (b1 := snd (OH.book_add (Exchange.bids ex) o')) in *.
  destruct Hok as [Hb [Ha [Hbt Hat]]].
  destruct (book_add_ok (Exchange.bids ex) o' Hb) as [Hb1 [Ho1 [Hbt1 _]]].
  fold b1 in Hb1, Ho1, Hbt1.
  assert (Hne1 : OH.orders b1 <> []) by (rewrite Ho1; apply dict_set_nonempty).
  destruct (0 <? OH.n_orders (Exchange.asks ex)) eqn:En.
  - apply n_orders_pos in En; [|assumption].
    destruct (delete_best_cases _ Ha En)
      as [pa [oa [resta [Hbpa [Hbta [Hbesta [Hata [Hgeta Hda]]]]]]]].
    destruct (delete_best_cases _ Hb1 Hne1)
      as [pb [ob [restb [Hbpb [Hbtb [Hbestb [Hatb [Hgetb Hdb]]]]]]]].
    rewrite Hbpb, Hbpa in H.
    destruct (pb >=? pa) eqn:Ecmp.
    + destruct Hda as [[da Hda] | [Hda _]]; rewrite Hda in H; [|discriminate].
      cbn [bind] in H.
      destruct Hdb as [[db Hdb] | [Hdb _]]; rewrite Hdb in H; [|discriminate].
      cbn [bind finish] in H. rewrite Hbta in H. injection H as _ <-.
      destruct (after_delete_fields (Exchange.asks ex) (tid oa) da) as [Hoa [Hta _]].
      destruct (after_delete_fields b1 (tid ob) db) as [Hob [Htb _]].
      split.
      * unfold ex_ok. cbn [Exchange.bids Exchange.asks Exchange.set_tape].
        split; [apply (after_delete_ok _ _ _ _ Hb1 Hgetb)|].
        split; [apply (after_delete_ok _ _ _ _ Ha Hgeta)|].
        split; congruence.
      * intros b a Hb' Ha'.
        cbn [Exchange.bids Exchange.asks Exchange.set_tape] in Hb', Ha'.
        rewrite Hob, Ho1 in Hb'. rewrite Hoa in Ha'.
        apply del_values_sub in Ha'.
        destruct (at_price_head _ _ _ _ Hatb) as [Hinb Hpb].
        rewrite Ho1 in Hinb.
        destruct (survivor_cases _ _ _ _ (proj2 (proj2 Hb)) Hinb Hb') as [Hold | [-> Hold]].
        -- apply Hun; assumption.
        -- exfalso. destruct (at_price_head _ _ _ _ Hata) as [Hina Hpa].
           specialize (Hun ob oa Hold Hina). apply Z.geb_le in Ecmp. lia.
    + cbn [bind finish] in H. injection H as _ <-.
      split.
      * unfold ex_ok. cbn [Exchange.bids Exchange.asks].
        split; [assumption | split; [assumption | split; congruence]].
      * intros b a Hb' Ha'. cbn [Exchange.bids Exchange.asks] in Hb', Ha'.
        destruct Hbestb as [_ Hmaxb]. destruct Hbesta as [_ Hmina].
        rewrite Hbt1, Hbt in Hmaxb. rewrite Hat in Hmina.
        specialize (Hmaxb b Hb'). specialize (Hmina a Ha').
        rewrite Z.geb_leb in Ecmp. apply Z.leb_gt in Ecmp. lia.
  - cbn [bind finish] in H. injection H as _ <-.
    assert (Hea : OH.orders (Exchange.asks ex) = []).
    { destruct (OH.orders (Exchange.asks ex)) eqn:Eo; [reflexivity|].
      assert ((0 <? OH.n_orders (Exchange.asks ex)) = true).
      { apply n_orders_pos; [assumption|]. rewrite Eo. discriminate. }
      congruence. }
    split.
    + unfold ex_ok. cbn [Exchange.bids Exchange.asks].
        split; [assumption | split; [assumption | split; congruence]].
    + intros b a Hb' Ha'. cbn [Exchange.bids Exchange.asks] in Ha'.
      rewrite Hea in Ha'. contradiction.
Qed.

Lemma inv_process_ask : forall ex time order tr ex',
    ex_ok ex -> uncrossed ex -> otype order = Ask ->
    Exchange.process_order2 ex time order = Ret (tr, ex') ->
    ex_ok ex' /\ uncrossed ex'.
Proof.
  intros ex time order tr ex' Hok Hun Hot H.
  rewrite process_ask_eq in H by assumption. cbv zeta in H.
  set (o' := set_qid order (Exchange.quote_id ex)) in *.
  set (a1 := snd (OH.book_add (Exchange.asks ex) o')) in *.
  destruct Hok as [Hb [Ha [Hbt Hat]]].
  destruct (book_add_ok (Exchange.asks ex) o' Ha) as [Ha1 [Ho1 [Hat1 _]]].
  fold a1 in Ha1, Ho1, Hat1.
  assert (Hne1 : OH.orders a1 <> []) by (rewrite Ho1; apply dict_set_nonempty).
  destruct (0 <? OH.n_orders (Exchange.bids ex)) eqn:En.
  - apply n_orders_pos in En; [|assumption].
    destruct (delete_best_cases _ Hb En)
      as [pb [ob [restb [Hbpb [Hbtb [Hbestb [Hatb [Hgetb Hdb]]]]]]]].
    destruct (delete_best_cases _ Ha1 Hne1)
      as [pa [oa [resta [Hbpa [Hbta [Hbesta [Hata [Hgeta Hda]]]]]]]].
    rewrite Hbpb, Hbpa in H.
    destruct (pa <=? pb) eqn:Ecmp.
    + destruct Hdb as [[db Hdb] | [Hdb _]]; rewrite Hdb in H; [|discriminate].
      cbn [bind] in H.
      destruct Hda as [[da Hda] | [Hda _]]; rewrite Hda in H; [|discriminate].
      cbn [bind finish] in H. rewrite Hbtb in H. injection H as _ <-.
      destruct (after_delete_fields (Exchange.bids ex) (tid ob) db) as [Hob [Htb _]].
      destruct (after_delete_fields a1 (tid oa) da) as [Hoa [Hta _]].
      split.
      * unfold ex_ok. cbn [Exchange.bids Exchange.asks Exchange.set_tape].
        split; [apply (after_delete_ok _ _ _ _ Hb Hgetb)|].
        split; [apply (after_delete_ok _ _ _ _ Ha1 Hgeta)|].
        split; congruence.
      * intros b a Hb' Ha'.
        cbn [Exchange.bids Exchange.asks Exchange.set_tape] in Hb', Ha'.
        rewrite Hoa, Ho1 in Ha'. rewrite Hob in Hb'.
        apply del_values_sub in Hb'.
        destruct (at_price_head _ _ _ _ Hata) as [Hina Hpa].
        rewrite Ho1 in Hina.
        destruct (survivor_cases _ _ _ _ (proj2 (proj2 Ha)) Hina Ha') as [Hold | [-> Hold]].
        -- apply Hun; assumption.
        -- exfalso. destruct (at_price_head _ _ _ _ Hatb) as [Hinb Hpb].
           specialize (Hun ob oa Hinb Hold). apply Z.leb_le in Ecmp. lia.
    + cbn [bind finish] in H. injection H as _ <-.
      split.
      * unfold ex_ok. cbn [Exchange.bids Exchange.asks].
        split; [assumption | split; [assumption | split; congruence]].
      * intros b a Hb' Ha'. cbn [Exchange.bids Exchange.asks] in Hb', Ha'.
        destruct Hbestb as [_ Hmaxb]. destruct Hbesta as [_ Hmina].
        rewrite Hbt in Hmaxb. rewrite Hat1, Hat in Hmina.
        specialize (Hmaxb b Hb'). specialize (Hmina a Ha').
        apply Z.leb_gt in Ecmp. lia.
  - cbn [bind finish] in H. injection H as _ <-.
    assert (Heb : OH.orders (Exchange.bids ex) = []).
    { destruct (OH.orders (Exchange.bids ex)) eqn:Eo; [reflexivity|].
      assert ((0 <? OH.n_orders (Exchange.bids ex)) = true).
      { apply n_orders_pos; [assumption|]. rewrite Eo. discriminate. }
      congruence. }
    split.
    + unfold ex_ok. cbn [Exchange.bids Exchange.asks].
      split; [assumption | split; [assumption | split; congruence]].
    + intros b a Hb' Ha'. cbn [Exchange.bids Exchange.asks] in Hb'.
      rewrite Heb in Hb'. contradiction.
Qed.

Lemma inv_process : forall ex time order tr ex',
    ex_ok ex -> uncrossed ex ->
    Exchange.process_order2 ex time order = Ret (tr, ex') ->
    ex_ok ex' /\ uncrossed ex'.
Proof.
  intros ex time order tr ex' Hok Hun H.
  destruct (otype order) eqn:Hot.
  - eapply inv_process_bid; eassumption.
  - eapply inv_process_ask; eassumption.
Qed.

Lemma inv_cancel : forall ex time order ex',
    ex_ok ex -> uncrossed ex ->
    Exchange.del_order ex time order = Ret ex' ->
    ex_ok ex' /\ uncrossed ex'.
Proof.
  intros ex time order ex' [Hb [Ha [Hbt Hat]]] Hun H.
  unfold Exchange.del_order in H.
  destruct (otype order).
  - rewrite (del_side_ok _ _ Hb) in H. cbn [bind] in H. injection H as <-.
    destruct (book_del_ok _ order Hb) as [Hb' [Hsub Hbt']].
    split.
    + unfold ex_ok. cbn [Exchange.bids Exchange.asks Exchange.set_tape Exchange.set_bids].
      split; [assumption | split; [assumption | split; congruence]].
    + intros b a Hinb Hina.
      cbn [Exchange.bids Exchange.asks Exchange.set_tape Exchange.set_bids] in Hinb, Hina.
      apply Hun; auto.
  - rewrite (del_side_ok _ _ Ha) in H. cbn [bind] in H. injection H as <-.
    destruct (book_del_ok _ order Ha) as [Ha' [Hsub Hat']].
    split.
    + unfold ex_ok. cbn [Exchange.bids Exchange.asks Exchange.set_tape Exchange.set_asks].
      split; [assumption | split; [assumption | split; congruence]].
    + intros b a Hinb Hina.
      cbn [Exchange.bids Exchange.asks Exchange.set_tape Exchange.set_asks] in Hinb, Hina.
      apply Hun; auto.
Qed.

Lemma init_ok : ex_ok Exchange.init /\ uncrossed Exchange.init.
Proof.
  split.
  - unfold ex_ok, half_ok, keyed. cbn. repeat split; constructor.
  - intros b a [].
Qed.

Lemma reachable_inv : forall ex, reachable ex -> ex_ok ex /\ uncrossed ex.
Proof.
  intros ex H. induction H as [| ex time order tr ex' _ [Hok Hun] Hp
                                | ex time order ex' _ [Hok Hun] Hc].
  - apply init_ok.
  - eapply inv_process; eassumption.
  - eapply inv_cancel; eassumption.
Qed.

(* ================================================================= *)
(** ** Crossing orders (C1) *)

Lemma pos_qty_add : forall h o,
    pos_qty h -> 0 < qty o -> pos_qty (snd (OH.book_add h o)).
Proof.
  intros h o Hp Ho. unfold pos_qty in *. rewrite book_add_snd, build_lob_eq. cbn.
  rewrite Forall_forall in *. intros kv Hin.
  destruct (dict_set_In _ _ _ _ Hin) as [->|H]; [exact Ho | auto].
Qed.

Lemma nonempty_of_n : forall h,
    half_ok h -> 0 < OH.n_orders h -> OH.orders h <> [].
Proof. intros h Hok Hn. apply n_orders_pos; [assumption | apply Z.ltb_lt; assumption]. Qed.

Lemma cross_trade : forall ex time order qid r o' ex1 own opp,
    ex_ok ex -> pos_qty (Exchange.bids ex) -> pos_qty (Exchange.asks ex) ->
    0 < qty order ->
    Exchange.add_order ex order = Ret (qid, r, o', ex1) ->
    0 < OH.n_orders (opp_side ex1 (otype order)) ->
    OH.best_price (own_side ex1 (otype order)) = Some own ->
    OH.best_price (opp_side ex1 (otype order)) = Some opp ->
    crosses (otype order) own opp ->
    exists cp ex2,
      OH.best_tid (opp_side ex1 (otype order)) = Some cp /\
      Exchange.process_order2 ex time order =
      Ret (Some (Exchange.mkTrade time opp cp (tid order) (qty order)), ex2) /\
      Exchange.tape ex2 =
      Exchange.tape ex ++
        [Exchange.TradeRec (Exchange.mkTrade time opp cp (tid order) (qty order))] /\
      OH.orders (opp_side ex2 (otype order)) =
      dict_del String.eqb cp (OH.orders (opp_side ex (otype order))).
Proof.
  intros ex time order qid r o' ex1 own opp Hok Hpb Hpa Hq Hadd Hn Hown Hopp Hx.
  pose proof Hok as [Hb [Ha [Hbt Hat]]].
  destruct (otype order) eqn:Hot; cbn [own_side opp_side crosses] in *.
  - rewrite (add_order_bid ex order Hok Hot) in Hadd. cbv zeta in Hadd.
    injection Hadd as _ _ Ho' <-. cbn [Exchange.bids Exchange.asks] in *.
    rewrite Ho' in *.
    destruct (book_add_ok (Exchange.bids ex) o' Hb) as [Hb1 [Ho1 _]].
    assert (Hne1 : OH.orders (snd (OH.book_add (Exchange.bids ex) o')) <> [])
      by (rewrite Ho1; apply dict_set_nonempty).
    assert (Hp1 : pos_qty (snd (OH.book_add (Exchange.bids ex) o')))
      by (apply pos_qty_add; [assumption | subst o'; exact Hq]).
    destruct (delete_best_total _ Ha (nonempty_of_n _ Ha Hn) Hpa)
      as [pa [oa [resta [da [Hbpa [Hbta [_ [_ [_ Hda]]]]]]]]].
    destruct (delete_best_total _ Hb1 Hne1 Hp1)
      as [pb [ob [restb [db [Hbpb [_ [_ [_ [_ Hdb]]]]]]]]].
    exists (tid oa). eexists. split; [exact Hbta|].
    rewrite process_bid_eq by assumption. cbv zeta. rewrite Ho'.
    rewrite (proj2 (Z.ltb_lt _ _) Hn), Hown, Hopp.
    rewrite (proj2 (Z.geb_le _ _)) by lia.
    rewrite Hda. cbn [bind]. rewrite Hdb. cbn [bind finish]. rewrite Hbta.
    split; [reflexivity|]. split; [reflexivity|].
    cbn [Exchange.asks Exchange.set_tape].
    apply (proj1 (after_delete_fields _ _ _)).
  - rewrite (add_order_ask ex order Hok Hot) in Hadd. cbv zeta in Hadd.
    injection Hadd as _ _ Ho' <-. cbn [Exchange.bids Exchange.asks] in *.
    rewrite Ho' in *.
    destruct (book_add_ok (Exchange.asks ex) o' Ha) as [Ha1 [Ho1 _]].
    assert (Hne1 : OH.orders (snd (OH.book_add (Exchange.asks ex) o')) <> [])
      by (rewrite Ho1; apply dict_set_nonempty).
    assert (Hp1 : pos_qty (snd (OH.book_add (Exchange.asks ex) o')))
      by (apply pos_qty_add; [assumption | subst o'; exact Hq]).
    destruct (delete_best_total _ Hb (nonempty_of_n _ Hb Hn) Hpb)
      as [pb [ob [restb [db [Hbpb [Hbtb [_ [_ [_ Hdb]]]]]]]]].
    destruct (delete_best_total _ Ha1 Hne1 Hp1)
      as [pa [oa [resta [da [Hbpa [_ [_ [_ [_ Hda]]]]]]]]].
    exists (tid ob). eexists. split; [exact Hbtb|].
    rewrite process_ask_eq by assumption. cbv zeta. rewrite Ho'.
    rewrite (proj2 (Z.ltb_lt _ _) Hn), Hown, Hopp.
    rewrite (proj2 (Z.leb_le _ _)) by lia.
    rewrite Hdb. cbn [bind]. rewrite Hda. cbn [bind finish]. rewrite Hbtb.
    split; [reflexivity|]. split; [reflexivity|].
    cbn [Exchange.bids Exchange.set_tape].
    apply (proj1 (after_delete_fields _ _ _)).
Qed.

Lemma scenario_trade : forall t0 t1 q0 q1 now0 now1,
    exists ex0 ex1,
      Exchange.process_order2 Exchange.init now0 (S01_ask t0 q0) = Ret (None, ex0) /\
      OH.orders (Exchange.bids ex0) = [] /\
      OH.orders (Exchange.asks ex0) = [("S01"%string, S01_ask t0 0)] /\
      Exchange.process_order2 ex0 now1 (B01_bid t1 q1) =
      Ret (Some (Exchange.mkTrade now1 50 "S01" "B01" 1), ex1) /\
      OH.orders (Exchange.bids ex1) = [] /\ OH.n_orders (Exchange.bids ex1) = 0 /\
      OH.orders (Exchange.asks ex1) = [] /\ OH.n_orders (Exchange.asks ex1) = 0 /\
      Exchange.tape ex1 = [Exchange.TradeRec (Exchange.mkTrade now1 50 "S01" "B01" 1)] /\
      len (Exchange.tape ex1) = 1.
Proof.
  intros. eexists. eexists.
  split; [cbv; reflexivity|]. split; [reflexivity|]. split; [reflexivity|].
  split; [cbv; reflexivity|]. repeat split.
Qed.

Lemma ex_S01_ok : ex_ok ex_S01.
Proof.
  unfold ex_ok, half_ok, keyed. cbn.
  repeat split; repeat constructor; intros [].
Qed.

(** C1: a crossing order trades at the resting price.  On a consistent
    book with positive quantities, if after the admission of the order
    the opposite side is non-empty and the best price of the incoming
    side crosses the opposite best, [process_order2] returns a trade
    record whose price is the opposite side's best price and whose
    first party is the opposite side's best owner, the second party
    being the owner of the order, and appends that record to the tape
    (the counterparty also leaves the opposite side).  In the scenario
    of the specification (empty bids, one ask of S01 at 50, B01 bids
    60) the trade is at 50 between S01 and B01, both sides end empty
    and the tape holds exactly that record. *)
Theorem C1_crossing_order_trades_at_resting_price :
  (forall ex time order qid r o' ex1 own opp,
      ex_ok ex -> pos_qty (Exchange.bids ex) -> pos_qty (Exchange.asks ex) ->
      0 < qty order ->
      Exchange.add_order ex order = Ret (qid, r, o', ex1) ->
      0 < OH.n_orders (opp_side ex1 (otype order)) ->
      OH.best_price (own_side ex1 (otype order)) = Some own ->
      OH.best_price (opp_side ex1 (otype order)) = Some opp ->
      crosses (otype order) own opp ->
      exists cp ex2,
        OH.best_tid (opp_side ex1 (otype order)) = Some cp /\
        Exchange.process_order2 ex time order =
        Ret (Some (Exchange.mkTrade time opp cp (tid order) (qty order)), ex2) /\
        Exchange.tape ex2 =
        Exchange.tape ex ++
          [Exchange.TradeRec (Exchange.mkTrade time opp cp (tid order) (qty order))] /\
        OH.orders (opp_side ex2 (otype order)) =
        dict_del String.eqb cp (OH.orders (opp_side ex (otype order))))
  /\
  (forall t0 t1 q0 q1 now0 now1,
      exists ex0 ex1,
        Exchange.process_order2 Exchange.init now0 (S01_ask t0 q0) = Ret (None, ex0) /\
        OH.orders (Exchange.bids ex0) = [] /\
        OH.orders (Exchange.asks ex0) = [("S01"%string, S01_ask t0 0)] /\
        Exchange.process_order2 ex0 now1 (B01_bid t1 q1) =
        Ret (Some (Exchange.mkTrade now1 50 "S01" "B01" 1), ex1) /\
        OH.orders (Exchange.bids ex1) = [] /\ OH.n_orders (Exchange.bids ex1) = 0 /\
        OH.orders (Exchange.asks ex1) = [] /\ OH.n_orders (Exchange.asks ex1) = 0 /\
        Exchange.tape ex1 = [Exchange.TradeRec (Exchange.mkTrade now1 50 "S01" "B01" 1)] /\
        len (Exchange.tape ex1) = 1).
Proof.
  split.
  - intros. eapply cross_trade; eassumption.
  - apply scenario_trade.
Qed.

Lemma C1_witness :
  exists cp ex2,
    OH.best_tid (Exchange.asks ex_S01_B01) = Some cp /\
    Exchange.process_order2 ex_S01 2 (B01_bid 2 0) =
    Ret (Some (Exchange.mkTrade 2 50 cp "B01" 1), ex2) /\
    Exchange.tape ex2 =
    Exchange.tape ex_S01 ++ [Exchange.TradeRec (Exchange.mkTrade 2 50 cp "B01" 1)] /\
    OH.orders (Exchange.asks ex2) =
    dict_del String.eqb cp (OH.orders (Exchange.asks ex_S01)).
Proof.
  refine (proj1 C1_crossing_order_trades_at_resting_price
                ex_S01 2%Q (B01_bid 2 0) 1 OH.Addition (B01_bid 2 1) ex_S01_B01
                60 50 ex_S01_ok _ _ _ _ _ _ _ _).
  - constructor.
  - repeat constructor.
  - reflexivity.
  - vm_compute. reflexivity.
  - reflexivity.
  - reflexivity.
  - reflexivity.
  - cbn. lia.
Defined.

(* ================================================================= *)
(** ** The book is uncrossed between calls (C2) *)

Lemma best_price_some : forall h,
    half_ok h -> OH.orders h <> [] ->
    exists p, OH.best_price h = Some p /\
              is_best (OH.booktype h) p (dict_values (OH.orders h)).
Proof.
  intros h Hok Hne.
  destruct (delete_best_cases h Hok Hne) as [p [o [rest [Hbp [_ [Hb _]]]]]].
  eauto.
Qed.

Lemma best_prices_uncrossed : forall ex,
    ex_ok ex -> uncrossed ex ->
    0 < OH.n_orders (Exchange.bids ex) -> 0 < OH.n_orders (Exchange.asks ex) ->
    exists bb ba,
      OH.best_price (Exchange.bids ex) = Some bb /\
      OH.best_price (Exchange.asks ex) = Some ba /\ bb < ba.
Proof.
  intros ex [Hb [Ha _]] Hun Hnb Hna.
  destruct (best_price_some _ Hb (nonempty_of_n _ Hb Hnb)) as [bb [Hbb Hisb]].
  destruct (best_price_some _ Ha (nonempty_of_n _ Ha Hna)) as [ba [Hba Hisa]].
  destruct (is_best_witness _ _ _ Hisb) as [ob [Hob <-]].
  destruct (is_best_witness _ _ _ Hisa) as [oa [Hoa <-]].
  exists (price ob), (price oa). auto.
Qed.

Lemma reachable_ex_S01 : reachable ex_S01.
Proof.
  apply (reach_process Exchange.init 1 (S01_ask 1 0) None).
  - apply reach_init.
  - reflexivity.
Qed.

(** C2 (uncrossed-book invariant): in every state reached by
    [process_order2] and [del_order] calls, once a [process_order2]
    call has returned, two non-empty sides have best bid <= best ask
    (indeed best bid < best ask); inside the call, after the admission
    by [add_order], the book can be crossed, and the call then trades. *)
Theorem C2_uncrossed_after_process_order :
  (forall ex time order tr ex',
      reachable ex ->
      Exchange.process_order2 ex time order = Ret (tr, ex') ->
      0 < OH.n_orders (Exchange.bids ex') ->
      0 < OH.n_orders (Exchange.asks ex') ->
      exists bb ba,
        OH.best_price (Exchange.bids ex') = Some bb /\
        OH.best_price (Exchange.asks ex') = Some ba /\ bb <= ba /\ bb < ba)
  /\
  (exists ex time order qid r o' ex1 bb ba tr ex',
      reachable ex /\
      Exchange.add_order ex order = Ret (qid, r, o', ex1) /\
      OH.best_price (Exchange.bids ex1) = Some bb /\
      OH.best_price (Exchange.asks ex1) = Some ba /\ bb > ba /\
      Exchange.process_order2 ex time order = Ret (Some tr, ex')).
Proof.
  split.
  - intros ex time order tr ex' Hr Hp Hnb Hna.
    destruct (reachable_inv ex' (reach_process _ _ _ _ _ Hr Hp)) as [Hok Hun].
    destruct (best_prices_uncrossed ex' Hok Hun Hnb Hna) as [bb [ba [H1 [H2 H3]]]].
    exists bb, ba. repeat split; try assumption. lia.
  - exists ex_S01, 2%Q, (B01_bid 2 0).
    do 8 eexists. split; [apply reachable_ex_S01|].
    split; [cbv; reflexivity|]. split; [reflexivity|]. split; [reflexivity|].
    split; [reflexivity|]. cbv; reflexivity.
Qed.

Lemma C2_witness :
  exists bb ba,
    OH.best_price (Exchange.bids ex_S01_B02) = Some bb /\
    OH.best_price (Exchange.asks ex_S01_B02) = Some ba /\
    bb <= ba /\ bb < ba.
Proof.
  apply (proj1 C2_uncrossed_after_process_order ex_S01 2%Q B02_bid40 None).
  - apply reachable_ex_S01.
  - vm_compute. reflexivity.
  - reflexivity.
  - reflexivity.
Defined.

(* ================================================================= *)
(** ** Which order [delete_best] removes (C3) *)

Lemma StronglySorted_filter : forall (A : Type) (R : A -> A -> Prop) f l,
    StronglySorted R l -> StronglySorted R (filter f l).
Proof.
  intros A R f l H. induction H as [|a l Hs IH Hf]; simpl; [constructor|].
  destruct (f a); [|assumption]. constructor; [assumption|].
  apply Forall_filter. assumption.
Qed.

(** C3, as amended (FIFO tie-break): on a consistent non-empty side
    with positive quantities, [delete_best] removes, among the orders
    resting at the best price, the one whose owner comes first in the
    owner map, drops exactly that owner from the owner map and returns
    its id; that order is the earliest-timestamped one at the best
    price whenever the owner map lists its orders in timestamp order. *)
Theorem C3_delete_best_removes_first_owner_at_best : forall h,
    half_ok h -> pos_qty h -> OH.orders h <> [] ->
    exists p o rest h',
      OH.best_price h = Some p /\
      at_price p (dict_values (OH.orders h)) = o :: rest /\
      OH.delete_best h = Ret (tid o, h') /\
      OH.orders h' = dict_del String.eqb (tid o) (OH.orders h) /\
      dict_get String.eqb (tid o) (OH.orders h) = Some o /\
      dict_get String.eqb (tid o) (OH.orders h') = None /\
      (forall k, k <> tid o ->
                 dict_get String.eqb k (OH.orders h') =
                 dict_get String.eqb k (OH.orders h)) /\
      (StronglySorted (fun a b => (time a <= time b)%Q) (dict_values (OH.orders h)) ->
       forall o2, In o2 rest -> (time o <= time o2)%Q).
Proof.
  intros h Hok Hpos Hne.
  destruct (delete_best_total h Hok Hne Hpos)
    as [p [o [rest [d [Hbp [_ [_ [Hat [Hget Hd]]]]]]]]].
  exists p, o, rest, (after_delete h (tid o) d).
  destruct (after_delete_fields h (tid o) d) as [Ho _].
  destruct Hok as [_ [_ [_ Hnd]]].
  repeat (split; [assumption|]).
  split; [|split].
  - rewrite Ho. apply (dict_del_absent String.eqb Seqb_spec'). assumption.
  - intros k Hk. rewrite Ho. apply (dict_get_del_other String.eqb Seqb_spec'). assumption.
  - intros Hs o2 Hin.
    pose proof (StronglySorted_filter _ _ (fun o => price o =? p) _ Hs) as Hs'.
    fold (at_price p (dict_values (OH.orders h))) in Hs'. rewrite Hat in Hs'.
    inversion Hs' as [|? ? _ Hall]; subst. rewrite Forall_forall in Hall. auto.
Qed.

Lemma reachable_ex_requote : reachable ex_requote.
Proof.
  eapply (reach_process _ 3 (mkOrder "B01" Bid 40 1 3 0) None).
  - eapply (reach_process _ 2 (mkOrder "B02" Bid 40 1 2 0) None).
    + eapply (reach_process _ 1 (mkOrder "B01" Bid 30 1 1 0) None).
      * apply reach_init.
      * vm_compute. reflexivity.
    + vm_compute. reflexivity.
  - vm_compute. reflexivity.
Qed.

Lemma ex_requote_bids_ok : half_ok (Exchange.bids ex_requote).
Proof.
  unfold half_ok, keyed. split; [vm_compute; reflexivity|].
  split; [reflexivity|]. split.
  - repeat constructor.
  - cbn. repeat constructor; cbn; intuition discriminate.
Qed.

Lemma C3_witness :
  exists p o rest h',
    OH.best_price (Exchange.bids ex_requote) = Some p /\
    at_price p (dict_values (OH.orders (Exchange.bids ex_requote))) = o :: rest /\
    OH.delete_best (Exchange.bids ex_requote) = Ret (tid o, h') /\
    OH.orders h' = dict_del String.eqb (tid o) (OH.orders (Exchange.bids ex_requote)) /\
    dict_get String.eqb (tid o) (OH.orders (Exchange.bids ex_requote)) = Some o /\
    dict_get String.eqb (tid o) (OH.orders h') = None /\
    (forall k, k <> tid o ->
               dict_get String.eqb k (OH.orders h') =
               dict_get String.eqb k (OH.orders (Exchange.bids ex_requote))) /\
    (StronglySorted (fun a b => (time a <= time b)%Q)
                    (dict_values (OH.orders (Exchange.bids ex_requote))) ->
     forall o2, In o2 rest -> (time o <= time o2)%Q).
Proof.
  apply (C3_delete_best_removes_first_owner_at_best (Exchange.bids ex_requote)).
  - apply ex_requote_bids_ok.
  - unfold pos_qty. cbn. repeat constructor.
  - cbn. discriminate.
Defined.

(** C3, counterexample: after B01 bids 30 (t=1), B02 bids 40 (t=2) and
    B01 re-quotes at 40 (t=3), both owners rest at the best bid 40;
    [delete_best] removes B01, whose order carries the later timestamp,
    and leaves the earlier-timestamped order of B02 on the book. *)
Lemma C3_counterexample :
  reachable ex_requote /\
  OH.best_price (Exchange.bids ex_requote) = Some 40 /\
  at_price 40 (dict_values (OH.orders (Exchange.bids ex_requote))) =
  [B01_requote; B02_resting] /\
  (time B02_resting < time B01_requote)%Q /\
  exists h',
    OH.delete_best (Exchange.bids ex_requote) = Ret ("B01"%string, h') /\
    OH.orders h' = [("B02"%string, B02_resting)].
Proof.
  split; [apply reachable_ex_requote|].
  split; [reflexivity|]. split; [reflexivity|]. split; [reflexivity|].
  eexists. split; vm_compute; reflexivity.
Qed.

(* ================================================================= *)
(** ** The best price of an emptied side (C5) *)

Lemma build_lob_no_orders : forall h,
    OH.orders h = [] ->
    OH.best_price (OH.build_lob h) = None /\ OH.best_tid (OH.build_lob h) = None.
Proof. intros h He. rewrite build_lob_eq. rewrite He. cbn. auto. Qed.

(** C5, as amended: when [delete_best] removes the last resting order
    of a consistent side, the side is left empty with no best price
    and no best owner ([None], as after every rebuild of an empty
    side); the worst-price stub stays in [worstprice]. *)
Theorem C5_delete_best_last_order_leaves_no_best : forall h,
    half_ok h -> OH.n_orders h = 1 ->
    exists c o h',
      OH.orders h = [(c, o)] /\
      OH.delete_best h = Ret (c, h') /\
      OH.orders h' = [] /\ OH.n_orders h' = 0 /\
      OH.best_price h' = None /\ OH.best_tid h' = None /\
      OH.worstprice h' = OH.worstprice h.
Proof.
  intros h Hok Hn. pose proof Hok as [_ [Hlen [Hkey _]]].
  rewrite Hn in Hlen. unfold len in Hlen.
  destruct (OH.orders h) as [|[c o] [|kv r]] eqn:Eo; cbn [List.length] in Hlen; try lia.
  assert (Hne : OH.orders h <> []) by (rewrite Eo; discriminate).
  destruct (delete_best_cases h Hok Hne)
    as [p [o1 [rest [_ [_ [_ [_ [Hget [[d Hd] | [_ [_ [Hlt _]]]]]]]]]]]]; [|lia].
  rewrite Eo in Hget. cbn in Hget.
  destruct (String.eqb (tid o1) c) eqn:E; [|discriminate].
  apply String.eqb_eq in E. injection Hget as <-. subst c.
  exists (tid o), o, (after_delete h (tid o) d).
  destruct (after_delete_fields h (tid o) d) as [Ho [_ [Hw [Hn' _]]]].
  rewrite Eo in Ho. cbn in Ho. rewrite String.eqb_refl in Ho.
  split; [reflexivity|]. split; [exact Hd|]. split; [assumption|].
  split; [lia|].
  unfold after_delete in *.
  split; [|split; [|assumption]]; apply build_lob_no_orders; cbn; rewrite Eo; cbn;
    rewrite String.eqb_refl; reflexivity.
Qed.

Lemma h_one_ok : half_ok h_one.
Proof.
  unfold half_ok, keyed. cbn. repeat split; repeat constructor; intros [].
Qed.

Lemma C5_witness :
  exists c o h',
    OH.orders h_one = [(c, o)] /\
    OH.delete_best h_one = Ret (c, h') /\
    OH.orders h' = [] /\ OH.n_orders h' = 0 /\
    OH.best_price h' = None /\ OH.best_tid h' = None /\
    OH.worstprice h' = OH.worstprice h_one.
Proof.
  apply (C5_delete_best_last_order_leaves_no_best h_one).
  - apply h_one_ok.
  - reflexivity.
Defined.

(** C5, counterexample: removing the only order (B01 at 40) of a bid
    side whose worst-price stub is 1 leaves the side empty with best
    price [None], not the stub. *)
Lemma C5_counterexample :
  half_ok h_one /\ OH.n_orders h_one = 1 /\
  exists h',
    OH.delete_best h_one = Ret ("B01"%string, h') /\
    OH.orders h' = [] /\ OH.worstprice h' = bse_sys_minprice /\
    OH.best_price h' = None /\
    OH.best_price h' <> Some (OH.worstprice h').
Proof.
  split; [apply h_one_ok|].
  split; [reflexivity|].
  eexists. split; [vm_compute; reflexivity|].
  cbn. repeat split. discriminate.
Qed.

(* ================================================================= *)
(** ** Settlement: [Trader.bookkeep] (C9) *)

Lemma Qminus_zero_iff : forall a b : Q, (a - b == 0)%Q <-> (a == b)%Q.
Proof.
  intros a b. unfold Qeq, Qminus, Qplus, Qopp. cbn. split; intro H; lia.
Qed.

Lemma truediv_nonzero : forall a b : Q,
    ~ (b == 0)%Q -> truediv a b = Ret (a / b)%Q.
Proof.
  intros a b H. unfold truediv. destruct (Qeq_bool b 0) eqn:E; [|reflexivity].
  apply Qeq_bool_iff in E. contradiction.
Qed.

Lemma truediv_zero : forall a b : Q,
    (b == 0)%Q -> truediv a b = Raise ZeroDivisionError.
Proof.
  intros a b H. unfold truediv. apply Qeq_bool_iff in H. rewrite H. reflexivity.
Qed.

(** C9 (settlement is partial in the settlement time): for a trader
    with a pending customer order, [bookkeep] at a time different from
    the birth time adds the profit to the balance and sets
    [profitpertime] to [balance / (time - birthtime)] (it then exits
    when the profit is negative, and clears the pending order
    otherwise); at a time equal to the birth time the division raises
    [ZeroDivisionError] and [profitpertime] is not assigned. *)
Theorem C9_bookkeep_divides_by_age : forall tr trade time o rest,
    Trader.orders tr = o :: rest ->
    (~ (time == Trader.birthtime tr)%Q ->
     exists tr',
       Trader.bookkeep tr trade time =
       (if profit_of o trade <? 0 then Aborted SystemExit tr'
        else Done (Trader.del_order tr')) /\
       Trader.balance tr' = (Trader.balance tr + inject_Z (profit_of o trade))%Q /\
       Trader.profitpertime tr' =
       (Trader.balance tr' / (time - Trader.birthtime tr))%Q /\
       Trader.n_trades tr' = Trader.n_trades tr + 1)
    /\
    ((time == Trader.birthtime tr)%Q ->
     exists tr',
       Trader.bookkeep tr trade time = Aborted ZeroDivisionError tr' /\
       Trader.profitpertime tr' = Trader.profitpertime tr).
Proof.
  intros tr trade time o rest Ho. unfold Trader.bookkeep.
  cbn [Trader.orders Trader.set_blotter]. rewrite Ho.
  fold (profit_of o trade).
  cbn [Trader.balance Trader.birthtime Trader.set_balance Trader.set_n_trades].
  split; intro Ht.
  - rewrite truediv_nonzero by (rewrite Qminus_zero_iff; assumption).
    eexists. split; [reflexivity|]. cbn. auto.
  - rewrite truediv_zero by (rewrite Qminus_zero_iff; assumption).
    eexists. split; [reflexivity|]. reflexivity.
Qed.

Lemma C9_witness :
  (exists tr',
      Trader.bookkeep B01_trader (trade_50 2) 2 =
      (if profit_of B01_limit60 (trade_50 2) <? 0 then Aborted SystemExit tr'
       else Done (Trader.del_order tr')) /\
      Trader.balance tr' =
      (Trader.balance B01_trader + inject_Z (profit_of B01_limit60 (trade_50 2)))%Q /\
      Trader.profitpertime tr' =
      (Trader.balance tr' / (2 - Trader.birthtime B01_trader))%Q /\
      Trader.n_trades tr' = Trader.n_trades B01_trader + 1)
  /\
  (exists tr',
      Trader.bookkeep B01_trader (trade_50 0) 0 = Aborted ZeroDivisionError tr' /\
      Trader.profitpertime tr' = Trader.profitpertime B01_trader).
Proof.
  split.
  - apply (proj1 (C9_bookkeep_divides_by_age B01_trader (trade_50 2) 2%Q
                    B01_limit60 [] eq_refl)).
    unfold Qeq. cbn. lia.
  - apply (proj2 (C9_bookkeep_divides_by_age B01_trader (trade_50 0) 0%Q
                    B01_limit60 [] eq_refl)).
    reflexivity.
Defined.

(* ================================================================= *)
(** ** The belief functions of GDX (C10) *)

Lemma count_if_acc : forall (test : Z -> bool) (l : list Z) (acc : Z),
    acc <= fold_left (fun (n p : Z) => if test p then n + 1 else n) l acc
    <= acc + len l.
Proof.
  intros test l. unfold len. induction l as [|p l IH]; intro acc.
  - cbn. lia.
  - cbn [fold_left List.length]. destruct (test p).
    + specialize (IH (acc + 1)). lia.
    + specialize (IH acc). lia.
Qed.

Lemma count_if_nonneg : forall test l, 0 <= Trader_GDX.count_if test l.
Proof. intros. unfold Trader_GDX.count_if. apply (count_if_acc test l 0). Qed.

(** A guarded ratio of two counters is returned and lies in [0, 1]. *)
Lemma belief_ratio : forall num rest,
    0 <= num -> 0 <= rest ->
    exists q,
      (if num + rest =? 0 then Ret 0%Q
       else Trader_GDX.count_div num (num + rest)) = Ret q /\
      (0 <= q)%Q /\ (q <= 1)%Q /\
      (num + rest = 0 -> q = 0%Q) /\
      (num + rest <> 0 -> q = (inject_Z num / inject_Z (num + rest))%Q).
Proof.
  intros num rest Hn Hr. destruct (num + rest =? 0) eqn:E.
  - apply Z.eqb_eq in E. exists 0%Q. split; [reflexivity|].
    split; [apply Qle_refl|]. split; [discriminate|]. split; [reflexivity | congruence].
  - apply Z.eqb_neq in E.
    assert (Hpos : (0 < inject_Z (num + rest))%Q).
    { change 0%Q with (inject_Z 0). rewrite <- Zlt_Qlt. lia. }
    exists (inject_Z num / inject_Z (num + rest))%Q.
    split.
    + unfold Trader_GDX.count_div. apply truediv_nonzero.
      intro H. rewrite H in Hpos. apply (Qlt_irrefl 0). assumption.
    + split; [|split; [|split; [congruence | reflexivity]]].
      * apply Qle_shift_div_l; [assumption|]. rewrite Qmult_0_l.
        change 0%Q with (inject_Z 0). rewrite <- Zle_Qle. assumption.
      * apply Qle_shift_div_r; [assumption|]. rewrite Qmult_1_l.
        rewrite <- Zle_Qle. lia.
Qed.

(** C10 (the belief functions are total and bounded): for every state
    of the observation memories and every price, [belief_sell] and
    [belief_buy] return (no exception), the value is 0 when no
    observation qualifies, and otherwise it is the ratio of the
    favourable count to the total count, between 0 and 1. *)
Theorem C10_beliefs_total_and_bounded : forall g price,
    (let accepted_asks_greater :=
       Trader_GDX.count_if (Trader_GDX.ge_price price) (Trader_GDX.accepted_asks g) in
     let bids_greater :=
       Trader_GDX.count_if (Trader_GDX.ge_price price)
                           (map fst (Trader_GDX.outstanding_bids g)) in
     let unaccepted_asks_lower :=
       Trader_GDX.count_if (Trader_GDX.le_price price)
                           (map fst (Trader_GDX.outstanding_asks g)) in
     exists q,
       Trader_GDX.belief_sell g price = Ret q /\ (0 <= q)%Q /\ (q <= 1)%Q /\
       (accepted_asks_greater + bids_greater + unaccepted_asks_lower = 0 -> q = 0%Q) /\
       (accepted_asks_greater + bids_greater + unaccepted_asks_lower <> 0 ->
        q = (inject_Z (accepted_asks_greater + bids_greater)
             / inject_Z (accepted_asks_greater + bids_greater
                         + unaccepted_asks_lower))%Q))
    /\
    (let accepted_bids_lower :=
       Trader_GDX.count_if (Trader_GDX.le_price price) (Trader_GDX.accepted_bids g) in
     let asks_lower :=
       Trader_GDX.count_if (Trader_GDX.le_price price)
                           (map fst (Trader_GDX.outstanding_asks g)) in
     let unaccepted_bids_greater :=
       Trader_GDX.count_if (Trader_GDX.ge_price price)
                           (map fst (Trader_GDX.outstanding_bids g)) in
     exists q,
       Trader_GDX.belief_buy g price = Ret q /\ (0 <= q)%Q /\ (q <= 1)%Q /\
       (accepted_bids_lower + asks_lower + unaccepted_bids_greater = 0 -> q = 0%Q) /\
       (accepted_bids_lower + asks_lower + unaccepted_bids_greater <> 0 ->
        q = (inject_Z (accepted_bids_lower + asks_lower)
             / inject_Z (accepted_bids_lower + asks_lower
                         + unaccepted_bids_greater))%Q)).
Proof.
  intros g price. split; cbv zeta.
  - unfold Trader_GDX.belief_sell.
    apply belief_ratio.
    + pose proof (count_if_nonneg (Trader_GDX.ge_price price) (Trader_GDX.accepted_asks g)).
      pose proof (count_if_nonneg (Trader_GDX.ge_price price)
                                  (map fst (Trader_GDX.outstanding_bids g))).
      lia.
    + apply count_if_nonneg.
  - unfold Trader_GDX.belief_buy.
    apply belief_ratio.
    + pose proof (count_if_nonneg (Trader_GDX.le_price price) (Trader_GDX.accepted_bids g)).
      pose proof (count_if_nonneg (Trader_GDX.le_price price)
                                  (map fst (Trader_GDX.outstanding_asks g))).
      lia.
    + apply count_if_nonneg.
Qed.

(* ================================================================= *)
(** ** The quote of ZIP (C7) *)

Lemma py_int_nonneg : forall x : Q, (0 <= x)%Q -> py_int x = Qfloor x.
Proof.
  intros [n d] H. unfold py_int, Qfloor. cbn [Qnum Qden].
  unfold Qle in H. cbn in H. apply Z.quot_div_nonneg; lia.
Qed.

Lemma py_int_nonpos : forall x : Q, (x <= 0)%Q -> py_int x = Qceiling x.
Proof.
  intros [n d] H. unfold py_int, Qceiling, Qfloor. cbn [Qnum Qden Qopp].
  unfold Qle in H. cbn in H.
  rewrite <- (Z.opp_involutive n) at 1. rewrite Z.quot_opp_l by lia.
  rewrite Z.quot_div_nonneg by lia. reflexivity.
Qed.

(** C7, the code at the failing input: a ZIP seller holding an ask
    with limit 10 at a selling margin of 0.08.  [getorder] quotes and
    records as its price int(10 * 1.08) = 10, the product truncated,
    whereas the product rounded, as the specification has it, is 11; and
    [profit_alter], called in the state [getorder] leaves with a target
    equal to that price, keeps the limit and the margin and sets the
    price of the same trader to int(round(10 * 1.08, 0)) = 11. *)
Theorem C7_zip_getorder_truncates_where_profit_alter_rounds :
  exists order z' z'',
    Trader.orders (Trader_ZIP.super zip_seller) = [S01_limit10] /\
    price S01_limit10 = 10 /\ zip_margin zip_seller Ask = 2 # 25 /\
    Trader_ZIP.getorder zip_seller 1 1 lob_empty = (Some order, z') /\
    price order = 10 /\ Trader_ZIP.price z' = Some 10 /\
    py_round (inject_Z 10 * (1 + (2 # 25)))%Q = 11 /\
    ZIP_respond.profit_alter
      (ZIP_respond.mk z' 0 (3 # 10) (5 # 100) (5 # 100) (5 # 100)) 10 = Ret z'' /\
    Trader_ZIP.limit (ZIP_respond.zip z'') = Some 10 /\
    Trader_ZIP.margin (ZIP_respond.zip z'') = Some (2 # 25) /\
    Trader_ZIP.price (ZIP_respond.zip z'') = Some 11.
Proof.
  eexists. eexists. eexists.
  split; [reflexivity|]. split; [reflexivity|]. split; [reflexivity|].
  split; [reflexivity|]. split; [reflexivity|]. split; [reflexivity|].
  split; [reflexivity|]. split; [vm_compute; reflexivity|].
  split; [reflexivity|]. split; reflexivity.
Qed.

(* ================================================================= *)
(** ** Customer orders and live quotes (C4) *)

(** [add_order] answers by the counter [n_quotes] alone and installs
    the new customer order. *)
Lemma add_order_by_counter : forall tr order,
    (fst (Trader.add_order tr order) = Trader.Proceed <-> Trader.n_quotes tr <= 0) /\
    (fst (Trader.add_order tr order) = Trader.LOB_Cancel <-> 0 < Trader.n_quotes tr) /\
    Trader.orders (snd (Trader.add_order tr order)) = [order].
Proof.
  intros tr order. unfold Trader.add_order. cbn [fst snd Trader.orders Trader.set_orders].
  destruct (0 <? Trader.n_quotes tr) eqn:E.
  - apply Z.ltb_lt in E. repeat split; intros; try lia; try discriminate; reflexivity.
  - apply Z.ltb_ge in E. repeat split; intros; try lia; try discriminate; reflexivity.
Qed.

(** C4, the code at the failing input: after B01's quote has traded
    against S01's, the book is empty and B01 has no live quote, but
    its counter [n_quotes] is still 1 (only [market_session] writes
    it, and only ever to 1), so the next customer order assigned to
    B01 is answered ['LOB_Cancel'] and B01 enters the cancellation
    list, although the pending order is replaced as claimed. *)
Theorem C4_add_order_after_trade_requests_cancel :
  exists trade trs ex tr trs',
    session_until_trade = Ret (Some trade, trs, ex) /\
    Exchange.t_price trade = 50 /\
    Session.live_quotes ex "B01" = 0 /\
    dict_get String.eqb "B01"%string trs = Some tr /\
    Trader.n_quotes tr = 1 /\
    Trader.add_order tr B01_limit70 =
    (Trader.LOB_Cancel, Trader.set_orders tr [B01_limit70]) /\
    Session.issue trs [] B01_limit70 = Ret (Trader.LOB_Cancel, trs', ["B01"%string]).
Proof.
  do 5 eexists. split; [vm_compute; reflexivity|].
  split; [reflexivity|]. split; [reflexivity|]. split; [reflexivity|].
  split; [reflexivity|]. split; [reflexivity|]. vm_compute. reflexivity.
Qed.

(* ================================================================= *)
(** ** Published data (C6) *)

Lemma update_same : forall s l o, Heap.update s l o l = Some o.
Proof. intros. unfold Heap.update. rewrite Nat.eqb_refl. reflexivity. Qed.

Lemma update_other : forall s l o l', l' <> l -> Heap.update s l o l' = s l'.
Proof.
  intros s l o l' H. unfold Heap.update.
  destruct (Nat.eqb l' l) eqn:E; [|reflexivity].
  apply Nat.eqb_eq in E. contradiction.
Qed.

(** C6, as amended: [publish_lob] returns new dictionaries whose
    scalar entries are values of the moment, but it copies no list:
    the ['lob'] entries and the ['tape'] entry are the exchange's own
    list objects.  So an in-place mutation of the published tape list
    is that mutation of the live tape, and an in-place mutation of a
    published ['lob'] list is that mutation of the live anonymized
    book of its side. *)
Theorem C6_publish_lob_shares_its_lists : forall s o time,
    let pd := Published.publish_lob o time in
    (Published.lob (Published.pd_bids pd) = Published.bids_lob_anon o /\
     Published.lob (Published.pd_asks pd) = Published.asks_lob_anon o /\
     Published.pd_tape pd = Published.tape o)
    /\
    (Published.best (Published.pd_bids pd) =
     OH.best_price (Exchange.bids (Published.state o)) /\
     Published.best (Published.pd_asks pd) =
     OH.best_price (Exchange.asks (Published.state o)) /\
     Published.n (Published.pd_bids pd) =
     OH.n_orders (Exchange.bids (Published.state o)) /\
     Published.n (Published.pd_asks pd) =
     OH.n_orders (Exchange.asks (Published.state o)) /\
     Published.QID pd = Exchange.quote_id (Published.state o) /\
     Published.pd_time pd = time)
    /\
    (forall ex m tp',
        Published.live s o = Some ex ->
        Heap.mutate_obj m (Heap.TapeList (Exchange.tape ex)) = Ret (Heap.TapeList tp') ->
        exists s',
          Heap.mutate s (Published.pd_tape pd) m = Ret s' /\
          Published.live s' o = Some (Exchange.set_tape ex tp'))
    /\
    (Published.bids_lob_anon o <> Published.asks_lob_anon o ->
     forall ex m l',
        Published.live s o = Some ex ->
        (Heap.mutate_obj m (Heap.LobList (OH.lob_anon (Exchange.bids ex)))
         = Ret (Heap.LobList l') ->
         exists s',
           Heap.mutate s (Published.lob (Published.pd_bids pd)) m = Ret s' /\
           Published.live s' o =
           Some (Exchange.set_bids ex (OH.set_lob_anon (Exchange.bids ex) l')))
        /\
        (Heap.mutate_obj m (Heap.LobList (OH.lob_anon (Exchange.asks ex)))
         = Ret (Heap.LobList l') ->
         exists s',
           Heap.mutate s (Published.lob (Published.pd_asks pd)) m = Ret s' /\
           Published.live s' o =
           Some (Exchange.set_asks ex (OH.set_lob_anon (Exchange.asks ex) l')))).
Proof.
  intros s o time pd. subst pd. cbn [Published.publish_lob Published.lob
    Published.pd_bids Published.pd_asks Published.pd_tape Published.best
    Published.n Published.QID Published.pd_time].
  split; [auto|]. split; [repeat split|]. split.
  - intros ex m tp' Hl Hm. unfold Published.live in Hl.
    destruct (s (Published.bids_lob_anon o)) as [[b|]|] eqn:Eb; try discriminate.
    destruct (s (Published.asks_lob_anon o)) as [[a|]|] eqn:Ea; try discriminate.
    destruct (s (Published.tape o)) as [[|tp]|] eqn:Et; try discriminate.
    injection Hl as <-.
    assert (Hnb : Published.bids_lob_anon o <> Published.tape o) by congruence.
    assert (Hna : Published.asks_lob_anon o <> Published.tape o) by congruence.
    cbn [Exchange.tape] in Hm.
    eexists. split.
    + unfold Heap.mutate. rewrite Et. cbn [of_option bind]. rewrite Hm. cbn [bind].
      reflexivity.
    + unfold Published.live.
      rewrite (update_other _ _ _ _ Hnb), (update_other _ _ _ _ Hna), update_same.
      rewrite Eb, Ea. reflexivity.
  - intros Hba ex m l' Hl. unfold Published.live in Hl.
    destruct (s (Published.bids_lob_anon o)) as [[b|]|] eqn:Eb; try discriminate.
    destruct (s (Published.asks_lob_anon o)) as [[a|]|] eqn:Ea; try discriminate.
    destruct (s (Published.tape o)) as [[|tp]|] eqn:Et; try discriminate.
    injection Hl as <-.
    assert (Hnb : Published.tape o <> Published.bids_lob_anon o) by congruence.
    assert (Hna : Published.tape o <> Published.asks_lob_anon o) by congruence.
    split; intro Hm; cbn in Hm; eexists; split.
    + unfold Heap.mutate. rewrite Eb. cbn [of_option bind]. rewrite Hm. cbn [bind].
      reflexivity.
    + unfold Published.live.
      rewrite update_same, (update_other _ _ _ _ (not_eq_sym Hba)),
        (update_other _ _ _ _ Hnb).
      rewrite Ea, Et. reflexivity.
    + unfold Heap.mutate. rewrite Ea. cbn [of_option bind]. rewrite Hm. cbn [bind].
      reflexivity.
    + unfold Published.live.
      rewrite (update_other _ _ _ _ Hba), update_same, (update_other _ _ _ _ Hna).
      rewrite Eb, Et. reflexivity.
Qed.

Lemma C6_witness :
  let s := fst (Published.alloc ex_S01) in
  let o := Published.obj_of ex_S01 in
  let pd := Published.publish_lob o 1 in
  exists s',
    Heap.mutate s (Published.lob (Published.pd_asks pd)) (Heap.SetLob 0 (1, 1)) = Ret s' /\
    Published.live s' o =
    Some (Exchange.set_asks ex_S01 (OH.set_lob_anon (Exchange.asks ex_S01) [(1, 1)])).
Proof.
  cbv zeta.
  destruct (C6_publish_lob_shares_its_lists
              (fst (Published.alloc ex_S01)) (Published.obj_of ex_S01) 1)
    as [_ [_ [_ Hlob]]].
  apply (proj2 (Hlob ltac:(discriminate) ex_S01 (Heap.SetLob 0 (1, 1)) [(1, 1)] eq_refl)).
  reflexivity.
Defined.

(** C6, counterexample: with the ask of S01 resting, appending a record
    to the tape list of the published data, or overwriting the first
    element of its asks list, changes the live tape and the live
    anonymized asks of the exchange. *)
Lemma C6_counterexample :
  let s := fst (Published.alloc ex_S01) in
  let o := snd (Published.alloc ex_S01) in
  let pd := Published.publish_lob o 1 in
  option_map Exchange.tape (Published.live s o) = Some [] /\
  option_map (fun ex => OH.lob_anon (Exchange.asks ex)) (Published.live s o)
  = Some [(50, 1)] /\
  (exists s',
      Heap.mutate s (Published.pd_tape pd) (Heap.AppendTape forged) = Ret s' /\
      option_map Exchange.tape (Published.live s' o) = Some [forged] /\
      Published.live s' o <> Published.live s o) /\
  (exists s',
      Heap.mutate s (Published.lob (Published.pd_asks pd)) (Heap.SetLob 0 (1, 1))
      = Ret s' /\
      option_map (fun ex => OH.lob_anon (Exchange.asks ex)) (Published.live s' o)
      = Some [(1, 1)] /\
      Published.live s' o <> Published.live s o).
Proof.
  cbv zeta. split; [reflexivity|]. split; [reflexivity|]. split.
  - eexists. split; [reflexivity|]. split; [reflexivity|]. discriminate.
  - eexists. split; [reflexivity|]. split; [reflexivity|]. discriminate.
Qed.

(* ================================================================= *)
(** ** The quote of AA (C8) *)

Ltac bind_inv H :=
  repeat match type of H with
         | bind ?m _ = Ret _ =>
             let E := fresh "E" in
             destruct m eqn:E; [cbn [bind] in H | discriminate H]
         end.

(** [calcTarget] only assigns the two targets. *)
Lemma calcTarget_frame : forall a a1,
    AA.calcTarget a = Ret a1 ->
    AA.tid a1 = AA.tid a /\ AA.prev_best_bid_p a1 = AA.prev_best_bid_p a /\
    AA.prev_best_ask_p a1 = AA.prev_best_ask_p a /\
    AA.previous_transactions a1 = AA.previous_transactions a /\
    (AA.job a = Some Bid -> exists bt, AA.buy_target a1 = Some bt) /\
    (AA.job a = Some Ask -> exists st, AA.sell_target a1 = Some st).
Proof.
  intros a a1 H. unfold AA.calcTarget in H.
  destruct (AA.job a) as [[|]|] eqn:Ej.
  - bind_inv H. injection H as <-. cbn.
    repeat split; try reflexivity; [eauto | discriminate].
  - bind_inv H.
    match type of H with
    | Ret (if ?c then _ else _) = _ => destruct c
    end; injection H as <-; cbn in *;
      (repeat split; try reflexivity; [discriminate | intros _]).
    + eauto.
    + destruct (AA.sell_target a); [eauto | discriminate].
  - injection H as <-. repeat split; discriminate.
Qed.

Lemma rdiv_ok : forall x y : R, y <> 0%R -> AA.rdiv x y = Ret (x / y)%R.
Proof.
  intros x y H. unfold AA.rdiv. destruct (Req_dec_T y 0); [contradiction | reflexivity].
Qed.

Lemma exp_minus_one : forall x : R, x <> 0%R -> (exp x - 1 <> 0)%R.
Proof.
  intros x Hx H. apply Hx. apply exp_inv. rewrite exp_0. lra.
Qed.

Lemma theta_bar_guarded : forall tb : R,
    (exp (if Req_dec_T (exp tb - 1) 0 then 0.0001 else tb) - 1 <> 0)%R.
Proof.
  intro tb. destruct (Req_dec_T (exp tb - 1) 0) as [H|H]; [|exact H].
  apply exp_minus_one. lra.
Qed.

(** With the exponential of the reals, [calcTarget] returns when
    theta and the equilibrium estimate are not zero and, for a seller,
    a sell target is already set. *)
Lemma calcTarget_total : forall a o,
    AA.theta a <> 0%R ->
    AA.equilibrium (aa_start a o) (price o) (otype o) <> 0%R ->
    (otype o = Ask -> AA.sell_target a <> None) ->
    exists a1, AA.calcTarget (aa_start a o) = Ret a1.
Proof.
  intros a o Hth Hp Hs. unfold AA.calcTarget.
  cbn [aa_start AA.job AA.limit AA.set_limit_job of_option bind].
  cbn [aa_start AA.set_limit_job] in Hp.
  set (p := AA.equilibrium _ (price o) (otype o)) in *.
  cbn [AA.theta AA.buy_r AA.sell_r AA.set_active AA.sell_target AA.set_buy_target].
  destruct (otype o) eqn:Eo.
  - rewrite !rdiv_ok by (apply exp_minus_one; assumption). cbn [bind].
    rewrite rdiv_ok by assumption. cbn [bind].
    rewrite rdiv_ok by apply theta_bar_guarded. cbn [bind]. eexists. reflexivity.
  - rewrite !rdiv_ok by (apply exp_minus_one; assumption). cbn [bind].
    rewrite rdiv_ok by assumption. cbn [bind].
    rewrite rdiv_ok by apply theta_bar_guarded. cbn [bind].
    unfold aa_start.
    cbn [AA.sell_target AA.set_buy_target AA.set_limit_job AA.set_active].
    destruct (AA.sell_target a) as [s|] eqn:Es; [|exfalso; apply Hs; reflexivity].
    cbn [of_option bind]. eexists. reflexivity.
Qed.

Lemma len_nonempty : forall (A : Type) (l : list A),
    (0 <? len l) = true <-> l <> [].
Proof.
  intros A l. rewrite Z.ltb_lt. unfold len.
  destruct l; cbn [List.length]; split; intro; try congruence; lia.
Qed.

Lemma aa_start_o_bid : forall a o a1,
    AA.calcTarget (aa_start a o) = Ret a1 ->
    AA.o_bid a1 = AA.o_bid a /\ AA.o_ask a1 = AA.o_ask a /\
    AA.previous_transactions a1 = AA.previous_transactions a.
Proof.
  intros a o a1 H. destruct (calcTarget_frame _ _ H) as [_ [Hb [Ha [Hp _]]]].
  unfold AA.o_bid, AA.o_ask. rewrite Hb, Ha, Hp. auto.
Qed.

Lemma getorder_buyer : forall a time countdown lob o rest a1,
    AA.orders a = o :: rest -> otype o = Bid ->
    AA.calcTarget (aa_start a o) = Ret a1 ->
    ((price o <= AA.o_bid a)%R ->
     AA.getorder a time countdown lob = Ret (None, a1)) /\
    ((AA.o_bid a < price o)%R ->
     exists q,
       AA.getorder a time countdown lob = Ret (aa_quote a1 o q time lob) /\
       (AA.previous_transactions a <> [] ->
        q = (AA.o_bid a
             + (Rmin (price o) ((1 + 0.05) * AA.o_ask a + 0.05) - AA.o_bid a) / 3.0)%R) /\
       (AA.previous_transactions a = [] ->
        exists bt,
          AA.buy_target a1 = Some bt /\
          ((AA.o_ask a <= bt)%R -> q = AA.o_ask a) /\
          ((bt < AA.o_ask a)%R ->
           q = (AA.o_bid a + (bt - AA.o_bid a) / 3.0)%R))).
Proof.
  intros a time countdown lob o rest a1 Ho Hot Hc.
  destruct (aa_start_o_bid _ _ _ Hc) as [Hb [Ha Hp]].
  destruct (calcTarget_frame _ _ Hc) as [_ [_ [_ [_ [Hbt _]]]]].
  destruct Hbt as [bt Hbt]; [cbn; rewrite Hot; reflexivity|].
  unfold AA.getorder. rewrite Ho. fold (aa_start a o). rewrite Hc. cbn [bind].
  rewrite Hot, Hb, Ha, Hp. split.
  - intro Hle. destruct (Rle_dec (price o) (AA.o_bid a)); [reflexivity | contradiction].
  - intro Hlt. destruct (Rle_dec (price o) (AA.o_bid a)); [lra|].
    destruct (0 <? len (AA.previous_transactions a)) eqn:En.
    + eexists. split; [cbn [bind]; unfold aa_quote; rewrite Hot; reflexivity|].
      split; [intros _; reflexivity|].
      intro He. rewrite He in En. discriminate.
    + rewrite Hbt. cbn [of_option bind].
      destruct (Rle_dec (AA.o_ask a) bt).
      * eexists. split; [cbn [bind]; unfold aa_quote; rewrite Hot; reflexivity|].
        split.
        -- intro Hne. apply len_nonempty in Hne. congruence.
        -- intros _. exists bt. split; [reflexivity|]. split; [reflexivity | lra].
      * eexists. split; [cbn [bind]; unfold aa_quote; rewrite Hot; reflexivity|].
        split.
        -- intro Hne. apply len_nonempty in Hne. congruence.
        -- intros _. exists bt. split; [reflexivity|]. split; [lra | reflexivity].
Qed.

Lemma getorder_seller : forall a time countdown lob o rest a1,
    AA.orders a = o :: rest -> otype o = Ask ->
    AA.calcTarget (aa_start a o) = Ret a1 ->
    ((price o >= AA.o_ask a)%R ->
     AA.getorder a time countdown lob = Ret (None, a1)) /\
    ((price o < AA.o_ask a)%R ->
     exists q,
       AA.getorder a time countdown lob = Ret (aa_quote a1 o q time lob) /\
       (AA.previous_transactions a <> [] ->
        q = (AA.o_ask a
             - (AA.o_ask a - Rmax (price o) ((1 - 0.05) * AA.o_bid a - 0.05)) / 3.0)%R) /\
       (AA.previous_transactions a = [] ->
        exists st,
          AA.sell_target a1 = Some st /\
          ((AA.o_bid a >= st)%R -> q = AA.o_bid a) /\
          ((AA.o_bid a < st)%R ->
           q = (AA.o_ask a - (AA.o_ask a - st) / 3.0)%R))).
Proof.
  intros a time countdown lob o rest a1 Ho Hot Hc.
  destruct (aa_start_o_bid _ _ _ Hc) as [Hb [Ha Hp]].
  destruct (calcTarget_frame _ _ Hc) as [_ [_ [_ [_ [_ Hst]]]]].
  destruct Hst as [st Hst]; [cbn; rewrite Hot; reflexivity|].
  unfold AA.getorder. rewrite Ho. fold (aa_start a o). rewrite Hc. cbn [bind].
  rewrite Hot, Hb, Ha, Hp. split.
  - intro Hge. destruct (Rge_dec (price o) (AA.o_ask a)); [reflexivity | contradiction].
  - intro Hlt. destruct (Rge_dec (price o) (AA.o_ask a)); [lra|].
    destruct (0 <? len (AA.previous_transactions a)) eqn:En.
    + eexists. split; [cbn [bind]; unfold aa_quote; rewrite Hot; reflexivity|].
      split; [intros _; reflexivity|].
      intro He. rewrite He in En. discriminate.
    + rewrite Hst. cbn [of_option bind].
      destruct (Rge_dec (AA.o_bid a) st).
      * eexists. split; [cbn [bind]; unfold aa_quote; rewrite Hot; reflexivity|].
        split.
        -- intro Hne. apply len_nonempty in Hne. congruence.
        -- intros _. exists st. split; [reflexivity|]. split; [reflexivity | lra].
      * eexists. split; [cbn [bind]; unfold aa_quote; rewrite Hot; reflexivity|].
        split.
        -- intro Hne. apply len_nonempty in Hne. congruence.
        -- intros _. exists st. split; [reflexivity|]. split; [lra | reflexivity].
Qed.

Lemma aa_buyer_total : forall best_bid,
    exists a1, AA.calcTarget (aa_start (aa_buyer best_bid) B01_limit100) = Ret a1.
Proof.
  intro best_bid. apply calcTarget_total.
  - cbn. lra.
  - unfold AA.equilibrium. cbn.
    destruct (Req_dec_T 100 90); lra.
  - discriminate.
Qed.



(* ================================================================= *)
(** ** Further properties of the book and the exchange *)

Lemma n_orders_zero : forall h,
    half_ok h -> (0 <? OH.n_orders h) = false -> OH.orders h = [].
Proof.
  intros h Hok E. destruct (OH.orders h) eqn:Eo; [reflexivity|].
  assert ((0 <? OH.n_orders h) = true).
  { apply n_orders_pos; [assumption|]. rewrite Eo. discriminate. }
  congruence.
Qed.

(** What a returning [process_order2] leaves, on a consistent book:
    either the order rests and nothing else changes, or one trade is
    recorded and one owner leaves each side. *)
Lemma process_order2_shape : forall ex time order tr ex',
    ex_ok ex ->
    Exchange.process_order2 ex time order = Ret (tr, ex') ->
    Exchange.quote_id ex' = Exchange.quote_id ex + 1 /\
    ((tr = None /\ Exchange.tape ex' = Exchange.tape ex /\
      OH.orders (own_side ex' (otype order)) = own_admitted ex order /\
      opp_side ex' (otype order) = opp_side ex (otype order) /\
      (OH.orders (opp_side ex (otype order)) = [] \/
       exists own opp,
         OH.best_price (own_side ex' (otype order)) = Some own /\
         OH.best_price (opp_side ex (otype order)) = Some opp /\
         ~ crosses (otype order) own opp))
     \/
     (exists cp cb opp ob,
         tr = Some (Exchange.mkTrade time opp cp (tid order) (qty order)) /\
         Exchange.tape ex' =
         Exchange.tape ex ++
           [Exchange.TradeRec (Exchange.mkTrade time opp cp (tid order) (qty order))] /\
         OH.best_tid (opp_side ex (otype order)) = Some cp /\
         OH.best_price (opp_side ex (otype order)) = Some opp /\
         OH.orders (opp_side ex' (otype order)) =
         dict_del String.eqb cp (OH.orders (opp_side ex (otype order))) /\
         OH.orders (own_side ex' (otype order)) =
         dict_del String.eqb cb (own_admitted ex order) /\
         dict_get String.eqb cb (own_admitted ex order) = Some ob /\
         crosses (otype order) (price ob) opp /\
         is_best (otype order) (price ob) (dict_values (own_admitted ex order)))).
Proof.
  intros ex time order tr ex' Hok H.
  pose proof Hok as [Hb [Ha [Hbt Hat]]].
  unfold own_admitted, admitted.
  destruct (otype order) eqn:Hot; cbn [own_side opp_side crosses].
  - rewrite process_bid_eq in H by assumption. cbv zeta in H.
    set (o' := set_qid order (Exchange.quote_id ex)) in *.
    set (b1 := snd (OH.book_add (Exchange.bids ex) o')) in *.
    destruct (book_add_ok (Exchange.bids ex) o' Hb) as [Hb1 [Ho1 [Hbt1 _]]].
    fold b1 in Hb1, Ho1, Hbt1.
    assert (Hne1 : OH.orders b1 <> []) by (rewrite Ho1; apply dict_set_nonempty).
    change (tid o') with (tid order) in Ho1.
    destruct (0 <? OH.n_orders (Exchange.asks ex)) eqn:En.
    + apply n_orders_pos in En; [|assumption].
      destruct (delete_best_cases _ Ha En)
        as [pa [oa [resta [Hbpa [Hbta [Hbesta [Hata [Hgeta Hda]]]]]]]].
      destruct (delete_best_cases _ Hb1 Hne1)
        as [pb [ob [restb [Hbpb [Hbtb [Hbestb [Hatb [Hgetb Hdb]]]]]]]].
      rewrite Hbpb, Hbpa in H.
      destruct (pb >=? pa) eqn:Ecmp.
      * destruct Hda as [[da Hda] | [Hda _]]; rewrite Hda in H; [|discriminate].
        cbn [bind] in H.
        destruct Hdb as [[db Hdb] | [Hdb _]]; rewrite Hdb in H; [|discriminate].
        cbn [bind finish] in H. rewrite Hbta in H. injection H as <- <-.
        cbn [Exchange.quote_id Exchange.set_tape Exchange.tape Exchange.bids Exchange.asks].
        split; [reflexivity|]. right.
        exists (tid oa), (tid ob), pa, ob.
        destruct (at_price_head _ _ _ _ Hatb) as [_ Hpb].
        rewrite (proj1 (after_delete_fields _ _ _)).
        rewrite (proj1 (after_delete_fields b1 _ _)). rewrite Ho1 in *.
        repeat (split; [first [reflexivity | assumption]|]).
        split; [rewrite Hpb; apply Z.geb_le in Ecmp; lia|].
        rewrite Hpb. rewrite Hbt1, Hbt in Hbestb. exact Hbestb.
      * cbn [bind finish] in H. injection H as <- <-.
        cbn [Exchange.quote_id Exchange.tape Exchange.bids Exchange.asks].
        split; [reflexivity|]. left.
        repeat (split; [first [reflexivity | assumption]|]).
        right. exists pb, pa. repeat (split; [assumption|]).
        rewrite Z.geb_leb in Ecmp. apply Z.leb_gt in Ecmp. lia.
    + cbn [bind finish] in H. injection H as <- <-.
      cbn [Exchange.quote_id Exchange.tape Exchange.bids Exchange.asks].
      split; [reflexivity|]. left.
      repeat (split; [first [reflexivity | assumption]|]).
      left. apply n_orders_zero; assumption.
  - rewrite process_ask_eq in H by assumption. cbv zeta in H.
    set (o' := set_qid order (Exchange.quote_id ex)) in *.
    set (a1 := snd (OH.book_add (Exchange.asks ex) o')) in *.
    destruct (book_add_ok (Exchange.asks ex) o' Ha) as [Ha1 [Ho1 [Hat1 _]]].
    fold a1 in Ha1, Ho1, Hat1.
    assert (Hne1 : OH.orders a1 <> []) by (rewrite Ho1; apply dict_set_nonempty).
    change (tid o') with (tid order) in Ho1.
    destruct (0 <? OH.n_orders (Exchange.bids ex)) eqn:En.
    + apply n_orders_pos in En; [|assumption].
      destruct (delete_best_cases _ Hb En)
        as [pb [ob [restb [Hbpb [Hbtb [Hbestb [Hatb [Hgetb Hdb]]]]]]]].
      destruct (delete_best_cases _ Ha1 Hne1)
        as [pa [oa [resta [Hbpa [Hbta [Hbesta [Hata [Hgeta Hda]]]]]]]].
      rewrite Hbpb, Hbpa in H.
      destruct (pa <=? pb) eqn:Ecmp.
      * destruct Hdb as [[db Hdb] | [Hdb _]]; rewrite Hdb in H; [|discriminate].
        cbn [bind] in H.
        destruct Hda as [[da Hda] | [Hda _]]; rewrite Hda in H; [|discriminate].
        cbn [bind finish] in H. rewrite Hbtb in H. injection H as <- <-.
        cbn [Exchange.quote_id Exchange.set_tape Exchange.tape Exchange.bids Exchange.asks].
        split; [reflexivity|]. right.
        exists (tid ob), (tid oa), pb, oa.
        destruct (at_price_head _ _ _ _ Hata) as [_ Hpa].
        rewrite (proj1 (after_delete_fields _ _ _)).
        rewrite (proj1 (after_delete_fields a1 _ _)). rewrite Ho1 in *.
        repeat (split; [first [reflexivity | assumption]|]).
        split; [rewrite Hpa; apply Z.leb_le in Ecmp; lia|].
        rewrite Hpa. rewrite Hat1, Hat in Hbesta. exact Hbesta.
      * cbn [bind finish] in H. injection H as <- <-.
        cbn [Exchange.quote_id Exchange.tape Exchange.bids Exchange.asks].
        split; [reflexivity|]. left.
        repeat (split; [first [reflexivity | assumption]|]).
        right. exists pa, pb. repeat (split; [assumption|]).
        apply Z.leb_gt in Ecmp. lia.
    + cbn [bind finish] in H. injection H as <- <-.
      cbn [Exchange.quote_id Exchange.tape Exchange.bids Exchange.asks].
      split; [reflexivity|]. left.
      repeat (split; [first [reflexivity | assumption]|]).
      left. apply n_orders_zero; assumption.
Qed.

Lemma sget_set : forall k k' (v : Order Z) d,
    dict_get String.eqb k (dict_set String.eqb k' v d) =
    if String.eqb k k' then Some v else dict_get String.eqb k d.
Proof.
  intros k k' v d. destruct (String.eqb k k') eqn:E.
  - apply Seqb_spec' in E. subst. apply (dict_get_set_same String.eqb Seqb_spec').
  - apply (dict_get_set_other String.eqb Seqb_spec'). intro; subst.
    rewrite String.eqb_refl in E. discriminate.
Qed.

Lemma sget_del : forall k k' (d : list (string * Order Z)),
    NoDup (dict_keys d) ->
    dict_get String.eqb k (dict_del String.eqb k' d) =
    if String.eqb k k' then None else dict_get String.eqb k d.
Proof.
  intros k k' d Hnd. destruct (String.eqb k k') eqn:E.
  - apply Seqb_spec' in E. subst. apply (dict_del_absent String.eqb Seqb_spec'). assumption.
  - apply (dict_get_del_other String.eqb Seqb_spec'). intro; subst.
    rewrite String.eqb_refl in E. discriminate.
Qed.

Lemma dict_del_missing : forall k (d : list (string * Order Z)),
    dict_get String.eqb k d = None -> dict_del String.eqb k d = d.
Proof.
  intros k d. induction d as [|[k' v] r IH]; cbn; [reflexivity|].
  destruct (String.eqb k k'); [discriminate|]. intro H. rewrite IH; auto.
Qed.

Lemma dict_del_set_absent : forall k (v : Order Z) d,
    dict_get String.eqb k d = None ->
    dict_del String.eqb k (dict_set String.eqb k v d) = d.
Proof.
  intros k v d. induction d as [|[k' v'] r IH]; cbn.
  - rewrite String.eqb_refl. reflexivity.
  - destruct (String.eqb k k') eqn:E; [discriminate|]. intro H.
    cbn. rewrite E. rewrite IH; auto.
Qed.

Lemma dict_del_set_same : forall k (v : Order Z) d,
    NoDup (dict_keys d) ->
    dict_del String.eqb k (dict_set String.eqb k v d) = dict_del String.eqb k d.
Proof.
  intros k v d. induction d as [|[k' v'] r IH]; cbn; intro Hnd.
  - rewrite String.eqb_refl. reflexivity.
  - destruct (String.eqb k k') eqn:E; cbn; rewrite E; [reflexivity|].
    inversion Hnd; subst. rewrite IH; auto.
Qed.

Lemma len_set_absent : forall k (v : Order Z) d,
    dict_get String.eqb k d = None ->
    len (dict_set String.eqb k v d) = len d + 1.
Proof.
  intros k v d H. rewrite (dict_set_absent String.eqb _ _ _ H).
  unfold len. rewrite length_app. cbn. lia.
Qed.

Lemma len_set_present : forall k (v v0 : Order Z) d,
    dict_get String.eqb k d = Some v0 ->
    len (dict_set String.eqb k v d) = len d.
Proof.
  intros k v v0 d H.
  pose proof (dict_set_keys_present String.eqb k v v0 d H) as Hk.
  unfold len. apply (f_equal (@List.length string)) in Hk.
  unfold dict_keys in Hk. rewrite !length_map in Hk. rewrite Hk. reflexivity.
Qed.

Lemma half_ok_rebuild : forall h os,
    half_ok h -> os = OH.orders h ->
    OH.build_lob (OH.set_n_orders (OH.set_orders h os) (len os)) = h.
Proof.
  intros h os [Hb [Hn Hk]] ->.
  transitivity (OH.build_lob h); [|assumption].
  apply build_lob_ext; cbn; auto.
Qed.

Lemma exchange_eta : forall ex,
    Exchange.mk (Exchange.bids ex) (Exchange.asks ex) (Exchange.tape ex)
                (Exchange.quote_id ex) = ex.
Proof. destruct ex; reflexivity. Qed.

(** Every order found on the book after [process_order2] is the
    incoming one, under its quote id, or was there before. *)
Lemma process_lookup : forall ex time order tr ex' s k o,
    ex_ok ex ->
    Exchange.process_order2 ex time order = Ret (tr, ex') ->
    resting ex' s k = Some o ->
    (s = otype order /\ k = tid order /\ o = admitted ex order) \/
    resting ex s k = Some o.
Proof.
  intros ex time order tr ex' s k o Hok H Hget.
  pose proof Hok as [[_ [_ [_ Hndb]]] [[_ [_ [_ Hnda]]] _]].
  destruct (process_order2_shape _ _ _ _ _ Hok H) as [_ Hs].
  unfold resting in *.
  assert (Hown : forall d, d = OH.orders (own_side ex (otype order)) ->
                           NoDup (dict_keys d)).
  { intros d ->. destruct (otype order); assumption. }
  assert (Hopp : forall d, d = OH.orders (opp_side ex (otype order)) ->
                           NoDup (dict_keys d)).
  { intros d ->. destruct (otype order); assumption. }
  assert (Hadm : NoDup (dict_keys (own_admitted ex order))).
  { unfold own_admitted.
    assert (Hk : keyed (dict_set String.eqb (tid (admitted ex order)) (admitted ex order)
                                 (OH.orders (own_side ex (otype order))))).
    { apply keyed_set. destruct Hok as [[_ [_ Kb]] [[_ [_ Ka]] _]].
      destruct (otype order); assumption. }
    exact (proj2 Hk). }
  assert (Hcase : s = otype order \/ (own_side ex' s = opp_side ex' (otype order) /\
                                      own_side ex s = opp_side ex (otype order))).
  { destruct s, (otype order); auto. }
  destruct Hs as [[_ [_ [Ho [Hp _]]]] | [cp [cb [opp [ob [_ [_ [_ [_ [Hp [Ho _]]]]]]]]]]].
  - destruct Hcase as [-> | [E1 E2]].
    + rewrite Ho in Hget. unfold own_admitted in Hget. rewrite sget_set in Hget.
      destruct (String.eqb k (tid order)) eqn:E.
      * apply Seqb_spec' in E. injection Hget as <-. left. auto.
      * right. assumption.
    + right. rewrite E1, Hp, <- E2 in Hget. assumption.
  - destruct Hcase as [-> | [E1 E2]].
    + rewrite Ho in Hget. rewrite sget_del in Hget by assumption.
      destruct (String.eqb k cb); [discriminate|].
      unfold own_admitted in Hget. rewrite sget_set in Hget.
      destruct (String.eqb k (tid order)) eqn:E.
      * apply Seqb_spec' in E. injection Hget as <-. left. auto.
      * right. assumption.
    + right. rewrite E1, Hp in Hget. rewrite sget_del in Hget by (apply Hopp; reflexivity).
      destruct (String.eqb k cp); [discriminate|]. rewrite E2. assumption.
Qed.

Lemma del_order_shape : forall ex time order,
    ex_ok ex ->
    exists ex',
      Exchange.del_order ex time order = Ret ex' /\
      own_side ex' (otype order) = OH.book_del (own_side ex (otype order)) order /\
      opp_side ex' (otype order) = opp_side ex (otype order) /\
      Exchange.tape ex' = Exchange.tape ex ++ [Exchange.CancelRec time order] /\
      Exchange.quote_id ex' = Exchange.quote_id ex.
Proof.
  intros ex time order [Hb [Ha _]]. unfold Exchange.del_order.
  destruct (otype order); cbn [own_side opp_side].
  - rewrite (del_side_ok _ _ Hb). cbn [bind]. eexists. split; [reflexivity|].
    cbn. auto.
  - rewrite (del_side_ok _ _ Ha). cbn [bind]. eexists. split; [reflexivity|].
    cbn. auto.
Qed.

Lemma book_del_orders : forall h o,
    OH.orders (OH.book_del h o) = dict_del String.eqb (tid o) (OH.orders h).
Proof.
  intros h o. unfold OH.book_del.
  destruct (dict_get String.eqb (tid o) (OH.orders h)) eqn:E.
  - rewrite build_lob_eq. reflexivity.
  - symmetry. apply dict_del_missing. assumption.
Qed.

(** X1: the answer of [book_add].  On a consistent side, an order of
    a trader with no order there is an ['Addition']: it goes last in
    the owner map and the order count grows by one.  An order of a
    trader that has one is an ['Overwrite']: it takes the place of the
    old one and the owners and the count stay as they are. *)
Theorem book_add_response_by_owner : forall h o,
    half_ok h ->
    match dict_get String.eqb (tid o) (OH.orders h) with
    | None =>
        fst (OH.book_add h o) = OH.Addition /\
        OH.orders (snd (OH.book_add h o)) = OH.orders h ++ [(tid o, o)] /\
        OH.n_orders (snd (OH.book_add h o)) = OH.n_orders h + 1
    | Some _ =>
        fst (OH.book_add h o) = OH.Overwrite /\
        dict_keys (OH.orders (snd (OH.book_add h o))) = dict_keys (OH.orders h) /\
        dict_get String.eqb (tid o) (OH.orders (snd (OH.book_add h o))) = Some o /\
        OH.n_orders (snd (OH.book_add h o)) = OH.n_orders h
    end.
Proof.
  intros h o Hok. pose proof Hok as [_ [Hn _]].
  destruct (book_add_ok h o Hok) as [_ [Ho _]].
  assert (Hn' : OH.n_orders (snd (OH.book_add h o)) =
                len (dict_set String.eqb (tid o) o (OH.orders h))).
  { rewrite book_add_snd, build_lob_eq. reflexivity. }
  assert (Hf : fst (OH.book_add h o) =
               if negb (OH.n_orders h =? OH.n_orders (snd (OH.book_add h o)))
               then OH.Addition else OH.Overwrite).
  { unfold OH.book_add. cbv zeta.
    destruct (negb (OH.n_orders h =? _)) eqn:En; cbn [fst snd]; rewrite En;
      reflexivity. }
  destruct (dict_get String.eqb (tid o) (OH.orders h)) eqn:E.
  - rewrite (len_set_present _ _ _ _ E) in Hn'.
    rewrite Hf, Hn', <- Hn, Z.eqb_refl. cbn [negb].
    split; [reflexivity|]. split; [|split; [|reflexivity]].
    + rewrite Ho. eapply dict_set_keys_present. eassumption.
    + rewrite Ho. apply (dict_get_set_same String.eqb Seqb_spec').
  - rewrite (len_set_absent _ _ _ E) in Hn'.
    rewrite Hf, Hn', <- Hn.
    replace (OH.n_orders h =? OH.n_orders h + 1) with false
      by (symmetry; apply Z.eqb_neq; lia).
    cbn [negb]. split; [reflexivity|]. split; [|reflexivity].
    rewrite Ho. apply dict_set_absent. assumption.
Qed.

Lemma book_add_response_by_owner_witness :
  fst (OH.book_add h_one B02_resting) = OH.Addition /\
  OH.orders (snd (OH.book_add h_one B02_resting)) =
  OH.orders h_one ++ [("B02"%string, B02_resting)] /\
  OH.n_orders (snd (OH.book_add h_one B02_resting)) = OH.n_orders h_one + 1.
Proof.
  exact (book_add_response_by_owner h_one B02_resting h_one_ok).
Defined.

(** X2: adding and removing undo each other.  On a consistent side,
    [book_add] of an order of a trader with no order there, followed
    by [book_del] of that order, gives back the side as it was, every
    attribute included. *)
Theorem book_add_then_del_restores : forall h o,
    half_ok h ->
    dict_get String.eqb (tid o) (OH.orders h) = None ->
    OH.book_del (snd (OH.book_add h o)) o = h.
Proof.
  intros h o Hok E.
  destruct (book_add_ok h o Hok) as [_ [Ho [Hbt Hw]]].
  unfold OH.book_del. rewrite Ho.
  rewrite (dict_get_set_same String.eqb Seqb_spec').
  rewrite (dict_del_set_absent _ _ _ E).
  cbv zeta.
  transitivity (OH.build_lob (OH.set_n_orders (OH.set_orders h (OH.orders h))
                                              (len (OH.orders h))));
    [|apply half_ok_rebuild; auto].
  apply build_lob_ext; cbn; auto.
  rewrite book_add_snd, build_lob_eq. reflexivity.
Qed.

Lemma book_add_then_del_restores_witness :
  OH.book_del (snd (OH.book_add h_one B02_resting)) B02_resting = h_one.
Proof.
  apply (book_add_then_del_restores h_one B02_resting h_one_ok). reflexivity.
Defined.

(** X3: what [del_order] does.  On a consistent book it always
    returns; the trader named by the order loses its order on the side
    named by the order's type, whatever price, quantity or quote id
    the order passed in carries; the other side and the quote counter
    are untouched and one ['Cancel'] record is appended to the tape. *)
Theorem del_order_effect : forall ex time order,
    ex_ok ex ->
    exists ex',
      Exchange.del_order ex time order = Ret ex' /\
      OH.orders (own_side ex' (otype order)) =
      dict_del String.eqb (tid order) (OH.orders (own_side ex (otype order))) /\
      resting ex' (otype order) (tid order) = None /\
      opp_side ex' (otype order) = opp_side ex (otype order) /\
      Exchange.tape ex' = Exchange.tape ex ++ [Exchange.CancelRec time order] /\
      Exchange.quote_id ex' = Exchange.quote_id ex.
Proof.
  intros ex time order Hok.
  destruct (del_order_shape ex time order Hok) as [ex' [H [Ho [Hp [Ht Hq]]]]].
  exists ex'. split; [assumption|].
  assert (Hd : OH.orders (own_side ex' (otype order)) =
               dict_del String.eqb (tid order) (OH.orders (own_side ex (otype order)))).
  { rewrite Ho. apply book_del_orders. }
  repeat (split; [assumption|]). split; [|auto].
  unfold resting. rewrite Hd. apply (dict_del_absent String.eqb Seqb_spec').
  destruct Hok as [[_ [_ [_ Nb]]] [[_ [_ [_ Na]]] _]].
  destruct (otype order); assumption.
Qed.

Lemma del_order_effect_witness :
  exists ex',
    Exchange.del_order ex_S01 3 (S01_ask 3 7) = Ret ex' /\
    OH.orders (Exchange.asks ex') =
    dict_del String.eqb "S01"%string (OH.orders (Exchange.asks ex_S01)) /\
    resting ex' Ask "S01"%string = None /\
    Exchange.bids ex' = Exchange.bids ex_S01 /\
    Exchange.tape ex' = Exchange.tape ex_S01 ++ [Exchange.CancelRec 3 (S01_ask 3 7)] /\
    Exchange.quote_id ex' = Exchange.quote_id ex_S01.
Proof.
  exact (del_order_effect ex_S01 3 (S01_ask 3 7) ex_S01_ok).
Defined.

(** X4: cancelling what is not there.  On a consistent book,
    [del_order] for a trader that has no order on the side concerned
    raises nothing and leaves the book as it is, but still logs a
    ['Cancel'] record on the tape. *)
Theorem del_order_of_absent_owner : forall ex time order,
    ex_ok ex ->
    resting ex (otype order) (tid order) = None ->
    Exchange.del_order ex time order =
    Ret (Exchange.set_tape ex (Exchange.tape ex ++ [Exchange.CancelRec time order])).
Proof.
  intros ex time order Hok E. pose proof Hok as [Hb [Ha _]].
  unfold resting in E. unfold Exchange.del_order.
  destruct (otype order); cbn [own_side] in E.
  - rewrite (del_side_ok _ _ Hb). unfold OH.book_del. rewrite E.
    cbn [bind]. destruct ex; reflexivity.
  - rewrite (del_side_ok _ _ Ha). unfold OH.book_del. rewrite E.
    cbn [bind]. destruct ex; reflexivity.
Qed.

Lemma del_order_of_absent_owner_witness :
  Exchange.del_order ex_S01 3 (B01_bid 3 0) =
  Ret (Exchange.set_tape ex_S01
         (Exchange.tape ex_S01 ++ [Exchange.CancelRec 3 (B01_bid 3 0)])).
Proof.
  apply (del_order_of_absent_owner ex_S01 3 (B01_bid 3 0) ex_S01_ok). reflexivity.
Defined.

(** X5: the tape only grows, by what is returned.  On a consistent
    book a returning [process_order2] leaves the earlier records of
    the tape in place and appends exactly the trade record it returns,
    or nothing when it returns [None]; the quote counter grows by
    one in both cases. *)
Theorem process_order2_appends_its_trade : forall ex time order tr ex',
    ex_ok ex ->
    Exchange.process_order2 ex time order = Ret (tr, ex') ->
    Exchange.tape ex' =
    Exchange.tape ex ++ match tr with
                        | Some t => [Exchange.TradeRec t]
                        | None => []
                        end /\
    Exchange.quote_id ex' = Exchange.quote_id ex + 1.
Proof.
  intros ex time order tr ex' Hok H.
  destruct (process_order2_shape _ _ _ _ _ Hok H) as [Hq Hs].
  split; [|assumption].
  destruct Hs as [[-> [Ht _]] | [cp [cb [opp [ob [-> [Ht _]]]]]]].
  - rewrite app_nil_r. assumption.
  - assumption.
Qed.

Lemma process_order2_appends_its_trade_witness :
  Exchange.tape ex_S01_B02 = Exchange.tape ex_S01 ++ [] /\
  Exchange.quote_id ex_S01_B02 = Exchange.quote_id ex_S01 + 1.
Proof.
  apply (process_order2_appends_its_trade ex_S01 2 B02_bid40 None ex_S01_B02 ex_S01_ok).
  vm_compute. reflexivity.
Defined.

Lemma own_side_ok : forall ex s,
    ex_ok ex -> half_ok (own_side ex s) /\ OH.booktype (own_side ex s) = s.
Proof. intros ex s [Hb [Ha [Tb Ta]]]. destruct s; cbn; auto. Qed.

Lemma opp_side_ok : forall ex s,
    ex_ok ex -> half_ok (opp_side ex s).
Proof. intros ex s [Hb [Ha _]]. destruct s; cbn; auto. Qed.

Lemma resting_In : forall ex s k o,
    ex_ok ex ->
    (resting ex s k = Some o <-> In (k, o) (OH.orders (own_side ex s))).
Proof.
  intros ex s k o Hok. destruct (own_side_ok ex s Hok) as [[_ [_ [_ Hnd]]] _].
  unfold resting. split.
  - apply (dict_get_In String.eqb Seqb_spec').
  - apply (dict_get_NoDup String.eqb Seqb_spec'). assumption.
Qed.

Lemma cancel_lookup : forall ex time order ex' s k o,
    ex_ok ex ->
    Exchange.del_order ex time order = Ret ex' ->
    resting ex' s k = Some o -> resting ex s k = Some o.
Proof.
  intros ex time order ex' s k o Hok H Hget.
  destruct (del_order_shape ex time order Hok) as [ex2 [H2 [Ho [Hp _]]]].
  rewrite H in H2. injection H2 as <-.
  unfold resting in *.
  assert (Hcase : s = otype order \/ (own_side ex' s = opp_side ex' (otype order) /\
                                      own_side ex s = opp_side ex (otype order))).
  { destruct s, (otype order); auto. }
  destruct Hcase as [-> | [E1 E2]].
  - rewrite Ho, book_del_orders in Hget.
    destruct (own_side_ok ex (otype order) Hok) as [[_ [_ [_ Hnd]]] _].
    rewrite sget_del in Hget by assumption.
    destruct (String.eqb k (tid order)); [discriminate|assumption].
  - rewrite E1, Hp, <- E2 in Hget. assumption.
Qed.

(** [process_order2] returns whenever the quantities are positive. *)
Lemma process_total : forall ex time order,
    ex_ok ex -> pos_qty (Exchange.bids ex) -> pos_qty (Exchange.asks ex) ->
    0 < qty order ->
    exists tr ex', Exchange.process_order2 ex time order = Ret (tr, ex').
Proof.
  intros ex time order Hok Pb Pa Hq.
  pose proof Hok as [Hb [Ha [Hbt Hat]]].
  destruct (otype order) eqn:Hot.
  - rewrite process_bid_eq by assumption. cbv zeta.
    set (o' := set_qid order (Exchange.quote_id ex)).
    set (b1 := snd (OH.book_add (Exchange.bids ex) o')).
    destruct (book_add_ok (Exchange.bids ex) o' Hb) as [Hb1 [Ho1 _]].
    fold b1 in Hb1, Ho1.
    assert (Hne1 : OH.orders b1 <> []) by (rewrite Ho1; apply dict_set_nonempty).
    assert (P1 : pos_qty b1) by (apply pos_qty_add; assumption).
    destruct (0 <? OH.n_orders (Exchange.asks ex)) eqn:En.
    + apply n_orders_pos in En; [|assumption].
      destruct (delete_best_total _ Ha En Pa)
        as [pa [oa [resta [da [Hbpa [Hbta [_ [_ [_ Hda]]]]]]]]].
      destruct (delete_best_total _ Hb1 Hne1 P1)
        as [pb [ob [restb [db [Hbpb [_ [_ [_ [_ Hdb]]]]]]]]].
      rewrite Hbpb, Hbpa. destruct (pb >=? pa).
      * rewrite Hda. cbn [bind]. rewrite Hdb. cbn [bind finish]. rewrite Hbta.
        eexists. eexists. reflexivity.
      * cbn [bind finish]. eexists. eexists. reflexivity.
    + cbn [bind finish]. eexists. eexists. reflexivity.
  - rewrite process_ask_eq by assumption. cbv zeta.
    set (o' := set_qid order (Exchange.quote_id ex)).
    set (a1 := snd (OH.book_add (Exchange.asks ex) o')).
    destruct (book_add_ok (Exchange.asks ex) o' Ha) as [Ha1 [Ho1 _]].
    fold a1 in Ha1, Ho1.
    assert (Hne1 : OH.orders a1 <> []) by (rewrite Ho1; apply dict_set_nonempty).
    assert (P1 : pos_qty a1) by (apply pos_qty_add; assumption).
    destruct (0 <? OH.n_orders (Exchange.bids ex)) eqn:En.
    + apply n_orders_pos in En; [|assumption].
      destruct (delete_best_total _ Hb En Pb)
        as [pb [ob [restb [db [Hbpb [Hbtb [_ [_ [_ Hdb]]]]]]]]].
      destruct (delete_best_total _ Ha1 Hne1 P1)
        as [pa [oa [resta [da [Hbpa [_ [_ [_ [_ Hda]]]]]]]]].
      rewrite Hbpb, Hbpa. destruct (pa <=? pb).
      * rewrite Hdb. cbn [bind]. rewrite Hda. cbn [bind finish]. rewrite Hbtb.
        eexists. eexists. reflexivity.
      * cbn [bind finish]. eexists. eexists. reflexivity.
    + cbn [bind finish]. eexists. eexists. reflexivity.
Qed.

(** On an uncrossed book only the incoming order can cross. *)
Lemma crossing_is_incoming : forall ex order ob opp,
    ex_ok ex -> uncrossed ex ->
    In ob (dict_values (own_admitted ex order)) ->
    is_best (OH.booktype (opp_side ex (otype order))) opp
            (dict_values (OH.orders (opp_side ex (otype order)))) ->
    crosses (otype order) (price ob) opp ->
    ob = admitted ex order.
Proof.
  intros ex order ob opp Hok Hun Hin Hbest Hx.
  unfold own_admitted in Hin. apply set_values in Hin.
  destruct Hin as [-> | Hin]; [reflexivity|]. exfalso.
  destruct (is_best_witness _ _ _ Hbest) as [oa [Hoa Hpa]].
  destruct (otype order); cbn [own_side opp_side crosses] in *.
  - specialize (Hun ob oa Hin Hoa). lia.
  - specialize (Hun oa ob Hoa Hin). lia.
Qed.

(** A trade on a consistent, uncrossed book: the record, and what is
    left on the two sides. *)
Lemma trade_on_uncrossed : forall ex time order t ex',
    ex_ok ex -> uncrossed ex ->
    Exchange.process_order2 ex time order = Ret (Some t, ex') ->
    exists opp cp,
      OH.best_price (opp_side ex (otype order)) = Some opp /\
      OH.best_tid (opp_side ex (otype order)) = Some cp /\
      crosses (otype order) (price order) opp /\
      t = Exchange.mkTrade time opp cp (tid order) (qty order) /\
      OH.orders (opp_side ex' (otype order)) =
      dict_del String.eqb cp (OH.orders (opp_side ex (otype order))) /\
      OH.orders (own_side ex' (otype order)) =
      dict_del String.eqb (tid order) (OH.orders (own_side ex (otype order))).
Proof.
  intros ex time order t ex' Hok Hun H.
  destruct (process_order2_shape _ _ _ _ _ Hok H) as [_ Hs].
  destruct Hs as [[Hn _] | [cp [cb [opp [ob [Ht [_ [Hbt [Hbp [Hp [Ho [Hg [Hx Hb]]]]]]]]]]]]];
    [discriminate|].
  injection Ht as ->.
  destruct (own_side_ok ex (otype order) Hok) as [[_ [_ Hk]] _].
  pose proof (opp_side_ok ex (otype order) Hok) as Hopp.
  assert (Hne : OH.orders (opp_side ex (otype order)) <> []).
  { intro E. destruct (half_ok_empty_best _ Hopp E) as [E1 _]. congruence. }
  destruct (best_price_some _ Hopp Hne) as [p [Hp1 Hbest]].
  rewrite Hbp in Hp1. injection Hp1 as <-.
  assert (Hin : In ob (dict_values (own_admitted ex order))).
  { eapply dict_values_In. eapply (dict_get_In String.eqb Seqb_spec'). eassumption. }
  pose proof (crossing_is_incoming ex order ob opp Hok Hun Hin Hbest Hx) as ->.
  assert (Hka : keyed (own_admitted ex order)).
  { unfold own_admitted. change (tid order) with (tid (admitted ex order)).
    apply keyed_set. assumption. }
  pose proof (keyed_get _ _ Hka Hin) as Hg2.
  change (tid (admitted ex order)) with (tid order) in Hg2.
  assert (cb = tid order).
  { destruct (String.eqb cb (tid order)) eqn:E; [apply Seqb_spec' in E; assumption|].
    exfalso. apply (dict_get_In String.eqb Seqb_spec') in Hg.
    destruct Hka as [Hf _]. rewrite Forall_forall in Hf. specialize (Hf _ Hg).
    cbn in Hf. subst cb. rewrite String.eqb_refl in E. discriminate. }
  subst cb. exists opp, cp.
  repeat (split; [first [reflexivity | assumption]|]).
  rewrite Ho. unfold own_admitted. apply dict_del_set_same. exact (proj2 Hk).
Qed.

(** No trade on a consistent book: the incoming order did not cross. *)
Lemma rest_on_consistent : forall ex time order ex',
    ex_ok ex -> uncrossed ex ->
    Exchange.process_order2 ex time order = Ret (None, ex') ->
    ~ exists opp, OH.best_price (opp_side ex (otype order)) = Some opp /\
                  crosses (otype order) (price order) opp.
Proof.
  intros ex time order ex' Hok Hun H [opp [Hbp Hx]].
  destruct (inv_process _ _ _ _ _ Hok Hun H) as [Hok' _].
  destruct (process_order2_shape _ _ _ _ _ Hok H) as [_ Hs].
  destruct Hs as [[_ [_ [Ho [_ Hc]]]] | [cp [cb [o2 [ob [Ht _]]]]]]; [|discriminate].
  destruct Hc as [He | [own [opp' [Hown [Hopp Hnx]]]]].
  - destruct (half_ok_empty_best _ (opp_side_ok ex (otype order) Hok) He) as [E _].
    congruence.
  - rewrite Hbp in Hopp. injection Hopp as <-.
    destruct (own_side_ok ex' (otype order) Hok') as [Hh Hbt].
    assert (Hne : OH.orders (own_side ex' (otype order)) <> []).
    { rewrite Ho. apply dict_set_nonempty. }
    destruct (best_price_some _ Hh Hne) as [p [Hp [_ Hmax]]].
    rewrite Hown in Hp. injection Hp as <-. rewrite Hbt in Hmax.
    assert (Hin : In (admitted ex order) (dict_values (OH.orders (own_side ex' (otype order))))).
    { rewrite Ho. eapply dict_values_In. eapply (dict_get_In String.eqb Seqb_spec').
      unfold own_admitted. apply (dict_get_set_same String.eqb Seqb_spec'). }
    specialize (Hmax _ Hin). cbn [admitted set_qid price] in Hmax.
    apply Hnx. destruct (otype order); cbn [crosses] in *; lia.
Qed.

Lemma pos_qty_In : forall h,
    pos_qty h <-> forall k o, In (k, o) (OH.orders h) -> 0 < qty o.
Proof.
  intro h. unfold pos_qty. rewrite Forall_forall. split.
  - intros H k o Hin. exact (H _ Hin).
  - intros H [k o] Hin. exact (H _ _ Hin).
Qed.

Lemma pos_qty_process : forall ex time order tr ex' s,
    ex_ok ex -> ex_ok ex' ->
    pos_qty (Exchange.bids ex) -> pos_qty (Exchange.asks ex) -> 0 < qty order ->
    Exchange.process_order2 ex time order = Ret (tr, ex') ->
    pos_qty (own_side ex' s).
Proof.
  intros ex time order tr ex' s Hok Hok' Pb Pa Hq H.
  apply pos_qty_In. intros k o Hin. apply resting_In in Hin; [|assumption].
  destruct (process_lookup _ _ _ _ _ _ _ _ Hok H Hin) as [[_ [_ ->]] | Hold].
  - exact Hq.
  - apply resting_In in Hold; [|assumption].
    destruct s; cbn [own_side] in Hold;
      [exact (proj1 (pos_qty_In _) Pb _ _ Hold)
      | exact (proj1 (pos_qty_In _) Pa _ _ Hold)].
Qed.

Lemma pos_qty_cancel : forall ex time order ex' s,
    ex_ok ex -> ex_ok ex' ->
    pos_qty (Exchange.bids ex) -> pos_qty (Exchange.asks ex) ->
    Exchange.del_order ex time order = Ret ex' ->
    pos_qty (own_side ex' s).
Proof.
  intros ex time order ex' s Hok Hok' Pb Pa H.
  apply pos_qty_In. intros k o Hin. apply resting_In in Hin; [|assumption].
  pose proof (cancel_lookup _ _ _ _ _ _ _ Hok H Hin) as Hold.
  apply resting_In in Hold; [|assumption].
  destruct s; cbn [own_side] in Hold;
    [exact (proj1 (pos_qty_In _) Pb _ _ Hold)
    | exact (proj1 (pos_qty_In _) Pa _ _ Hold)].
Qed.

Lemma run_total : forall cs ex,
    ex_ok ex -> uncrossed ex ->
    pos_qty (Exchange.bids ex) -> pos_qty (Exchange.asks ex) ->
    Forall positive_call cs ->
    exists ex', run ex cs = Ret ex' /\ ex_ok ex' /\ uncrossed ex' /\
                pos_qty (Exchange.bids ex') /\ pos_qty (Exchange.asks ex').
Proof.
  induction cs as [|c cs IH]; intros ex Hok Hun Pb Pa Hall.
  - exists ex. cbn. auto.
  - inversion Hall as [|c' cs' Hc Hcs]; subst. cbn [run].
    destruct c as [time order | time order]; cbn [run_call positive_call] in *.
    + destruct (process_total ex time order Hok Pb Pa Hc) as [tr [ex1 H1]].
      rewrite H1. cbn [bind].
      destruct (inv_process _ _ _ _ _ Hok Hun H1) as [Hok1 Hun1].
      apply IH; auto.
      * exact (pos_qty_process _ _ _ _ _ Bid Hok Hok1 Pb Pa Hc H1).
      * exact (pos_qty_process _ _ _ _ _ Ask Hok Hok1 Pb Pa Hc H1).
    + destruct (del_order_shape ex time order Hok) as [ex1 [H1 _]].
      rewrite H1. cbn [bind].
      destruct (inv_cancel _ _ _ _ Hok Hun H1) as [Hok1 Hun1].
      apply IH; auto.
      * exact (pos_qty_cancel _ _ _ _ Bid Hok Hok1 Pb Pa H1).
      * exact (pos_qty_cancel _ _ _ _ Ask Hok Hok1 Pb Pa H1).
Qed.

Lemma ex_S01_pos : pos_qty (Exchange.bids ex_S01) /\ pos_qty (Exchange.asks ex_S01).
Proof. split; repeat constructor. Qed.

(** X6: quote ids are fresh.  In every state the exchange reaches,
    the quote counter is not negative, every resting order carries a
    quote id below the counter, and no two resting orders, on either
    side, carry the same quote id. *)
Theorem reachable_quote_ids_distinct : forall ex,
    reachable ex ->
    0 <= Exchange.quote_id ex /\
    (forall s k o, resting ex s k = Some o -> 0 <= qid o < Exchange.quote_id ex) /\
    (forall s1 k1 o1 s2 k2 o2,
        resting ex s1 k1 = Some o1 -> resting ex s2 k2 = Some o2 ->
        qid o1 = qid o2 -> s1 = s2 /\ k1 = k2).
Proof.
  induction 1 as [| ex time order tr ex' Hr IH H | ex time order ex' Hr IH H].
  - split; [cbn; lia|]. split.
    + intros [] k o Hg; discriminate.
    + intros [] k1 o1 s2 k2 o2 Hg; discriminate.
  - destruct IH as [Hq [Hlt Hd]]. destruct (reachable_inv _ Hr) as [Hok _].
    destruct (process_order2_shape _ _ _ _ _ Hok H) as [Hq' _].
    assert (Hl : forall s k o, resting ex' s k = Some o ->
                   (s = otype order /\ k = tid order /\ qid o = Exchange.quote_id ex)
                   \/ (resting ex s k = Some o /\ 0 <= qid o < Exchange.quote_id ex)).
    { intros s k o Hg.
      destruct (process_lookup _ _ _ _ _ _ _ _ Hok H Hg) as [[-> [-> ->]] | Hold].
      - left. auto.
      - right. split; [assumption|]. eapply Hlt; eassumption. }
    split; [lia|]. split.
    + intros s k o Hg. destruct (Hl _ _ _ Hg) as [[_ [_ E]] | [_ E]]; lia.
    + intros s1 k1 o1 s2 k2 o2 H1 H2 E.
      destruct (Hl _ _ _ H1) as [[-> [-> E1]] | [G1 E1]];
        destruct (Hl _ _ _ H2) as [[-> [-> E2]] | [G2 E2]]; try lia; auto.
      eapply Hd; eassumption.
  - destruct IH as [Hq [Hlt Hd]]. destruct (reachable_inv _ Hr) as [Hok _].
    destruct (del_order_shape ex time order Hok) as [ex2 [H2 [_ [_ [_ Hq']]]]].
    rewrite H in H2. injection H2 as <-. rewrite Hq'.
    split; [assumption|]. split.
    + intros s k o Hg. eapply Hlt. eapply cancel_lookup; eassumption.
    + intros s1 k1 o1 s2 k2 o2 H1 H2 E.
      eapply Hd; [eapply cancel_lookup; eassumption
                 |eapply cancel_lookup; eassumption|assumption].
Qed.

Lemma reachable_quote_ids_distinct_witness :
  0 <= Exchange.quote_id ex_requote /\
  (forall s k o, resting ex_requote s k = Some o ->
                 0 <= qid o < Exchange.quote_id ex_requote) /\
  (forall s1 k1 o1 s2 k2 o2,
      resting ex_requote s1 k1 = Some o1 -> resting ex_requote s2 k2 = Some o2 ->
      qid o1 = qid o2 -> s1 = s2 /\ k1 = k2).
Proof.
  exact (reachable_quote_ids_distinct ex_requote reachable_ex_requote).
Defined.

(** X7: the book keeps its records straight.  In every state the
    exchange reaches, on each side the order count equals the number
    of orders held, no trader holds more than one order, and every
    order is filed under its own trader id and is of the side's
    type. *)
Theorem reachable_sides_consistent : forall ex s,
    reachable ex ->
    OH.n_orders (own_side ex s) = len (OH.orders (own_side ex s)) /\
    NoDup (dict_keys (OH.orders (own_side ex s))) /\
    (forall k o, resting ex s k = Some o -> tid o = k /\ otype o = s).
Proof.
  intros ex s Hr. destruct (reachable_inv _ Hr) as [Hok _].
  destruct (own_side_ok ex s Hok) as [[_ [Hn [Hf Hnd]]] _].
  split; [assumption|]. split; [assumption|].
  intros k o Hg. split.
  - apply (dict_get_In String.eqb Seqb_spec') in Hg.
    rewrite Forall_forall in Hf. exact (Hf _ Hg).
  - clear Hok Hn Hf Hnd. revert s k o Hg.
    induction Hr as [| ex time order tr ex' Hr IH H | ex time order ex' Hr IH H];
      intros s k o Hg.
    + destruct s; discriminate.
    + destruct (reachable_inv _ Hr) as [Hok _].
      destruct (process_lookup _ _ _ _ _ _ _ _ Hok H Hg) as [[-> [-> ->]] | Hold].
      * reflexivity.
      * eapply IH; eassumption.
    + destruct (reachable_inv _ Hr) as [Hok _].
      eapply IH. eapply cancel_lookup; eassumption.
Qed.

Lemma reachable_sides_consistent_witness :
  OH.n_orders (Exchange.bids ex_requote) = len (OH.orders (Exchange.bids ex_requote)) /\
  NoDup (dict_keys (OH.orders (Exchange.bids ex_requote))) /\
  (forall k o, resting ex_requote Bid k = Some o -> tid o = k /\ otype o = Bid).
Proof.
  exact (reachable_sides_consistent ex_requote Bid reachable_ex_requote).
Defined.

(** X8: an order that does not trade rests.  On a consistent book,
    when [process_order2] returns [None] the order is on the book
    under its trader id with the quote id the exchange gave it (the
    old value of the counter), in place of any earlier order of that
    trader on that side; the orders of the other traders, the
    opposite side and the tape are as before. *)
Theorem process_order2_no_trade_rests : forall ex time order ex',
    ex_ok ex ->
    Exchange.process_order2 ex time order = Ret (None, ex') ->
    resting ex' (otype order) (tid order) =
    Some (set_qid order (Exchange.quote_id ex)) /\
    (forall k, k <> tid order ->
               resting ex' (otype order) k = resting ex (otype order) k) /\
    opp_side ex' (otype order) = opp_side ex (otype order) /\
    Exchange.tape ex' = Exchange.tape ex.
Proof.
  intros ex time order ex' Hok H.
  destruct (process_order2_shape _ _ _ _ _ Hok H) as [_ Hs].
  destruct Hs as [[_ [Ht [Ho [Hp _]]]] | [cp [cb [opp [ob [E _]]]]]]; [|discriminate].
  unfold resting. rewrite Ho. unfold own_admitted, admitted.
  split; [apply (dict_get_set_same String.eqb Seqb_spec')|].
  split; [|auto].
  intros k Hk. apply (dict_get_set_other String.eqb Seqb_spec'). assumption.
Qed.

Lemma process_order2_no_trade_rests_witness :
  resting ex_S01_B02 Bid "B02"%string = Some (set_qid B02_bid40 (Exchange.quote_id ex_S01)) /\
  (forall k, k <> "B02"%string -> resting ex_S01_B02 Bid k = resting ex_S01 Bid k) /\
  Exchange.asks ex_S01_B02 = Exchange.asks ex_S01 /\
  Exchange.tape ex_S01_B02 = Exchange.tape ex_S01.
Proof.
  apply (process_order2_no_trade_rests ex_S01 2 B02_bid40 ex_S01_B02 ex_S01_ok).
  vm_compute. reflexivity.
Defined.

(** X9: when an order trades.  In a state the exchange reaches, with
    positive quantities on the book and in the order, [process_order2]
    returns, leaves the quantities positive, and returns a trade
    exactly when the opposite side has a best price that the order's
    own price crosses (bid >= best ask, ask <= best bid). *)
Theorem process_order2_trades_iff_crossing : forall ex time order,
    reachable ex ->
    pos_qty (Exchange.bids ex) -> pos_qty (Exchange.asks ex) -> 0 < qty order ->
    exists tr ex',
      Exchange.process_order2 ex time order = Ret (tr, ex') /\
      pos_qty (Exchange.bids ex') /\ pos_qty (Exchange.asks ex') /\
      (tr <> None <->
       exists opp, OH.best_price (opp_side ex (otype order)) = Some opp /\
                   crosses (otype order) (price order) opp).
Proof.
  intros ex time order Hr Pb Pa Hq. destruct (reachable_inv _ Hr) as [Hok Hun].
  destruct (process_total ex time order Hok Pb Pa Hq) as [tr [ex' H]].
  destruct (inv_process _ _ _ _ _ Hok Hun H) as [Hok' _].
  exists tr, ex'. split; [assumption|].
  split; [exact (pos_qty_process _ _ _ _ _ Bid Hok Hok' Pb Pa Hq H)|].
  split; [exact (pos_qty_process _ _ _ _ _ Ask Hok Hok' Pb Pa Hq H)|].
  destruct tr as [t|].
  - destruct (trade_on_uncrossed _ _ _ _ _ Hok Hun H) as [opp [cp [Hbp [_ [Hx _]]]]].
    split; [|discriminate]. intros _. exists opp. auto.
  - split; [intro C; contradiction|].
    intro C. exfalso. exact (rest_on_consistent _ _ _ _ Hok Hun H C).
Qed.

Lemma process_order2_trades_iff_crossing_witness :
  exists tr ex',
    Exchange.process_order2 ex_S01 2 (B01_bid 2 0) = Ret (tr, ex') /\
    pos_qty (Exchange.bids ex') /\ pos_qty (Exchange.asks ex') /\
    (tr <> None <->
     exists opp, OH.best_price (Exchange.asks ex_S01) = Some opp /\ 60 >= opp).
Proof.
  apply (process_order2_trades_iff_crossing ex_S01 2 (B01_bid 2 0) reachable_ex_S01).
  - constructor.
  - repeat constructor.
  - reflexivity.
Defined.

(** X10: what a trade takes off the book.  In a state the exchange
    reaches, when [process_order2] returns a trade, its price is the
    best price of the opposite side, its first party the owner of that
    best order and its second the submitter, and its quantity is the
    incoming order's, whatever the resting order's quantity was.  The
    counterparty's order leaves the opposite side whole, and the
    submitter is left with no order on its own side: the new order and
    any earlier quote of it are both gone. *)
Theorem process_order2_trade_clears_both : forall ex time order t ex',
    reachable ex ->
    Exchange.process_order2 ex time order = Ret (Some t, ex') ->
    exists opp cp,
      OH.best_price (opp_side ex (otype order)) = Some opp /\
      OH.best_tid (opp_side ex (otype order)) = Some cp /\
      t = Exchange.mkTrade time opp cp (tid order) (qty order) /\
      OH.orders (opp_side ex' (otype order)) =
      dict_del String.eqb cp (OH.orders (opp_side ex (otype order))) /\
      OH.orders (own_side ex' (otype order)) =
      dict_del String.eqb (tid order) (OH.orders (own_side ex (otype order))) /\
      resting ex' (otype order) (tid order) = None.
Proof.
  intros ex time order t ex' Hr H. destruct (reachable_inv _ Hr) as [Hok Hun].
  destruct (trade_on_uncrossed _ _ _ _ _ Hok Hun H)
    as [opp [cp [Hbp [Hbt [_ [Ht [Hp Ho]]]]]]].
  exists opp, cp. repeat (split; [assumption|]).
  unfold resting. rewrite Ho. apply (dict_del_absent String.eqb Seqb_spec').
  destruct (own_side_ok ex (otype order) Hok) as [[_ [_ [_ Hnd]]] _]. assumption.
Qed.

Lemma process_order2_trade_clears_both_witness :
  exists opp cp,
    OH.best_price (Exchange.asks ex_S01) = Some opp /\
    OH.best_tid (Exchange.asks ex_S01) = Some cp /\
    Exchange.mkTrade 2 50 "S01" "B01" 1 = Exchange.mkTrade 2 opp cp "B01" 1 /\
    OH.orders (Exchange.asks ex_traded) =
    dict_del String.eqb cp (OH.orders (Exchange.asks ex_S01)) /\
    OH.orders (Exchange.bids ex_traded) =
    dict_del String.eqb "B01"%string (OH.orders (Exchange.bids ex_S01)) /\
    resting ex_traded Bid "B01"%string = None.
Proof.
  apply (process_order2_trade_clears_both ex_S01 2 (B01_bid 2 0)
           (Exchange.mkTrade 2 50 "S01" "B01" 1) ex_traded reachable_ex_S01).
  vm_compute. reflexivity.
Defined.

(** X11: a trader can trade with itself.  In a state the exchange
    reaches, with positive quantities, if the owner of the best order
    of the opposite side is the submitter itself and the order's price
    crosses that best price, [process_order2] executes the trade all
    the same: both parties of the record are the submitter, and it is
    left with no order on either side. *)
Theorem self_trade_is_executed : forall ex time order opp,
    reachable ex ->
    pos_qty (Exchange.bids ex) -> pos_qty (Exchange.asks ex) -> 0 < qty order ->
    OH.best_price (opp_side ex (otype order)) = Some opp ->
    OH.best_tid (opp_side ex (otype order)) = Some (tid order) ->
    crosses (otype order) (price order) opp ->
    exists ex',
      Exchange.process_order2 ex time order =
      Ret (Some (Exchange.mkTrade time opp (tid order) (tid order) (qty order)), ex') /\
      resting ex' Bid (tid order) = None /\ resting ex' Ask (tid order) = None.
Proof.
  intros ex time order opp Hr Pb Pa Hq Hbp Hbt Hx.
  destruct (reachable_inv _ Hr) as [Hok Hun].
  destruct (process_total ex time order Hok Pb Pa Hq) as [tr [ex' H]].
  destruct tr as [t|].
  - destruct (trade_on_uncrossed _ _ _ _ _ Hok Hun H)
      as [opp' [cp [Hbp' [Hbt' [_ [Ht [Hp Ho]]]]]]].
    rewrite Hbp in Hbp'. injection Hbp' as <-.
    rewrite Hbt in Hbt'. injection Hbt' as <-. subst t.
    exists ex'. split; [assumption|].
    assert (Hown : resting ex' (otype order) (tid order) = None).
    { unfold resting. rewrite Ho. apply (dict_del_absent String.eqb Seqb_spec').
      destruct (own_side_ok ex (otype order) Hok) as [[_ [_ [_ Hnd]]] _]. assumption. }
    assert (Hopp : dict_get String.eqb (tid order)
                            (OH.orders (opp_side ex' (otype order))) = None).
    { rewrite Hp. apply (dict_del_absent String.eqb Seqb_spec').
      destruct (opp_side_ok ex (otype order) Hok) as [_ [_ [_ Hnd]]]. assumption. }
    unfold resting in *. destruct (otype order); cbn [own_side opp_side] in *; auto.
  - exfalso. apply (rest_on_consistent _ _ _ _ Hok Hun H). exists opp. auto.
Qed.

Lemma self_trade_is_executed_witness :
  exists ex',
    Exchange.process_order2 ex_S01 2 S01_bid60 =
    Ret (Some (Exchange.mkTrade 2 50 "S01" "S01" 1), ex') /\
    resting ex' Bid "S01"%string = None /\ resting ex' Ask "S01"%string = None.
Proof.
  apply (self_trade_is_executed ex_S01 2 S01_bid60 50 reachable_ex_S01).
  - constructor.
  - repeat constructor.
  - reflexivity.
  - reflexivity.
  - reflexivity.
  - cbn. lia.
Defined.

(** X12: [delete_best] on an empty side.  On a consistent side with
    positive quantities [delete_best] raises [KeyError] exactly when
    the side holds no order; it raises nothing else, and on a
    non-empty side it returns with one order fewer. *)
Theorem delete_best_raises_iff_empty : forall h,
    half_ok h -> pos_qty h ->
    (OH.orders h = [] -> OH.delete_best h = Raise KeyError) /\
    (OH.orders h <> [] ->
     exists c h', OH.delete_best h = Ret (c, h') /\
                  OH.best_tid h = Some c /\
                  OH.n_orders h' = OH.n_orders h - 1 /\
                  len (OH.orders h') = len (OH.orders h) - 1).
Proof.
  intros h Hok Hp. split.
  - intro E. destruct (half_ok_empty_best h Hok E) as [Hb _].
    unfold OH.delete_best. rewrite Hb. reflexivity.
  - intro Hne.
    destruct (delete_best_total h Hok Hne Hp)
      as [p [o [rest [d [_ [Hbt [_ [_ [Hg Hd]]]]]]]]].
    exists (tid o), (after_delete h (tid o) d).
    split; [assumption|]. split; [assumption|].
    destruct (after_delete_fields h (tid o) d) as [Ho [_ [_ [Hn _]]]].
    split; [assumption|]. rewrite Ho.
    eapply (dict_del_len String.eqb). eassumption.
Qed.

Lemma delete_best_raises_iff_empty_witness :
  (OH.orders h_one = [] -> OH.delete_best h_one = Raise KeyError) /\
  (OH.orders h_one <> [] ->
   exists c h', OH.delete_best h_one = Ret (c, h') /\
                OH.best_tid h_one = Some c /\
                OH.n_orders h' = OH.n_orders h_one - 1 /\
                len (OH.orders h') = len (OH.orders h_one) - 1).
Proof.
  apply (delete_best_raises_iff_empty h_one h_one_ok). repeat constructor.
Defined.

(** X13: the best price is the extreme one.  In every state the
    exchange reaches, a side with no order has no best price and no
    best owner; otherwise its best price is the highest resting price
    for the bids and the lowest for the asks, and the best owner holds
    an order at that price. *)
Theorem reachable_best_is_extreme : forall ex s,
    reachable ex ->
    match OH.best_price (own_side ex s) with
    | None =>
        OH.orders (own_side ex s) = [] /\ OH.best_tid (own_side ex s) = None
    | Some p =>
        is_best s p (dict_values (OH.orders (own_side ex s))) /\
        exists c o, OH.best_tid (own_side ex s) = Some c /\
                    resting ex s c = Some o /\ price o = p
    end.
Proof.
  intros ex s Hr. destruct (reachable_inv _ Hr) as [Hok _].
  destruct (own_side_ok ex s Hok) as [Hh Hbt].
  destruct (OH.orders (own_side ex s)) as [|kv l] eqn:Eo.
  - destruct (half_ok_empty_best _ Hh Eo) as [-> ->]. auto.
  - assert (Hne : OH.orders (own_side ex s) <> []) by (rewrite Eo; discriminate).
    destruct (delete_best_cases _ Hh Hne)
      as [p [o [rest [Hbp [Hbtid [Hbest [Hat [Hget _]]]]]]]].
    rewrite Hbp. rewrite Hbt in Hbest. rewrite <- Eo. split; [assumption|].
    exists (tid o), o. split; [assumption|]. split; [assumption|].
    exact (proj2 (at_price_head _ _ _ _ Hat)).
Qed.

Lemma reachable_best_is_extreme_witness :
  is_best Bid 40 (dict_values (OH.orders (Exchange.bids ex_requote))) /\
  exists c o, OH.best_tid (Exchange.bids ex_requote) = Some c /\
              resting ex_requote Bid c = Some o /\ price o = 40.
Proof.
  exact (reachable_best_is_extreme ex_requote Bid reachable_ex_requote).
Defined.

(** X14: no exception with positive quantities.  Any sequence of
    [process_order2] and [del_order] calls, started on the empty
    exchange, in which every submitted order has a positive quantity,
    runs to its end: no call raises, and the book it leaves is
    consistent and uncrossed. *)
Theorem run_never_raises : forall cs,
    Forall positive_call cs ->
    exists ex', run Exchange.init cs = Ret ex' /\ ex_ok ex' /\ uncrossed ex'.
Proof.
  intros cs Hall. destruct init_ok as [Hok Hun].
  destruct (run_total cs Exchange.init Hok Hun) as [ex' [H [Hok' [Hun' _]]]];
    [constructor | constructor | assumption |].
  exists ex'. auto.
Qed.

Lemma run_never_raises_witness :
  exists ex', run Exchange.init calls_example = Ret ex' /\ ex_ok ex' /\ uncrossed ex'.
Proof.
  apply (run_never_raises calls_example). repeat constructor.
Defined.

Lemma NoDup_snoc : forall (A : Type) (l : list A) a,
    NoDup l -> ~ In a l -> NoDup (l ++ [a]).
Proof.
  intros A l a. induction l as [|x r IH]; intros Hnd Hni; cbn.
  - constructor; [intros []|constructor].
  - inversion Hnd; subst. constructor.
    + rewrite in_app_iff. intros [Hi | [Hi | []]]; [contradiction|].
      subst. apply Hni. left. reflexivity.
    + apply IH; [assumption|]. intro Hi. apply Hni. right. assumption.
Qed.

Lemma dict_set_NoDup_Z : forall (V : Type) k (v : V) d,
    NoDup (dict_keys d) -> NoDup (dict_keys (dict_set Z.eqb k v d)).
Proof.
  intros V k v d Hnd. destruct (dict_get Z.eqb k d) eqn:E.
  - rewrite (dict_set_keys_present Z.eqb k v _ d E). assumption.
  - rewrite (dict_set_absent Z.eqb _ _ _ E). unfold dict_keys. rewrite map_app.
    cbn. apply NoDup_snoc; [assumption|].
    intro Hin. apply (dict_get_keys Z.eqb Zeqb_spec') in Hin. contradiction.
Qed.

Lemma lob_of_NoDup : forall os, NoDup (dict_keys (lob_of os)).
Proof.
  intro os. unfold lob_of.
  assert (G : forall acc, NoDup (dict_keys acc) ->
                          NoDup (dict_keys (fold_left OH.lob_add os acc))).
  { induction os as [|o r IH]; intros acc Hacc; cbn; [assumption|].
    apply IH. unfold OH.lob_add.
    destruct (dict_get Z.eqb (price o) acc) as [[q ol]|]; apply dict_set_NoDup_Z;
      assumption. }
  apply G. constructor.
Qed.

Lemma insert_item_sorted : forall (V : Type) (it : Z * V) s,
    StronglySorted (fun a b => fst a < fst b) s ->
    ~ In (fst it) (map fst s) ->
    StronglySorted (fun a b => fst a < fst b) (insert_item it s).
Proof.
  intros V it s. induction s as [|x r IH]; intros Hs Hni; cbn.
  - constructor; constructor.
  - inversion Hs as [|x' r' Hr Hx]; subst.
    assert (Hne : fst it <> fst x) by (intro E; apply Hni; left; auto).
    destruct (fst it <=? fst x) eqn:E.
    + apply Z.leb_le in E. constructor; [assumption|].
      constructor; [lia|]. rewrite Forall_forall in *. intros y Hy.
      specialize (Hx y Hy). lia.
    + apply Z.leb_gt in E. constructor.
      * apply IH; [assumption|]. intro Hin. apply Hni. right. assumption.
      * rewrite Forall_forall in *. intros y Hy. rewrite insert_item_In in Hy.
        destruct Hy as [-> | Hy]; [lia | auto].
Qed.

Lemma sorted_items_sorted : forall (V : Type) (l : list (Z * V)),
    NoDup (map fst l) ->
    StronglySorted (fun a b => fst a < fst b) (sorted_items l).
Proof.
  intros V l. induction l as [|x r IH]; intro Hnd; cbn.
  - constructor.
  - inversion Hnd; subst. apply insert_item_sorted; [auto|].
    intro Hin. apply in_map_iff in Hin. destruct Hin as [y [Ey Hy]].
    pose proof (proj1 (sorted_items_In V y r) Hy) as Hy'.
    apply H1. rewrite <- Ey. apply in_map. assumption.
Qed.

Lemma sorted_map_fst : forall (A B : Type) (f : Z * A -> Z * B) l,
    (forall x, fst (f x) = fst x) ->
    StronglySorted (fun a b => fst a < fst b) l ->
    StronglySorted (fun a b => fst a < fst b) (map f l).
Proof.
  intros A B f l Hf. induction 1 as [|x r Hr IH Hx]; cbn; constructor.
  - assumption.
  - rewrite Forall_forall in *. intros y Hy. apply in_map_iff in Hy.
    destruct Hy as [z [<- Hz]]. rewrite !Hf. auto.
Qed.

Lemma sum_qty_cons : forall o r, sum_qty (o :: r) = qty o + sum_qty r.
Proof. reflexivity. Qed.

(** What the anonymized book of a list of orders holds. *)
Lemma anonymize_lob_levels : forall os,
    StronglySorted (fun a b => fst a < fst b) (OH.anonymize_lob (lob_of os)) /\
    (forall p q, In (p, q) (OH.anonymize_lob (lob_of os)) <->
                 In p (map price os) /\ q = sum_qty (at_price p os)).
Proof.
  intro os. split.
  - unfold OH.anonymize_lob. apply sorted_map_fst; [reflexivity|].
    apply sorted_items_sorted. apply lob_of_NoDup.
  - intros p q. unfold OH.anonymize_lob. rewrite in_map_iff. split.
    + intros [[p' [q' ol]] [E Hin]]. cbn in E. injection E as -> ->.
      rewrite sorted_items_In in Hin.
      apply (dict_get_NoDup Z.eqb Zeqb_spec') in Hin; [|apply lob_of_NoDup].
      rewrite lob_get, level_merge_none in Hin.
      destruct (at_price p os) as [|o r] eqn:Ea; [discriminate|].
      injection Hin as <- _. split; [|reflexivity].
      apply at_price_nonempty. rewrite Ea. discriminate.
    + intros [Hin ->]. apply at_price_nonempty in Hin.
      destruct (at_price p os) as [|o r] eqn:Ea; [contradiction|].
      exists (p, (qty o + sum_qty r, OH.entry_of o :: map OH.entry_of r)).
      split; [reflexivity|]. rewrite sorted_items_In.
      apply (dict_get_In Z.eqb Zeqb_spec').
      rewrite lob_get, level_merge_none, Ea. reflexivity.
Qed.

(** X15: the published book.  In every state the exchange reaches,
    the anonymized book of a side lists the prices at which an order
    rests, each once and in strictly ascending order, each with the
    total quantity of the orders resting at that price. *)
Theorem reachable_lob_anon_levels : forall ex s,
    reachable ex ->
    StronglySorted (fun a b => fst a < fst b) (OH.lob_anon (own_side ex s)) /\
    (forall p q,
        In (p, q) (OH.lob_anon (own_side ex s)) <->
        In p (map price (dict_values (OH.orders (own_side ex s)))) /\
        q = sum_qty (at_price p (dict_values (OH.orders (own_side ex s))))).
Proof.
  intros ex s Hr. destruct (reachable_inv _ Hr) as [Hok _].
  destruct (own_side_ok ex s Hok) as [Hh _].
  destruct (half_ok_fields _ Hh) as [_ [-> _]].
  apply anonymize_lob_levels.
Qed.

Lemma reachable_lob_anon_levels_witness :
  StronglySorted (fun a b => fst a < fst b) (OH.lob_anon (Exchange.bids ex_requote)) /\
  (forall p q,
      In (p, q) (OH.lob_anon (Exchange.bids ex_requote)) <->
      In p (map price (dict_values (OH.orders (Exchange.bids ex_requote)))) /\
      q = sum_qty (at_price p (dict_values (OH.orders (Exchange.bids ex_requote))))).
Proof.
  exact (reachable_lob_anon_levels ex_requote Bid reachable_ex_requote).
Defined.

(* ================================================================= *)
(** ** Shaver and Sniper *)

Lemma shaved_quote_cases : forall ot limit b shave,
    let q := match ot with
             | Bid => if b + shave >? limit then limit else b + shave
             | Ask => if b - shave <? limit then limit else b - shave
             end in
    within_limit ot limit q /\
    (within_limit ot limit (shaved ot b shave) -> q = shaved ot b shave) /\
    (~ within_limit ot limit (shaved ot b shave) -> q = limit).
Proof.
  intros ot limit b shave. destruct ot; cbn.
  - destruct (b + shave >? limit) eqn:E.
    + apply Z.gtb_lt in E. repeat split; try lia.
    + rewrite Z.gtb_ltb in E. apply Z.ltb_ge in E. repeat split; try lia.
  - destruct (b - shave <? limit) eqn:E.
    + apply Z.ltb_lt in E. repeat split; try lia.
    + apply Z.ltb_ge in E. repeat split; try lia.
Qed.

(** X16: the Shaver keeps to its limit.  Holding a customer order,
    and given published data in which its own side, when not empty,
    has a best price and in which the stub price of that side is
    within the limit, the Shaver always quotes, and at a price within
    the limit: one tick better than the best price of its side when
    that is within the limit, the limit itself when it is not, and the
    stub price when the side is empty. *)
Theorem shaver_quote_within_limit : forall tr time countdown lob o rest,
    Trader.orders tr = o :: rest ->
    (0 < Published.n (side_of lob (otype o)) ->
     Published.best (side_of lob (otype o)) <> None) ->
    within_limit (otype o) (price o) (Published.worst (side_of lob (otype o))) ->
    exists order,
      Trader_Shaver.getorder tr time countdown lob =
      Ret (Some order, Trader.set_lastquote tr (Some order)) /\
      within_limit (otype o) (price o) (price order) /\
      (forall b, 0 < Published.n (side_of lob (otype o)) ->
                 Published.best (side_of lob (otype o)) = Some b ->
                 (within_limit (otype o) (price o) (shaved (otype o) b 1) ->
                  price order = shaved (otype o) b 1) /\
                 (~ within_limit (otype o) (price o) (shaved (otype o) b 1) ->
                  price order = price o)) /\
      (Published.n (side_of lob (otype o)) <= 0 ->
       price order = Published.worst (side_of lob (otype o))) /\
      otype order = otype o /\ qty order = qty o /\
      tid order = Trader.tid tr /\ qid order = Published.QID lob.
Proof.
  intros tr time countdown lob o rest Ho Hbest Hworst.
  unfold Trader_Shaver.getorder. rewrite Ho.
  destruct (otype o) eqn:Hot; cbn [side_of] in *.
  - destruct (0 <? Published.n (Published.pd_bids lob)) eqn:En.
    + apply Z.ltb_lt in En.
      destruct (Published.best (Published.pd_bids lob)) as [b|] eqn:Eb;
        [|exfalso; apply (Hbest En); reflexivity].
      cbn [of_option bind].
      destruct (shaved_quote_cases Bid (price o) b 1) as [H1 [H2 H3]].
      eexists. split; [reflexivity|]. cbn [price otype qty tid qid].
      split; [exact H1|]. split.
      { intros b' _ Eb'. injection Eb' as <-. split; assumption. }
      split; [lia|]. auto.
    + apply Z.ltb_ge in En. cbn [bind].
      eexists. split; [reflexivity|]. cbn [price otype qty tid qid].
      split; [exact Hworst|]. split; [intros; lia|]. auto.
  - destruct (0 <? Published.n (Published.pd_asks lob)) eqn:En.
    + apply Z.ltb_lt in En.
      destruct (Published.best (Published.pd_asks lob)) as [b|] eqn:Eb;
        [|exfalso; apply (Hbest En); reflexivity].
      cbn [of_option bind].
      destruct (shaved_quote_cases Ask (price o) b 1) as [H1 [H2 H3]].
      eexists. split; [reflexivity|]. cbn [price otype qty tid qid].
      split; [exact H1|]. split.
      { intros b' _ Eb'. injection Eb' as <-. split; assumption. }
      split; [lia|]. auto.
    + apply Z.ltb_ge in En. cbn [bind].
      eexists. split; [reflexivity|]. cbn [price otype qty tid qid].
      split; [exact Hworst|]. split; [intros; lia|]. auto.
Qed.

Lemma shaver_quote_within_limit_witness :
  exists order,
    Trader_Shaver.getorder shaver_B01 3 1 lob_S01_B02 =
    Ret (Some order, Trader.set_lastquote shaver_B01 (Some order)) /\
    price order <= 60 /\
    (forall b, 0 < Published.n (Published.pd_bids lob_S01_B02) ->
               Published.best (Published.pd_bids lob_S01_B02) = Some b ->
               (b + 1 <= 60 -> price order = b + 1) /\
               (~ b + 1 <= 60 -> price order = 60)) /\
    (Published.n (Published.pd_bids lob_S01_B02) <= 0 ->
     price order = Published.worst (Published.pd_bids lob_S01_B02)) /\
    otype order = Bid /\ qty order = 1 /\
    tid order = "B01"%string /\ qid order = Published.QID lob_S01_B02.
Proof.
  apply (shaver_quote_within_limit shaver_B01 3 1 lob_S01_B02 B01_limit60 []).
  - reflexivity.
  - intros _. discriminate.
  - cbn. lia.
Defined.

Lemma Qlt_bool_iff : forall a b : Q, Qlt_bool a b = true <-> (a < b)%Q.
Proof.
  intros a b. unfold Qlt_bool. rewrite Bool.negb_true_iff.
  split.
  - intro H. apply Qnot_le_lt. intro C. apply Qle_bool_iff in C. congruence.
  - intro H. destruct (Qle_bool b a) eqn:E; [|reflexivity].
    apply Qle_bool_iff in E. exfalso. apply (Qlt_not_le _ _ H E).
Qed.

Lemma Qlt_bool_false : forall a b : Q, Qlt_bool a b = false <-> (b <= a)%Q.
Proof.
  intros a b. unfold Qlt_bool. rewrite Bool.negb_false_iff. apply Qle_bool_iff.
Qed.

Lemma shave_eq : forall c,
    Trader_Sniper.shave c =
    if Qeq_bool ((1 # 100) + c / (inject_Z 3 * (2 # 10))) 0
    then Raise ZeroDivisionError
    else Ret (py_int (shave_arg c)).
Proof.
  intro c. unfold Trader_Sniper.shave, shave_arg.
  rewrite truediv_nonzero by (intro H; discriminate H).
  cbn [bind]. unfold truediv at 1.
  change (inject_Z Trader_Sniper.shavegrowthrate * Trader_Sniper.lurk_threshold)%Q
    with (inject_Z 3 * (2 # 10))%Q.
  destruct (Qeq_bool ((1 # 100) + c / (inject_Z 3 * (2 # 10))) 0); reflexivity.
Qed.

Lemma shave_den_bounds : forall c,
    (0 <= c)%Q ->
    ((1 # 100) <= (1 # 100) + c / (inject_Z 3 * (2 # 10)))%Q /\
    ((c <= 2 # 10)%Q ->
     ((1 # 100) + c / (inject_Z 3 * (2 # 10)) <= 103 # 300)%Q).
Proof.
  intros c Hc.
  assert (E : (c / (inject_Z 3 * (2 # 10)) == c * (5 # 3))%Q) by (field).
  rewrite E. split; [lra|]. intro H. lra.
Qed.

Lemma shave_arg_bounds : forall c,
    (0 <= c)%Q -> (c <= 2 # 10)%Q ->
    (inject_Z 2 <= shave_arg c)%Q /\ (shave_arg c <= inject_Z 100)%Q.
Proof.
  intros c Hc Hc2. destruct (shave_den_bounds c Hc) as [H1 H2].
  specialize (H2 Hc2). unfold shave_arg.
  set (d := ((1 # 100) + c / (inject_Z 3 * (2 # 10)))%Q) in *.
  assert (Hd : (0 < d)%Q) by lra.
  split.
  - apply Qle_shift_div_l; [assumption|]. change (inject_Z 2) with (2 # 1). lra.
  - apply Qle_shift_div_r; [assumption|]. change (inject_Z 100) with (100 # 1). lra.
Qed.

Lemma shave_arg_antitone : forall c c',
    (0 <= c)%Q -> (c <= c')%Q -> (shave_arg c' <= shave_arg c)%Q.
Proof.
  intros c c' Hc Hcc. unfold shave_arg.
  destruct (shave_den_bounds c Hc) as [H1 _].
  destruct (shave_den_bounds c' ltac:(lra)) as [H1' _].
  assert (E : (c / (inject_Z 3 * (2 # 10)) == c * (5 # 3))%Q) by (field).
  assert (E' : (c' / (inject_Z 3 * (2 # 10)) == c' * (5 # 3))%Q) by (field).
  set (d := ((1 # 100) + c / (inject_Z 3 * (2 # 10)))%Q) in *.
  set (d' := ((1 # 100) + c' / (inject_Z 3 * (2 # 10)))%Q) in *.
  assert (Hd : (0 < d)%Q) by lra.
  assert (Hd' : (0 < d')%Q) by lra.
  assert (Hdd : (d <= d')%Q) by (unfold d, d'; rewrite E, E'; lra).
  apply Qle_shift_div_r; [assumption|].
  assert (Hx : (1 / d * d == 1)%Q) by (field; lra).
  rewrite <- Hx at 1. apply Qmult_le_l.
  - apply Qlt_shift_div_l; [assumption|]. lra.
  - assumption.
Qed.

Lemma shave_returns : forall c,
    (0 <= c)%Q ->
    Trader_Sniper.shave c = Ret (Qfloor (shave_arg c)) /\
    0 <= Qfloor (shave_arg c) <= 100 /\
    ((c <= 2 # 10)%Q -> 2 <= Qfloor (shave_arg c)).
Proof.
  intros c Hc. destruct (shave_den_bounds c Hc) as [H1 _].
  assert (Hpos : (0 <= shave_arg c)%Q).
  { unfold shave_arg. apply Qle_shift_div_l; lra. }
  split.
  - rewrite shave_eq.
    destruct (Qeq_bool ((1 # 100) + c / (inject_Z 3 * (2 # 10))) 0) eqn:E.
    + apply Qeq_bool_iff in E. lra.
    + rewrite py_int_nonneg by assumption. reflexivity.
  - split.
    + split.
      * rewrite <- (Qfloor_Z 0). apply Qfloor_resp_le. exact Hpos.
      * rewrite <- (Qfloor_Z 100). apply Qfloor_resp_le.
        unfold shave_arg. apply Qle_shift_div_r; [lra|].
        change (inject_Z 100) with (100 # 1). lra.
    + intro Hc2. rewrite <- (Qfloor_Z 2). apply Qfloor_resp_le.
      apply shave_arg_bounds; assumption.
Qed.

(** X17: how much the Sniper shaves.  For a countdown that is not
    negative [shave] returns, between 0 and 100 ticks, at least 2 ticks
    once the countdown is at most the lurking threshold 0.2, and it
    never gets smaller as the countdown runs down.  (Nothing is said of
    negative countdowns, where the denominator passes through zero.) *)
Theorem sniper_shave_grows_as_time_runs_out :
  (forall c, (0 <= c)%Q ->
             exists s, Trader_Sniper.shave c = Ret s /\ 0 <= s <= 100 /\
                       ((c <= Trader_Sniper.lurk_threshold)%Q -> 2 <= s)) /\
  (forall c c' s s',
      (0 <= c)%Q -> (c <= c')%Q ->
      Trader_Sniper.shave c = Ret s -> Trader_Sniper.shave c' = Ret s' -> s' <= s).
Proof.
  split.
  - intros c Hc. destruct (shave_returns c Hc) as [H1 [H2 H3]].
    exists (Qfloor (shave_arg c)). auto.
  - intros c c' s s' Hc Hcc Hs Hs'.
    destruct (shave_returns c Hc) as [H1 _].
    destruct (shave_returns c' ltac:(lra)) as [H1' _].
    assert (Es : s = Qfloor (shave_arg c)) by congruence.
    assert (Es' : s' = Qfloor (shave_arg c')) by congruence.
    rewrite Es, Es'. apply Qfloor_resp_le. apply shave_arg_antitone; assumption.
Qed.

Lemma sniper_shave_grows_as_time_runs_out_witness :
  exists s, Trader_Sniper.shave (1 # 10) = Ret s /\ 0 <= s <= 100 /\
            ((1 # 10 <= Trader_Sniper.lurk_threshold)%Q -> 2 <= s).
Proof.
  apply (proj1 sniper_shave_grows_as_time_runs_out (1 # 10)).
  unfold Qle. cbn. lia.
Defined.



(* ================================================================= *)
(** ** ZIP: quotes, margins and targets *)

Lemma round_half_even_cases : forall x,
    round_half_even x = Qfloor x \/
    (round_half_even x = Qfloor x + 1 /\ (1 # 2 <= x - inject_Z (Qfloor x))%Q).
Proof.
  intro x. unfold round_half_even.
  destruct (x - inject_Z (Qfloor x) ?= 1 # 2)%Q eqn:E.
  - apply Qeq_alt in E. destruct (Z.even (Qfloor x)); [left; reflexivity|].
    right. split; [reflexivity|]. rewrite E. apply Qle_refl.
  - left. reflexivity.
  - apply Qgt_alt in E. right. split; [reflexivity|]. apply Qlt_le_weak. assumption.
Qed.

Lemma round_half_even_le : forall x n,
    (x <= inject_Z n)%Q -> round_half_even x <= n.
Proof.
  intros x n H.
  assert (Hf : Qfloor x <= n).
  { rewrite <- (Qfloor_Z n). apply Qfloor_resp_le. assumption. }
  destruct (round_half_even_cases x) as [-> | [-> Hh]]; [assumption|].
  destruct (Z.eq_dec (Qfloor x) n) as [E | E]; [|lia].
  exfalso. rewrite E in Hh. lra.
Qed.

Lemma round_half_even_ge : forall x n,
    (inject_Z n <= x)%Q -> n <= round_half_even x.
Proof.
  intros x n H.
  assert (Hf : n <= Qfloor x).
  { rewrite <- (Qfloor_Z n). apply Qfloor_resp_le. assumption. }
  destruct (round_half_even_cases x) as [-> | [-> _]]; lia.
Qed.

Lemma py_int_le : forall x n, 0 <= n -> (x <= inject_Z n)%Q -> py_int x <= n.
Proof.
  intros x n Hn H. destruct (Qlt_le_dec x 0) as [Hx | Hx].
  - rewrite py_int_nonpos by (apply Qlt_le_weak; assumption).
    assert (Qceiling x <= Qceiling 0).
    { apply Qceiling_resp_le. apply Qlt_le_weak. assumption. }
    change (Qceiling 0) with 0 in H0. lia.
  - rewrite py_int_nonneg by assumption.
    rewrite <- (Qfloor_Z n). apply Qfloor_resp_le. assumption.
Qed.

Lemma py_int_ge : forall x n, 0 <= n -> (inject_Z n <= x)%Q -> n <= py_int x.
Proof.
  intros x n Hn H.
  assert (Hx : (0 <= x)%Q).
  { apply Qle_trans with (inject_Z n); [|assumption].
    change 0%Q with (inject_Z 0). rewrite <- Zle_Qle. assumption. }
  rewrite py_int_nonneg by assumption.
  rewrite <- (Qfloor_Z n). apply Qfloor_resp_le. assumption.
Qed.

Lemma scaled_limit_le : forall (l : Z) (m : Q),
    0 <= l -> (m <= 0)%Q -> (inject_Z l * (1 + m) <= inject_Z l)%Q.
Proof.
  intros l m Hl Hm.
  assert (H : (0 <= inject_Z l)%Q).
  { change 0%Q with (inject_Z 0). rewrite <- Zle_Qle. assumption. }
  nra.
Qed.

Lemma scaled_limit_ge : forall (l : Z) (m : Q),
    0 <= l -> (0 <= m)%Q -> (inject_Z l <= inject_Z l * (1 + m))%Q.
Proof.
  intros l m Hl Hm.
  assert (H : (0 <= inject_Z l)%Q).
  { change 0%Q with (inject_Z 0). rewrite <- Zle_Qle. assumption. }
  nra.
Qed.

(** X19: ZIP quotes within its limit.  Holding a customer order with
    a limit that is not negative, a ZIP trader whose buying margin is
    not positive and whose selling margin is not negative always
    quotes, and within the limit: a bid at or below it, an ask at or
    above it.  It then works that order: the job, the limit and the
    margin in use are those of the order's type. *)
Theorem zip_quote_within_limit : forall z time countdown lob o rest,
    Trader.orders (Trader_ZIP.super z) = o :: rest ->
    0 <= price o ->
    (Trader_ZIP.margin_buy z <= 0)%Q -> (0 <= Trader_ZIP.margin_sell z)%Q ->
    exists order z',
      Trader_ZIP.getorder z time countdown lob = (Some order, z') /\
      within_limit (otype o) (price o) (price order) /\
      Trader_ZIP.job z' = Some (otype o) /\
      Trader_ZIP.limit z' = Some (price o) /\
      Trader_ZIP.margin z' = Some (zip_margin z' (otype o)) /\
      Trader_ZIP.active z' = true /\
      Trader_ZIP.margin_buy z' = Trader_ZIP.margin_buy z /\
      Trader_ZIP.margin_sell z' = Trader_ZIP.margin_sell z.
Proof.
  intros z time countdown lob o rest Ho Hl Hb Hs.
  unfold Trader_ZIP.getorder. rewrite Ho. eexists. eexists.
  split; [reflexivity|]. cbn. unfold Trader_ZIP.order_price.
  split; [|destruct (otype o); auto 10].
  destruct (otype o); cbn.
  - apply py_int_le; [assumption|]. apply scaled_limit_le; assumption.
  - apply py_int_ge; [assumption|]. apply scaled_limit_ge; assumption.
Qed.

Lemma zip_quote_within_limit_witness :
  exists order z',
    Trader_ZIP.getorder zip_seller 1 1 lob_empty = (Some order, z') /\
    10 <= price order /\
    Trader_ZIP.job z' = Some Ask /\
    Trader_ZIP.limit z' = Some 10 /\
    Trader_ZIP.margin z' = Some (Trader_ZIP.margin_sell z') /\
    Trader_ZIP.active z' = true /\
    Trader_ZIP.margin_buy z' = Trader_ZIP.margin_buy zip_seller /\
    Trader_ZIP.margin_sell z' = Trader_ZIP.margin_sell zip_seller.
Proof.
  apply (zip_quote_within_limit zip_seller 1 1 lob_empty S01_limit10 []).
  - reflexivity.
  - cbn. lia.
  - unfold Qle. cbn. lia.
  - unfold Qle. cbn. lia.
Defined.

Ltac zip_split :=
  split; [|split; [|split; [reflexivity|split; [reflexivity|split;
    [reflexivity|split; [reflexivity|split]]]]]].

(** X20: the learning step of ZIP keeps the margins on their side.
    When [profit_alter] returns, a negative buying margin is still
    negative and a positive selling margin still positive; the job,
    the limit and the order being worked are untouched; if the margin
    in use was that of the job it still is; and with a limit that is
    not negative the new price is within it: at or below the limit for
    a buyer, at or above it for a seller.  With a limit of zero
    [profit_alter] raises [ZeroDivisionError]. *)
Theorem profit_alter_keeps_margin_signs : forall z price,
    (Trader_ZIP.margin_buy (ZIP_respond.zip z) < 0)%Q ->
    (0 < Trader_ZIP.margin_sell (ZIP_respond.zip z))%Q ->
    (forall j, Trader_ZIP.job (ZIP_respond.zip z) = Some j ->
               Trader_ZIP.margin (ZIP_respond.zip z) =
               Some (zip_margin (ZIP_respond.zip z) j)) ->
    (forall z',
        ZIP_respond.profit_alter z price = Ret z' ->
        let x := ZIP_respond.zip z in
        let x' := ZIP_respond.zip z' in
        (Trader_ZIP.margin_buy x' < 0)%Q /\ (0 < Trader_ZIP.margin_sell x')%Q /\
        Trader_ZIP.job x' = Trader_ZIP.job x /\
        Trader_ZIP.limit x' = Trader_ZIP.limit x /\
        Trader_ZIP.super x' = Trader_ZIP.super x /\
        Trader_ZIP.active x' = Trader_ZIP.active x /\
        (forall j, Trader_ZIP.job x' = Some j ->
                   Trader_ZIP.margin x' = Some (zip_margin x' j)) /\
        (forall j l, Trader_ZIP.job x = Some j -> Trader_ZIP.limit x = Some l ->
                     0 <= l ->
                     exists p, Trader_ZIP.price x' = Some p /\ within_limit j l p))
    /\
    (Trader_ZIP.price (ZIP_respond.zip z) <> None ->
     Trader_ZIP.limit (ZIP_respond.zip z) = Some 0 ->
     ZIP_respond.profit_alter z price = Raise ZeroDivisionError).
Proof.
  intros z price Hb Hs Hco. split.
  - intros z' H. unfold ZIP_respond.profit_alter in H.
    destruct (Trader_ZIP.price (ZIP_respond.zip z)) as [oldprice|] eqn:Ep;
      [|discriminate]. cbn [of_option bind] in H. cbv zeta in H.
    cbn [ZIP_respond.zip ZIP_respond.set_prev_change] in H.
    destruct (Trader_ZIP.limit (ZIP_respond.zip z)) as [l|] eqn:El;
      [|discriminate]. cbn [of_option bind] in H.
    destruct (truediv _ (inject_Z l)) as [q|] eqn:Eq; [|discriminate].
    cbn [bind] in H.
    set (nm := (q - 1)%Q) in *.
    destruct (Trader_ZIP.job (ZIP_respond.zip z)) as [[|]|] eqn:Ej.
    + (* buyer *)
      destruct (Qlt_bool nm 0) eqn:En.
      * apply Qlt_bool_iff in En.
        cbn [ZIP_respond.set_margin_buy Trader_ZIP.margin of_option bind] in H.
        injection H as <-. cbn. zip_split; try assumption.
        { intros j Hj. rewrite Ej in Hj. injection Hj as <-. reflexivity. }
        intros j l' Hj Hl' Hl0. rewrite Ej in Hj. injection Hj as <-.
        rewrite El in Hl'.
        injection Hl' as <-.
        eexists. split; [reflexivity|]. cbn. unfold py_round.
        apply round_half_even_le. apply scaled_limit_le; [assumption|].
        apply Qlt_le_weak. assumption.
      * rewrite (Hco Bid eq_refl) in H. cbn [of_option bind zip_margin] in H.
        injection H as <-. cbn. zip_split; try assumption.
        { intros j Hj. rewrite Ej in Hj. injection Hj as <-. apply (Hco Bid eq_refl). }
        intros j l' Hj Hl' Hl0. rewrite Ej in Hj. injection Hj as <-.
        rewrite El in Hl'.
        injection Hl' as <-.
        eexists. split; [reflexivity|]. cbn. unfold py_round.
        apply round_half_even_le. apply scaled_limit_le; [assumption|].
        apply Qlt_le_weak. assumption.
    + (* seller *)
      destruct (Qlt_bool 0 nm) eqn:En.
      * apply Qlt_bool_iff in En.
        cbn [ZIP_respond.set_margin_sell Trader_ZIP.margin of_option bind] in H.
        injection H as <-. cbn. zip_split; try assumption.
        { intros j Hj. rewrite Ej in Hj. injection Hj as <-. reflexivity. }
        intros j l' Hj Hl' Hl0. rewrite Ej in Hj. injection Hj as <-.
        rewrite El in Hl'.
        injection Hl' as <-.
        eexists. split; [reflexivity|]. cbn. unfold py_round.
        apply round_half_even_ge. apply scaled_limit_ge; [assumption|].
        apply Qlt_le_weak. assumption.
      * rewrite (Hco Ask eq_refl) in H. cbn [of_option bind zip_margin] in H.
        injection H as <-. cbn. zip_split; try assumption.
        { intros j Hj. rewrite Ej in Hj. injection Hj as <-. apply (Hco Ask eq_refl). }
        intros j l' Hj Hl' Hl0. rewrite Ej in Hj. injection Hj as <-.
        rewrite El in Hl'.
        injection Hl' as <-.
        eexists. split; [reflexivity|]. cbn. unfold py_round.
        apply round_half_even_ge. apply scaled_limit_ge; [assumption|].
        apply Qlt_le_weak. assumption.
    + (* no job: the seller's branch *)
      destruct (Qlt_bool 0 nm) eqn:En.
      * apply Qlt_bool_iff in En.
        cbn [ZIP_respond.set_margin_sell Trader_ZIP.margin of_option bind] in H.
        injection H as <-. cbn. zip_split; try assumption.
        { intros j Hj. rewrite Ej in Hj. discriminate. }
        intros j l' Hj. rewrite Ej in Hj. discriminate.
      * destruct (Trader_ZIP.margin (ZIP_respond.zip z)) as [m|] eqn:Em;
          [|discriminate]. cbn [of_option bind] in H.
        injection H as <-. cbn. zip_split; try assumption.
        { intros j Hj. rewrite Ej in Hj. discriminate. }
        intros j l' Hj. rewrite Ej in Hj. discriminate.
  - intros Hp Hl. unfold ZIP_respond.profit_alter.
    destruct (Trader_ZIP.price (ZIP_respond.zip z)) as [oldprice|];
      [|contradiction]. cbn [of_option bind]. cbv zeta.
    cbn [ZIP_respond.zip ZIP_respond.set_prev_change]. rewrite Hl.
    cbn [of_option bind]. rewrite truediv_zero by reflexivity. reflexivity.
Qed.

Lemma profit_alter_keeps_margin_signs_witness :
  let x := ZIP_respond.zip zip_learner in
  let x' := ZIP_respond.zip zip_learner_12 in
  (Trader_ZIP.margin_buy x' < 0)%Q /\ (0 < Trader_ZIP.margin_sell x')%Q /\
  Trader_ZIP.job x' = Trader_ZIP.job x /\
  Trader_ZIP.limit x' = Trader_ZIP.limit x /\
  Trader_ZIP.super x' = Trader_ZIP.super x /\
  Trader_ZIP.active x' = Trader_ZIP.active x /\
  (forall j, Trader_ZIP.job x' = Some j ->
             Trader_ZIP.margin x' = Some (zip_margin x' j)) /\
  (forall j l, Trader_ZIP.job x = Some j -> Trader_ZIP.limit x = Some l ->
               0 <= l ->
               exists p, Trader_ZIP.price x' = Some p /\ within_limit j l p).
Proof.
  refine (proj1 (profit_alter_keeps_margin_signs zip_learner 12 _ _ _) zip_learner_12 _).
  - reflexivity.
  - reflexivity.
  - intros j Hj. cbn in Hj. injection Hj as <-. reflexivity.
  - vm_compute. reflexivity.
Defined.

Lemma round_half_even_mono : forall x y,
    (x <= y)%Q -> round_half_even x <= round_half_even y.
Proof.
  intros x y H.
  assert (Hf : Qfloor x <= Qfloor y) by (apply Qfloor_resp_le; assumption).
  pose proof (Qfloor_le x) as Hx1. pose proof (Qlt_floor x) as Hx2.
  pose proof (Qfloor_le y) as Hy1. pose proof (Qlt_floor y) as Hy2.
  destruct (Z.eq_dec (Qfloor x) (Qfloor y)) as [E | E].
  - unfold round_half_even. rewrite <- E. rewrite <- E in Hy1, Hy2.
    destruct (Qcompare_spec (x - inject_Z (Qfloor x)) (1 # 2)) as [Ex | Ex | Ex];
      destruct (Qcompare_spec (y - inject_Z (Qfloor x)) (1 # 2)) as [Ey | Ey | Ey];
      try destruct (Z.even (Qfloor x)); try lia; exfalso; lra.
  - destruct (round_half_even_cases x) as [-> | [-> _]];
      destruct (round_half_even_cases y) as [-> | [-> _]]; lia.
Qed.

(** X21: the price targets of ZIP lie on the right side.  The price
    handed to [target_up] and [target_down] is an integer or a float.
    With perturbation coefficients and random draws between 0 and 1
    and a price between 0 and 2^53, [target_up] is at least the price
    rounded to the nearest integer and [target_down] is at most that;
    so for a price that is a whole number, [target_up] is at least the
    price and [target_down] at most the price.  (For a price that is
    not whole this fails: a target can lie on the other side of the
    price, by less than one half.) *)
Theorem zip_targets_bracket_price : forall z r_abs r_rel price,
    (0 <= ZIP_respond.ca z <= 1)%Q -> (0 <= ZIP_respond.cr z <= 1)%Q ->
    (0 <= r_abs <= 1)%Q -> (0 <= r_rel <= 1)%Q ->
    (0 <= price <= inject_Z (2 ^ 53))%Q ->
    (ZIP_respond.target_down z r_abs r_rel price <= py_round price /\
     py_round price <= ZIP_respond.target_up z r_abs r_rel price) /\
    (forall p : Z, (price == inject_Z p)%Q ->
                   ZIP_respond.target_down z r_abs r_rel price <= p /\
                   p <= ZIP_respond.target_up z r_abs r_rel price).
Proof.
  intros z r_abs r_rel price [Hca _] [Hcr _] [Ha _] [Hr _] [Hp _].
  assert (H1 : (0 <= ZIP_respond.ca z * r_abs)%Q) by (apply Qmult_le_0_compat; assumption).
  assert (H2 : (0 <= ZIP_respond.cr z * r_rel)%Q) by (apply Qmult_le_0_compat; assumption).
  assert (H3 : (0 <= price * (ZIP_respond.cr z * r_rel))%Q)
    by (apply Qmult_le_0_compat; assumption).
  unfold ZIP_respond.target_down, ZIP_respond.target_up, py_round. cbv zeta.
  split.
  - split; apply round_half_even_mono; lra.
  - intros p Hpp. split.
    + apply round_half_even_le. lra.
    + apply round_half_even_ge. lra.
Qed.

Lemma zip_targets_bracket_price_witness :
  (ZIP_respond.target_down zip_learner (1 # 2) (1 # 2) (503 # 10)
   <= py_round (503 # 10) /\
   py_round (503 # 10) <= ZIP_respond.target_up zip_learner (1 # 2) (1 # 2) (503 # 10)) /\
  (ZIP_respond.target_down zip_learner (1 # 2) (1 # 2) 50 <= 50 /\
   50 <= ZIP_respond.target_up zip_learner (1 # 2) (1 # 2) 50).
Proof.
  split.
  - apply (proj1 (zip_targets_bracket_price zip_learner (1 # 2) (1 # 2) (503 # 10)
                    ltac:(split; unfold Qle; cbn; lia) ltac:(split; unfold Qle; cbn; lia)
                    ltac:(split; unfold Qle; cbn; lia) ltac:(split; unfold Qle; cbn; lia)
                    ltac:(split; unfold Qle; cbn; lia))).
  - apply (proj2 (zip_targets_bracket_price zip_learner (1 # 2) (1 # 2) 50
                    ltac:(split; unfold Qle; cbn; lia) ltac:(split; unfold Qle; cbn; lia)
                    ltac:(split; unfold Qle; cbn; lia) ltac:(split; unfold Qle; cbn; lia)
                    ltac:(split; unfold Qle; cbn; lia)) 50).
    reflexivity.
Defined.

(** A price that is not whole can end up above its upper target and
    below its lower one: without perturbation, 50.3 goes to 50 and
    50.7 to 51. *)
Example targets_of_a_fractional_price :
  ZIP_respond.target_up zip_learner 0 0 (503 # 10) = 50 /\
  ZIP_respond.target_down zip_learner 0 0 (507 # 10) = 51.
Proof. split; reflexivity. Qed.

(* ================================================================= *)
(** ** AA: the quote and the limit *)

(** [calcTarget] never leaves the target of the job beyond the limit. *)
Lemma calcTarget_clamps : forall a a1 l,
    AA.calcTarget a = Ret a1 -> AA.limit a = Some l ->
    (AA.job a = Some Bid ->
     exists bt, AA.buy_target a1 = Some bt /\ (bt <= l)%R) /\
    (AA.job a = Some Ask ->
     exists st, AA.sell_target a1 = Some st /\ (l <= st)%R).
Proof.
  intros a a1 l H Hl. unfold AA.calcTarget in H. rewrite Hl in H.
  cbn [of_option bind] in H.
  destruct (AA.job a) as [[|]|] eqn:Ej.
  - bind_inv H. injection H as <-. cbn. split; [intros _|discriminate].
    match goal with
    | |- exists bt, Some (if ?c then _ else ?t) = Some bt /\ _ =>
        destruct c as [Hc | Hc]; eexists; (split; [reflexivity|]); lra
    end.
  - bind_inv H. split; [discriminate|intros _].
    cbn [AA.sell_target AA.set_buy_target] in E3.
    destruct (AA.sell_target a) as [s|] eqn:Es; [|discriminate].
    cbn [of_option] in E3. injection E3 as <-.
    destruct (Rlt_dec s l) as [Hc | Hc]; injection H as <-; cbn.
    + eexists. split; [reflexivity|]. lra.
    + exists s. split; [assumption|]. lra.
  - split; discriminate.
Qed.

(** X22: AA quotes within its limit.  Whenever [getorder] of an AA
    trader holding a customer order returns a quote, a bid is priced
    at or below the limit price and an ask at or above it. *)
Theorem aa_quote_within_limit : forall a time countdown lob o rest r,
    AA.orders a = o :: rest ->
    AA.getorder a time countdown lob = Ret r ->
    match fst r with
    | Some order =>
        match otype o with
        | Bid => (price order <= price o)%R
        | Ask => (price o <= price order)%R
        end
    | None => True
    end.
Proof.
  intros a time countdown lob o rest r Ho H.
  destruct (AA.calcTarget (aa_start a o)) as [a1|e] eqn:Hc.
  2:{ unfold AA.getorder in H. rewrite Ho in H. fold (aa_start a o) in H.
      rewrite Hc in H. discriminate. }
  destruct (calcTarget_clamps _ _ (price o) Hc eq_refl) as [Hbuy Hsell].
  destruct (otype o) eqn:Hot.
  - destruct (getorder_buyer a time countdown lob o rest a1 Ho Hot Hc) as [Hn Hq].
    destruct (Rle_dec (price o) (AA.o_bid a)) as [Hle | Hgt].
    + rewrite (Hn Hle) in H. injection H as <-. exact I.
    + assert (Hlt : (AA.o_bid a < price o)%R) by lra.
      destruct (Hq Hlt) as [q [Hg [Ht Hnt]]]. rewrite Hg in H. injection H as <-.
      cbn. destruct (AA.previous_transactions a) as [|t ts] eqn:Ep.
      * destruct (Hnt eq_refl) as [bt [Hbt [Hq1 Hq2]]].
        destruct Hbuy as [bt' [Hbt' Hle']]; [cbn; rewrite Hot; reflexivity|].
        rewrite Hbt in Hbt'. injection Hbt' as <-.
        destruct (Rle_dec (AA.o_ask a) bt) as [Hc1 | Hc1].
        -- rewrite (Hq1 Hc1). lra.
        -- rewrite Hq2 by lra. lra.
      * rewrite Ht by discriminate.
        pose proof (Rmin_l (price o) ((1 + 0.05) * AA.o_ask a + 0.05)). lra.
  - destruct (getorder_seller a time countdown lob o rest a1 Ho Hot Hc) as [Hn Hq].
    destruct (Rge_dec (price o) (AA.o_ask a)) as [Hge | Hlt'].
    + rewrite (Hn Hge) in H. injection H as <-. exact I.
    + assert (Hlt : (price o < AA.o_ask a)%R) by lra.
      destruct (Hq Hlt) as [q [Hg [Ht Hnt]]]. rewrite Hg in H. injection H as <-.
      cbn. destruct (AA.previous_transactions a) as [|t ts] eqn:Ep.
      * destruct (Hnt eq_refl) as [st [Hst [Hq1 Hq2]]].
        destruct Hsell as [st' [Hst' Hle']]; [cbn; rewrite Hot; reflexivity|].
        rewrite Hst in Hst'. injection Hst' as <-.
        destruct (Rge_dec (AA.o_bid a) st) as [Hc1 | Hc1].
        -- rewrite (Hq1 Hc1). lra.
        -- rewrite Hq2 by lra. lra.
      * rewrite Ht by discriminate.
        pose proof (Rmax_l (price o) ((1 - 0.05) * AA.o_bid a - 0.05)). lra.
Qed.

Lemma aa_quote_within_limit_witness :
  exists r,
    AA.getorder (aa_buyer (Some 50%R)) 1 1 lob_empty = Ret r /\
    match fst r with
    | Some order => (price order <= 100)%R
    | None => True
    end.
Proof.
  destruct (aa_buyer_total (Some 50%R)) as [a1 Ha1].
  destruct (getorder_buyer (aa_buyer (Some 50%R)) 1 1 lob_empty B01_limit100 [] a1
                           eq_refl eq_refl Ha1) as [_ Hq].
  destruct Hq as [q [Hg _]]; [cbn; lra|].
  exists (aa_quote a1 B01_limit100 q 1 lob_empty). split; [exact Hg|].
  exact (aa_quote_within_limit (aa_buyer (Some 50%R)) 1 1 lob_empty B01_limit100 []
           (aa_quote a1 B01_limit100 q 1 lob_empty) eq_refl Hg).
Defined.

(* ================================================================= *)
(** ** Settlement and the quote counter of a trader *)

(** X23: what [bookkeep] leaves.  Whatever happens, the trade has
    been appended to the blotter.  Without a pending order [bookkeep]
    stops there with an [IndexError].  When it completes, there was a
    pending order whose profit is not negative, the balance has grown
    by that profit, one more trade is counted, all pending orders are
    dropped, and the counter of live quotes and the last quote are as
    before. *)
Theorem bookkeep_outcomes : forall tr trade time,
    Trader.blotter (state_of (Trader.bookkeep tr trade time)) =
    Trader.blotter tr ++ [trade] /\
    (Trader.orders tr = [] ->
     Trader.bookkeep tr trade time =
     Aborted IndexError (Trader.set_blotter tr (Trader.blotter tr ++ [trade]))) /\
    (forall tr',
        Trader.bookkeep tr trade time = Done tr' ->
        exists o rest,
          Trader.orders tr = o :: rest /\ 0 <= profit_of o trade /\
          Trader.balance tr' = (Trader.balance tr + inject_Z (profit_of o trade))%Q /\
          (Trader.balance tr <= Trader.balance tr')%Q /\
          Trader.n_trades tr' = Trader.n_trades tr + 1 /\
          Trader.orders tr' = [] /\
          Trader.n_quotes tr' = Trader.n_quotes tr /\
          Trader.lastquote tr' = Trader.lastquote tr /\
          Trader.tid tr' = Trader.tid tr).
Proof.
  intros tr trade time. unfold Trader.bookkeep. cbv zeta.
  cbn [Trader.orders Trader.set_blotter].
  destruct (Trader.orders tr) as [|o rest] eqn:Eo.
  - split; [reflexivity|]. split; [reflexivity|]. intros tr' H. discriminate.
  - fold (profit_of o trade).
    destruct (truediv _ _) as [ppt|e] eqn:Ed.
    + destruct (profit_of o trade <? 0) eqn:Ep.
      * split; [reflexivity|]. split; [discriminate|]. intros tr' H. discriminate.
      * split; [reflexivity|]. split; [discriminate|].
        intros tr' H. injection H as <-. apply Z.ltb_ge in Ep.
        exists o, rest. cbn. repeat (split; [first [reflexivity | assumption]|]).
        split; [|auto].
        assert (H0 : (0 <= inject_Z (profit_of o trade))%Q).
        { change 0%Q with (inject_Z 0). rewrite <- Zle_Qle. assumption. }
        lra.
    + split; [reflexivity|]. split; [discriminate|]. intros tr' H. discriminate.
Qed.

Lemma bookkeep_outcomes_witness :
  exists o rest,
    Trader.orders B01_trader = o :: rest /\ 0 <= profit_of o (trade_50 2) /\
    Trader.balance B01_settled =
    (Trader.balance B01_trader + inject_Z (profit_of o (trade_50 2)))%Q /\
    (Trader.balance B01_trader <= Trader.balance B01_settled)%Q /\
    Trader.n_trades B01_settled = Trader.n_trades B01_trader + 1 /\
    Trader.orders B01_settled = [] /\
    Trader.n_quotes B01_settled = Trader.n_quotes B01_trader /\
    Trader.lastquote B01_settled = Trader.lastquote B01_trader /\
    Trader.tid B01_settled = Trader.tid B01_trader.
Proof.
  apply (proj2 (proj2 (bookkeep_outcomes B01_trader (trade_50 2) 2)) B01_settled).
  vm_compute. reflexivity.
Defined.

Lemma bookkeep_n_quotes : forall tr trade time tr',
    Trader.bookkeep tr trade time = Done tr' ->
    Trader.n_quotes tr' = Trader.n_quotes tr.
Proof.
  intros tr trade time tr' H. unfold Trader.bookkeep in H. cbv zeta in H.
  cbn [Trader.orders Trader.set_blotter] in H.
  destruct (Trader.orders tr) as [|o rest]; [discriminate|].
  destruct (truediv _ _) as [ppt|e]; [|discriminate].
  match type of H with
  | (if ?c then _ else _) = _ => destruct c; [discriminate|]
  end.
  injection H as <-. reflexivity.
Qed.

Lemma tget_set : forall k k' (v : Trader.t) d,
    dict_get String.eqb k (dict_set String.eqb k' v d) =
    if String.eqb k k' then Some v else dict_get String.eqb k d.
Proof.
  intros k k' v d. destruct (String.eqb k k') eqn:E.
  - apply Seqb_spec' in E. subst. apply (dict_get_set_same String.eqb Seqb_spec').
  - apply (dict_get_set_other String.eqb Seqb_spec'). intro; subst.
    rewrite String.eqb_refl in E. discriminate.
Qed.

Lemma session_bookkeep_n_quotes : forall trs name trade time trs',
    Session.bookkeep trs name trade time = Ret trs' ->
    forall k, option_map Trader.n_quotes (dict_get String.eqb k trs') =
              option_map Trader.n_quotes (dict_get String.eqb k trs).
Proof.
  intros trs name trade time trs' H k. unfold Session.bookkeep in H.
  destruct (dict_get String.eqb name trs) as [tr|] eqn:Eg; [|discriminate].
  cbn [of_option bind] in H.
  destruct (Trader.bookkeep tr trade time) as [tr1|e tr1] eqn:Eb; [|discriminate].
  cbn [Session.of_outcome bind] in H. injection H as <-.
  rewrite tget_set. destruct (String.eqb k name) eqn:E; [|reflexivity].
  apply Seqb_spec' in E. subst k. rewrite Eg. cbn.
  f_equal. eapply bookkeep_n_quotes. eassumption.
Qed.

(** X24: the counter of live quotes is never reset.  A trader's
    [n_quotes] is left as it is by the issue of a customer order and
    by the settlement of a trade, and the only assignment in a quoting
    step sets it to 1 for the trader that quotes: once a trader has
    quoted, [n_quotes] stays at 1, whether or not its quote is still
    on the book. *)
Theorem n_quotes_is_never_reset :
  (forall trs cs order r trs' cs',
      Session.issue trs cs order = Ret (r, trs', cs') ->
      forall k, option_map Trader.n_quotes (dict_get String.eqb k trs') =
                option_map Trader.n_quotes (dict_get String.eqb k trs)) /\
  (forall trs ex time time_left tid trade trs' ex',
      Session.quote trs ex time time_left tid = Ret (trade, trs', ex') ->
      forall k tr,
        dict_get String.eqb k trs = Some tr ->
        exists tr',
          dict_get String.eqb k trs' = Some tr' /\
          (Trader.n_quotes tr' = Trader.n_quotes tr \/
           (k = tid /\ Trader.n_quotes tr' = 1))).
Proof.
  split.
  - intros trs cs order r trs' cs' H k. unfold Session.issue in H. cbv zeta in H.
    destruct (dict_get String.eqb (tid order) trs) as [tr|] eqn:Eg; [|discriminate].
    cbn [of_option bind] in H. unfold Trader.add_order in H.
    destruct (0 <? Trader.n_quotes tr); injection H as <- <- <-;
      rewrite tget_set; (destruct (String.eqb k (tid order)) eqn:E; [|reflexivity]);
      apply Seqb_spec' in E; subst k; rewrite Eg; reflexivity.
  - intros trs ex time time_left tid trade trs' ex' H k tr Hk.
    assert (Hopt : forall (t0 t1 : Session.traders),
               option_map Trader.n_quotes (dict_get String.eqb k t1) =
               option_map Trader.n_quotes (dict_get String.eqb k t0) ->
               forall tr0, dict_get String.eqb k t0 = Some tr0 ->
               exists tr1, dict_get String.eqb k t1 = Some tr1 /\
                           Trader.n_quotes tr1 = Trader.n_quotes tr0).
    { intros t0 t1 E tr0 H0. rewrite H0 in E. cbn in E.
      destruct (dict_get String.eqb k t1) as [tr1|]; [|discriminate].
      exists tr1. split; [reflexivity|]. cbn in E. congruence. }
    unfold Session.quote in H.
    destruct (dict_get String.eqb tid trs) as [tq|] eqn:Eq; [|discriminate].
    cbn [of_option bind] in H. unfold Trader_Giveaway.getorder in H.
    destruct (Trader.orders tq) as [|o rest] eqn:Eo.
    + injection H as <- <- <-. rewrite tget_set.
      destruct (String.eqb k tid) eqn:E.
      * apply Seqb_spec' in E. subst k. exists tq. split; [reflexivity|].
        left. congruence.
      * exists tr. auto.
    + cbn [Trader.orders Trader.set_lastquote first_opt hd_error of_option bind] in H.
      rewrite Eo in H. cbn [first_opt hd_error of_option bind] in H.
      match type of H with
      | (if ?c then _ else _) = _ => destruct c; [discriminate|]
      end.
      match type of H with
      | (if ?c then _ else _) = _ => destruct c; [discriminate|]
      end.
      set (trs1 := dict_set String.eqb tid _ (dict_set String.eqb tid _ trs)) in H.
      assert (H1 : exists tr1, dict_get String.eqb k trs1 = Some tr1 /\
                               (Trader.n_quotes tr1 = Trader.n_quotes tr \/
                                (k = tid /\ Trader.n_quotes tr1 = 1))).
      { unfold trs1. rewrite !tget_set. destruct (String.eqb k tid) eqn:E.
        - apply Seqb_spec' in E. eexists. split; [reflexivity|]. right. auto.
        - exists tr. auto. }
      destruct (Exchange.process_order2 ex time _) as [[tr2 ex2]|] eqn:Ep; [|discriminate].
      cbn [bind] in H. destruct tr2 as [t|].
      * destruct (Session.bookkeep trs1 (Exchange.party1 t) t time) as [trs2|] eqn:B1;
          [|discriminate]. cbn [bind] in H.
        destruct (Session.bookkeep trs2 (Exchange.party2 t) t time) as [trs3|] eqn:B2;
          [|discriminate]. cbn [bind] in H. injection H as <- <- <-.
        destruct H1 as [tr1 [G1 N1]].
        destruct (Hopt trs1 trs2 (session_bookkeep_n_quotes _ _ _ _ _ B1 k) tr1 G1)
          as [tra [Ga Na]].
        destruct (Hopt trs2 trs3 (session_bookkeep_n_quotes _ _ _ _ _ B2 k) tra Ga)
          as [trb [Gb Nb]].
        exists trb. split; [assumption|]. rewrite Nb, Na. assumption.
      * injection H as <- <- <-. assumption.
Qed.

Lemma n_quotes_is_never_reset_witness :
  option_map Trader.n_quotes (dict_get String.eqb "S01"%string market1) =
  option_map Trader.n_quotes (dict_get String.eqb "S01"%string market0).
Proof.
  apply (proj1 n_quotes_is_never_reset market0 [] S01_limit50 Trader.Proceed market1 []).
  vm_compute. reflexivity.
Defined.

(* ================================================================= *)
(** ** Customer orders: schedules and prices *)

Lemma getschedmode_fold : forall (R M : Type) time (os : list (Customer_orders.zone R M)) acc,
    Forall (fun s => in_zone time s = false) os ->
    fold_left (fun found sched =>
                 if Qle_bool (Customer_orders.z_from sched) time
                    && Qlt_bool time (Customer_orders.z_to sched)
                 then Some (Customer_orders.z_ranges sched,
                            Customer_orders.z_stepmode sched)
                 else found) os acc = acc.
Proof.
  intros R M time os. induction os as [|s r IH]; intros acc H; cbn; [reflexivity|].
  inversion H as [|s' r' Hs Hr]; subst. unfold in_zone in Hs. rewrite Hs. auto.
Qed.

(** X25: which schedule applies.  When several schedules have a
    timezone that contains the time, [getschedmode] returns the ranges
    and step mode of the last of them in the list; when none has, it
    exits. *)
Theorem getschedmode_last_match_wins :
  forall (R M : Type) time (os : list (Customer_orders.zone R M)),
    (forall pre s post,
        os = pre ++ s :: post ->
        in_zone time s = true ->
        Forall (fun x => in_zone time x = false) post ->
        Customer_orders.getschedmode time os =
        Ret (Customer_orders.z_ranges s, Customer_orders.z_stepmode s)) /\
    (Forall (fun x => in_zone time x = false) os ->
     Customer_orders.getschedmode time os = Raise SystemExit).
Proof.
  intros R M time os. split.
  - intros pre s post -> Hs Hpost. unfold Customer_orders.getschedmode. cbv zeta.
    rewrite fold_left_app. cbn [fold_left]. unfold in_zone in Hs. rewrite Hs.
    rewrite getschedmode_fold by assumption. reflexivity.
  - intro H. unfold Customer_orders.getschedmode. cbv zeta.
    rewrite getschedmode_fold by assumption. reflexivity.
Qed.

Lemma getschedmode_last_match_wins_witness :
  in_zone 7 (Customer_orders.mkZone 0 10 100 Customer_orders.Fixed) = true /\
  Customer_orders.getschedmode 7 zones_overlapping = Ret (200, Customer_orders.Random).
Proof.
  split; [reflexivity|].
  apply (proj1 (getschedmode_last_match_wins Z Customer_orders.stepmode 7 zones_overlapping)
               [Customer_orders.mkZone 0 10 100 Customer_orders.Fixed]
               (Customer_orders.mkZone 5 15 200 Customer_orders.Random) []).
  - reflexivity.
  - reflexivity.
  - constructor.
Defined.

Lemma sysmax_check_le : forall x,
    (Customer_orders.sysmax_check x <= inject_Z bse_sys_maxprice)%Q.
Proof.
  intro x. unfold Customer_orders.sysmax_check.
  destruct (Qlt_bool (inject_Z bse_sys_maxprice) x) eqn:E.
  - apply Qle_refl.
  - apply Qlt_bool_false in E. assumption.
Qed.

Lemma sysmin_check_bounds : forall x,
    (x <= inject_Z bse_sys_maxprice)%Q ->
    (inject_Z bse_sys_minprice <= Customer_orders.sysmin_check x)%Q /\
    (Customer_orders.sysmin_check x <= inject_Z bse_sys_maxprice)%Q.
Proof.
  intros x H. unfold Customer_orders.sysmin_check.
  destruct (Qlt_bool x (inject_Z bse_sys_minprice)) eqn:E.
  - split; [apply Qle_refl|]. unfold Qle. cbn. lia.
  - apply Qlt_bool_false in E. split; assumption.
Qed.

Lemma sysmin_check_id : forall x,
    (inject_Z bse_sys_minprice <= x)%Q -> Customer_orders.sysmin_check x = x.
Proof.
  intros x H. unfold Customer_orders.sysmin_check.
  destruct (Qlt_bool x (inject_Z bse_sys_minprice)) eqn:E; [|reflexivity].
  apply Qlt_bool_iff in E. exfalso. apply (Qlt_not_le _ _ E H).
Qed.

Lemma sysmax_check_id : forall x,
    (x <= inject_Z bse_sys_maxprice)%Q -> Customer_orders.sysmax_check x = x.
Proof.
  intros x H. unfold Customer_orders.sysmax_check.
  destruct (Qlt_bool (inject_Z bse_sys_maxprice) x) eqn:E; [|reflexivity].
  apply Qlt_bool_iff in E. exfalso. apply (Qlt_not_le _ _ E H).
Qed.

(** X26: order prices are clipped, and one trader is one too few.
    Whatever the schedule, the mode and the random draws, a price that
    [getorderprice] returns lies between [bse_sys_minprice] and
    [bse_sys_maxprice].  With [n = 1] (a single trader on the side) it
    returns no price in any mode: the step size is computed first, and
    for a plain range that is a [ZeroDivisionError]. *)
Theorem getorderprice_clipped : forall i sched n mode issuetime d,
    (forall p,
        Customer_orders.getorderprice i sched n mode issuetime d = Ret p ->
        (inject_Z bse_sys_minprice <= p)%Q /\ (p <= inject_Z bse_sys_maxprice)%Q) /\
    (n = 1 ->
     exists e, Customer_orders.getorderprice i sched n mode issuetime d = Raise e) /\
    (n = 1 ->
     forall r0 rest,
       sched = r0 :: rest -> Customer_orders.r_more r0 = [] ->
       Customer_orders.getorderprice i sched n mode issuetime d =
       Raise ZeroDivisionError).
Proof.
  intros i sched n mode issuetime d. split; [|split].
  - intros p H. unfold Customer_orders.getorderprice in H.
    destruct (of_option IndexError (first_opt sched)) as [r0|e]; [|discriminate].
    cbn [bind] in H.
    match type of H with
    | bind ?m _ = _ => destruct m as [[omin omax]|e]; [|discriminate]
    end.
    cbn [bind] in H. bind_inv H. injection H as <-.
    apply sysmin_check_bounds. apply sysmax_check_le.
  - intros ->. unfold Customer_orders.getorderprice.
    destruct (of_option IndexError (first_opt sched)) as [r0|e]; [|eexists; reflexivity].
    cbn [bind].
    match goal with
    | |- exists e, bind ?m _ = _ => destruct m as [[omin omax]|e]
    end; [|eexists; reflexivity].
    cbn [bind]. rewrite truediv_zero by reflexivity. eexists. reflexivity.
  - intros -> r0 rest -> Hm. unfold Customer_orders.getorderprice.
    cbn [first_opt hd_error of_option bind]. rewrite Hm. cbn [bind].
    rewrite truediv_zero by reflexivity. reflexivity.
Qed.

Lemma getorderprice_clipped_witness :
  Customer_orders.getorderprice 0 sched_50_150 1 Customer_orders.Random 0 no_draws =
  Raise ZeroDivisionError.
Proof.
  apply (proj2 (proj2 (getorderprice_clipped 0 sched_50_150 1 Customer_orders.Random
                                             0 no_draws))
               eq_refl (Customer_orders.mkRange 50 150 []) []); reflexivity.
Defined.

(* ================================================================= *)
(** ** Customer orders: the issue of due orders *)

Lemma issue_shape : forall trs cs order tr,
    dict_get String.eqb (tid order) trs = Some tr ->
    let trs1 := dict_set String.eqb (tid order) (Trader.set_orders tr [order]) trs in
    exists r,
      Session.issue trs cs order =
      Ret (r, trs1, if 0 <? Trader.n_quotes tr then cs ++ [tid order] else cs) /\
      dict_keys trs1 = dict_keys trs /\
      (forall k, dict_get String.eqb k trs1 =
                 if String.eqb k (tid order) then Some (Trader.set_orders tr [order])
                 else dict_get String.eqb k trs) /\
      (forall k, quoting trs1 k = quoting trs k).
Proof.
  intros trs cs order tr Hg trs1. unfold Session.issue. cbv zeta. rewrite Hg.
  cbn [of_option bind]. unfold Trader.add_order.
  assert (Hl : forall k, dict_get String.eqb k trs1 =
                         if String.eqb k (tid order)
                         then Some (Trader.set_orders tr [order])
                         else dict_get String.eqb k trs).
  { intro k. unfold trs1. apply tget_set. }
  assert (Hq : forall k, quoting trs1 k = quoting trs k).
  { intro k. unfold quoting. rewrite Hl.
    destruct (String.eqb k (tid order)) eqn:E; [|reflexivity].
    apply Seqb_spec' in E. subst k. rewrite Hg. reflexivity. }
  assert (Hk : dict_keys trs1 = dict_keys trs).
  { unfold trs1. eapply dict_set_keys_present. eassumption. }
  destruct (0 <? Trader.n_quotes tr); eexists; (split; [reflexivity|]); auto.
Qed.

Lemma last_opt_none : forall (A : Type) (l : list A), last_opt l = None -> l = [].
Proof.
  intros A l. induction l as [|a r IH]; [reflexivity|].
  destruct r as [|b r']; [discriminate|]. intro H.
  assert (b :: r' = []) by (apply IH; exact H). discriminate.
Qed.

Lemma issue_due_returns : forall time pending trs np cs,
    Forall (addressed time trs) pending ->
    exists trs',
      Customer_orders.issue_due time trs pending np cs =
      Ret (np ++ filter (fun o => negb (due time o)) pending,
           cs ++ map tid (filter (fun o => due time o && quoting trs (tid o)) pending),
           trs') /\
      dict_keys trs' = dict_keys trs /\
      (forall k, dict_get String.eqb k trs' =
                 option_map (reassigned time pending k) (dict_get String.eqb k trs)).
Proof.
  intros time pending. induction pending as [|order rest IH]; intros trs np cs Hall.
  - exists trs. cbn. rewrite !app_nil_r. split; [reflexivity|]. split; [reflexivity|].
    intro k. destruct (dict_get String.eqb k trs); reflexivity.
  - inversion Hall as [|o r Ho Hrest]; subst. cbn [Customer_orders.issue_due].
    fold (due time order). cbn [filter]. destruct (due time order) eqn:Ed.
    + destruct (dict_get String.eqb (tid order) trs) as [tr|] eqn:Eg;
        [|exfalso; apply (Ho Ed); assumption].
      destruct (issue_shape trs cs order tr Eg) as [r [Hi [Hk [Hl Hq]]]].
      set (trs1 := dict_set String.eqb (tid order) (Trader.set_orders tr [order]) trs) in *.
      rewrite Hi. cbn [bind].
      assert (Hall1 : Forall (addressed time trs1) rest).
      { rewrite Forall_forall in *. intros o Hin Hd. rewrite Hl.
        destruct (String.eqb (tid o) (tid order)); [discriminate|].
        apply (Hrest o Hin Hd). }
      destruct (IH trs1 np (if 0 <? Trader.n_quotes tr then cs ++ [tid order] else cs) Hall1)
        as [trs' [Hr [Hk' Hl']]].
      exists trs'. split; [|split].
      * rewrite Hr. cbn [negb]. f_equal. f_equal.
        assert (Ef : filter (fun o => due time o && quoting trs1 (tid o)) rest =
                     filter (fun o => due time o && quoting trs (tid o)) rest).
        { apply filter_ext. intro o. rewrite Hq. reflexivity. }
        rewrite Ef. cbn [andb].
        assert (Eq0 : quoting trs (tid order) = (0 <? Trader.n_quotes tr))
          by (unfold quoting; rewrite Eg; reflexivity).
        rewrite Eq0.
        destruct (0 <? Trader.n_quotes tr); cbn [map]; [|reflexivity].
        rewrite <- app_assoc. reflexivity.
      * congruence.
      * intro k. rewrite Hl', Hl. unfold reassigned, last_due. cbn [filter].
        rewrite Ed. cbn [andb].
        destruct (String.eqb k (tid order)) eqn:E.
        -- apply Seqb_spec' in E. subst k. rewrite Eg, String.eqb_refl. cbn [option_map].
           f_equal.
           destruct (filter (fun o => due time o && String.eqb (tid o) (tid order)) rest)
             as [|a l] eqn:Ef.
           ++ reflexivity.
           ++ rewrite (last_opt_cons _ order (a :: l)) by discriminate.
              destruct (last_opt (a :: l)) as [o'|] eqn:El.
              ** destruct tr; reflexivity.
              ** apply last_opt_none in El. discriminate.
        -- assert (E' : String.eqb (tid order) k = false).
           { rewrite String.eqb_sym. assumption. }
           rewrite E'. reflexivity.
    + cbn [negb]. destruct (IH trs (np ++ [order]) cs Hrest) as [trs' [Hr [Hk' Hl']]].
      exists trs'. split; [|split].
      * rewrite Hr. rewrite <- app_assoc. reflexivity.
      * assumption.
      * intro k. rewrite Hl'. unfold reassigned, last_due. cbn [filter].
        rewrite Ed. reflexivity.
Qed.

Lemma issue_due_raises : forall time pending trs np cs,
    Exists (fun o => due time o = true /\ dict_get String.eqb (tid o) trs = None)
           pending ->
    Customer_orders.issue_due time trs pending np cs = Raise KeyError.
Proof.
  intros time pending. induction pending as [|order rest IH]; intros trs np cs Hex.
  - inversion Hex.
  - cbn [Customer_orders.issue_due]. fold (due time order).
    destruct (due time order) eqn:Ed.
    + destruct (dict_get String.eqb (tid order) trs) as [tr|] eqn:Eg.
      * destruct (issue_shape trs cs order tr Eg) as [r [Hi [Hk [Hl Hq]]]].
        rewrite Hi. cbn [bind]. apply IH.
        inversion Hex as [o r' [_ Hn] | o r' Hr]; subst; [congruence|].
        rewrite Exists_exists in *. destruct Hr as [o [Hin [Hd Hn]]].
        exists o. split; [assumption|]. split; [assumption|]. rewrite Hl.
        destruct (String.eqb (tid o) (tid order)) eqn:E; [|assumption].
        apply Seqb_spec' in E. congruence.
      * unfold Session.issue. cbv zeta. rewrite Eg. reflexivity.
    + apply IH. inversion Hex as [o r' [Hd _] | o r' Hr]; subst; [congruence|assumption].
Qed.

(** X27: the issue of due customer orders.  The list of pending
    orders is not empty (an empty one makes [customer_orders] draw a
    new batch instead).  When every due order is addressed to a known
    trader, the loop returns: the orders that are
    not yet due stay pending, in their order; the cancellation list
    names, in order and once per order, the trader of every due order
    that counted a live quote when the loop started; no trader is
    added or removed, and each trader a due order is addressed to ends
    up working exactly the last such order, the others being as
    before.  When a due order is addressed to an unknown trader the
    loop raises [KeyError]. *)
Theorem issue_due_spec : forall time trs pending,
    pending <> [] ->
    (Forall (addressed time trs) pending ->
     exists trs',
       Customer_orders.issue_due time trs pending [] [] =
       Ret (filter (fun o => negb (due time o)) pending,
            map tid (filter (fun o => due time o && quoting trs (tid o)) pending),
            trs') /\
       dict_keys trs' = dict_keys trs /\
       (forall k, dict_get String.eqb k trs' =
                  option_map (reassigned time pending k) (dict_get String.eqb k trs))) /\
    (Exists (fun o => due time o = true /\ dict_get String.eqb (tid o) trs = None)
            pending ->
     Customer_orders.issue_due time trs pending [] [] = Raise KeyError).
Proof.
  intros time trs pending _. split.
  - intro H. exact (issue_due_returns time pending trs [] [] H).
  - apply issue_due_raises.
Qed.

Lemma issue_due_spec_witness :
  exists trs',
    Customer_orders.issue_due 1 market0 pending_example [] [] =
    Ret (filter (fun o => negb (due 1 o)) pending_example,
         map tid (filter (fun o => due 1 o && quoting market0 (tid o)) pending_example),
         trs') /\
    dict_keys trs' = dict_keys market0 /\
    (forall k, dict_get String.eqb k trs' =
               option_map (reassigned 1 pending_example k)
                          (dict_get String.eqb k market0)).
Proof.
  apply (proj1 (issue_due_spec 1 market0 pending_example ltac:(discriminate))).
  repeat constructor; intros _; discriminate.
Defined.

Lemma inject_Z_nonzero : forall z : Z, z <> 0 -> ~ (inject_Z z == 0)%Q.
Proof. intros z Hz H. unfold Qeq in H. cbn in H. lia. Qed.

Lemma py_min_Z : forall a b : Z,
    Customer_orders.py_min (inject_Z a) (inject_Z b) = inject_Z (Z.min a b).
Proof.
  intros a b. unfold Customer_orders.py_min.
  destruct (Qlt_bool (inject_Z b) (inject_Z a)) eqn:E.
  - apply Qlt_bool_iff in E. rewrite <- Zlt_Qlt in E. rewrite Z.min_r by lia. reflexivity.
  - apply Qlt_bool_false in E. rewrite <- Zle_Qle in E. rewrite Z.min_l by lia. reflexivity.
Qed.

Lemma py_max_Z : forall a b : Z,
    Customer_orders.py_max (inject_Z a) (inject_Z b) = inject_Z (Z.max a b).
Proof.
  intros a b. unfold Customer_orders.py_max.
  destruct (Qlt_bool (inject_Z a) (inject_Z b)) eqn:E.
  - apply Qlt_bool_iff in E. rewrite <- Zlt_Qlt in E. rewrite Z.max_r by lia. reflexivity.
  - apply Qlt_bool_false in E. rewrite <- Zle_Qle in E. rewrite Z.max_l by lia. reflexivity.
Qed.

Lemma inject_Z_sub : forall a b : Z, (inject_Z (a - b) == inject_Z a - inject_Z b)%Q.
Proof.
  intros a b. unfold Z.sub. rewrite inject_Z_plus, inject_Z_opp. reflexivity.
Qed.

(** The price of trader [i] in mode ['fixed'], for a plain range of
    whole prices within the system limits, in the exact arithmetic of
    this development; the theorem below keeps the bounds and the order,
    which do not depend on how the step is rounded. *)
Lemma getorderprice_fixed_value : forall i a b more n issuetime d,
    2 <= n -> 0 <= i <= n - 1 ->
    bse_sys_minprice <= a <= bse_sys_maxprice ->
    bse_sys_minprice <= b <= bse_sys_maxprice ->
    let s := ((inject_Z (Z.max a b) - inject_Z (Z.min a b)) / inject_Z (n - 1))%Q in
    (0 <= s)%Q /\
    0 <= Qfloor (inject_Z i * s) <= Z.max a b - Z.min a b /\
    exists p,
      Customer_orders.getorderprice
        i (Customer_orders.mkRange (inject_Z a) (inject_Z b) [] :: more)
        n Customer_orders.Fixed issuetime d = Ret p /\
      (p == inject_Z (Z.min a b + Qfloor (inject_Z i * s)))%Q.
Proof.
  intros i a b more n issuetime d Hn Hi Ha Hb s.
  assert (Hm : bse_sys_minprice <= Z.min a b <= bse_sys_maxprice) by lia.
  assert (HM : bse_sys_minprice <= Z.max a b <= bse_sys_maxprice) by lia.
  assert (HmM : Z.min a b <= Z.max a b) by lia.
  set (m := Z.min a b) in *. set (M := Z.max a b) in *.
  assert (Qm1 : (inject_Z bse_sys_minprice <= inject_Z m)%Q) by (rewrite <- Zle_Qle; lia).
  assert (Qm2 : (inject_Z m <= inject_Z bse_sys_maxprice)%Q) by (rewrite <- Zle_Qle; lia).
  assert (QM1 : (inject_Z bse_sys_minprice <= inject_Z M)%Q) by (rewrite <- Zle_Qle; lia).
  assert (QM2 : (inject_Z M <= inject_Z bse_sys_maxprice)%Q) by (rewrite <- Zle_Qle; lia).
  assert (QmM : (inject_Z m <= inject_Z M)%Q) by (rewrite <- Zle_Qle; lia).
  assert (Hd : ~ (inject_Z (n - 1) == 0)%Q) by (apply inject_Z_nonzero; lia).
  assert (Hd0 : (0 < inject_Z (n - 1))%Q).
  { change 0%Q with (inject_Z 0). rewrite <- Zlt_Qlt. lia. }
  assert (Hs : (0 <= s)%Q).
  { unfold s. apply Qle_shift_div_l; [assumption|]. lra. }
  assert (Hsn : (inject_Z (n - 1) * s == inject_Z M - inject_Z m)%Q).
  { unfold s. field. assumption. }
  assert (Hi0 : (0 <= inject_Z i)%Q).
  { change 0%Q with (inject_Z 0). rewrite <- Zle_Qle. lia. }
  assert (Hx0 : (0 <= inject_Z i * s)%Q) by (apply Qmult_le_0_compat; assumption).
  assert (Hx1 : (inject_Z i * s <= inject_Z M - inject_Z m)%Q).
  { rewrite <- Hsn. apply Qmult_le_compat_r; [|assumption].
    rewrite <- Zle_Qle. lia. }
  set (k := Qfloor (inject_Z i * s)).
  assert (Hk0 : 0 <= k).
  { unfold k. rewrite <- (Qfloor_Z 0). apply Qfloor_resp_le. assumption. }
  assert (Hk1 : k <= M - m).
  { unfold k. rewrite <- (Qfloor_Z (M - m)). apply Qfloor_resp_le.
    rewrite inject_Z_sub. lra. }
  split; [assumption|]. split; [lia|].
  assert (Qk0 : (0 <= inject_Z k)%Q).
  { change 0%Q with (inject_Z 0). rewrite <- Zle_Qle. assumption. }
  assert (Qk1 : (inject_Z k <= inject_Z M - inject_Z m)%Q).
  { apply Qle_trans with (inject_Z (M - m)); [rewrite <- Zle_Qle; assumption|].
    rewrite inject_Z_sub. lra. }
  unfold Customer_orders.getorderprice.
  cbn [first_opt hd_error of_option bind Customer_orders.r_more
       Customer_orders.r_first Customer_orders.r_second].
  rewrite py_min_Z, py_max_Z. fold m. fold M.
  rewrite (sysmin_check_id (0 + inject_Z m)) by lra.
  rewrite (sysmax_check_id (0 + inject_Z M)) by lra.
  rewrite truediv_nonzero by assumption. cbn [bind].
  assert (Es : ((0 + inject_Z M - (0 + inject_Z m)) / inject_Z (n - 1) == s)%Q).
  { unfold s. field. assumption. }
  assert (Ek : py_int (inject_Z i * ((0 + inject_Z M - (0 + inject_Z m)) / inject_Z (n - 1)))
               = k).
  { rewrite py_int_nonneg by (rewrite Es; assumption).
    unfold k. apply Qfloor_comp. rewrite Es. reflexivity. }
  rewrite Ek.
  rewrite (sysmax_check_id (0 + inject_Z m + inject_Z k)) by lra.
  rewrite (sysmin_check_id (0 + inject_Z m + inject_Z k)) by lra.
  eexists. split; [reflexivity|].
  rewrite inject_Z_plus. ring.
Qed.

(** X28: fixed-step prices step up within the range.  For a plain
    range of two whole prices within the system limits, n traders with
    2 <= n <= 2^53 and trader indices i <= j from 0 to n - 1, the mode
    ['fixed'] returns for each a whole price; the two prices lie
    between the lower and the higher price of the range, that of [i]
    is not above that of [j], and index 0 gets the lower price of the
    range.  (Which whole price an index in between gets depends on the
    rounding of the step, and is not stated.) *)
Theorem getorderprice_fixed_steps_up_within_range :
  forall i j a b more n issuetime d,
    2 <= n <= 2 ^ 53 -> 0 <= i <= j -> j <= n - 1 ->
    bse_sys_minprice <= a <= bse_sys_maxprice ->
    bse_sys_minprice <= b <= bse_sys_maxprice ->
    let sched := Customer_orders.mkRange (inject_Z a) (inject_Z b) [] :: more in
    exists (p q : Q) (kp kq : Z),
      Customer_orders.getorderprice i sched n Customer_orders.Fixed issuetime d = Ret p /\
      Customer_orders.getorderprice j sched n Customer_orders.Fixed issuetime d = Ret q /\
      (p == inject_Z kp)%Q /\ (q == inject_Z kq)%Q /\
      Z.min a b <= kp /\ kp <= kq /\ kq <= Z.max a b /\
      (i = 0 -> kp = Z.min a b).
Proof.
  intros i j a b more n issuetime d Hn Hi Hj Ha Hb sched. subst sched.
  destruct (getorderprice_fixed_value i a b more n issuetime d) as [Hs [Hki [p [Ep Hp]]]];
    try lia.
  destruct (getorderprice_fixed_value j a b more n issuetime d) as [_ [Hkj [q [Eq Hq]]]];
    try lia.
  set (s := ((inject_Z (Z.max a b) - inject_Z (Z.min a b)) / inject_Z (n - 1))%Q) in *.
  exists p, q, (Z.min a b + Qfloor (inject_Z i * s)), (Z.min a b + Qfloor (inject_Z j * s)).
  split; [assumption|]. split; [assumption|]. split; [assumption|]. split; [assumption|].
  split; [lia|]. split; [|split; [lia|]].
  - apply Z.add_le_mono_l. apply Qfloor_resp_le.
    apply Qmult_le_compat_r; [|assumption]. rewrite <- Zle_Qle. lia.
  - intros ->.
    assert (E0 : Qfloor (inject_Z 0 * s) = 0).
    { transitivity (Qfloor (inject_Z 0)); [|apply Qfloor_Z].
      apply Qfloor_comp. change (inject_Z 0) with 0%Q. ring. }
    rewrite E0. lia.
Qed.

Lemma getorderprice_fixed_steps_up_within_range_witness :
  exists (p q : Q) (kp kq : Z),
    Customer_orders.getorderprice 1 sched_50_150 3 Customer_orders.Fixed 0 no_draws = Ret p /\
    Customer_orders.getorderprice 2 sched_50_150 3 Customer_orders.Fixed 0 no_draws = Ret q /\
    (p == inject_Z kp)%Q /\ (q == inject_Z kq)%Q /\
    Z.min 50 150 <= kp /\ kp <= kq /\ kq <= Z.max 50 150 /\
    (1 = 0 -> kp = Z.min 50 150).
Proof.
  apply (getorderprice_fixed_steps_up_within_range 1 2 50 150 [] 3 0 no_draws);
    unfold bse_sys_minprice, bse_sys_maxprice; lia.
Defined.

(* ================================================================= *)
(** ** Statistics per trader type *)

Lemma eget_set : forall k k' (v : Stats.entry) d,
    dict_get String.eqb k (dict_set String.eqb k' v d) =
    if String.eqb k k' then Some v else dict_get String.eqb k d.
Proof.
  intros k k' v d. destruct (String.eqb k k') eqn:E.
  - apply Seqb_spec' in E. subst. apply (dict_get_set_same String.eqb Seqb_spec').
  - apply (dict_get_set_other String.eqb Seqb_spec'). intro; subst.
    rewrite String.eqb_refl in E. discriminate.
Qed.

Lemma dict_set_NoDup_S : forall (V : Type) k (v : V) d,
    NoDup (dict_keys d) -> NoDup (dict_keys (dict_set String.eqb k v d)).
Proof.
  intros V k v d Hnd. destruct (dict_get String.eqb k d) eqn:E.
  - rewrite (dict_set_keys_present String.eqb k v _ d E). assumption.
  - rewrite (dict_set_absent String.eqb _ _ _ E). unfold dict_keys. rewrite map_app.
    cbn. apply NoDup_snoc; [assumption|].
    intro Hin. apply (dict_get_keys String.eqb Seqb_spec') in Hin. contradiction.
Qed.

Lemma tally_unfold : forall trs, Stats.tally trs = fold_left tally_step trs [].
Proof. reflexivity. Qed.

Lemma tally_fold : forall trs acc T,
    dict_get String.eqb T (fold_left tally_step trs acc) =
    tally_merge (dict_get String.eqb T acc) (of_type T trs) /\
    (NoDup (dict_keys acc) -> NoDup (dict_keys (fold_left tally_step trs acc))).
Proof.
  intros trs. induction trs as [|[name t] r IH]; intros acc T.
  - split; [reflexivity|auto].
  - cbn [fold_left]. destruct (IH (tally_step acc (name, t)) T) as [IH1 IH2].
    split.
    + rewrite IH1. unfold tally_step at 1. cbn [snd]. rewrite eget_set.
      unfold of_type. cbn [dict_values map snd filter].
      rewrite (String.eqb_sym T). destruct (String.eqb (Trader.ttype t) T) eqn:E.
      * apply Seqb_spec' in E. subst T. reflexivity.
      * reflexivity.
    + intro Hnd. apply IH2. unfold tally_step. apply dict_set_NoDup_S. assumption.
Qed.

Lemma tally_merge_some : forall l e,
    exists e', tally_merge (Some e) l = Some e' /\
               Stats.n e' = Stats.n e + len l /\
               (Stats.balance_sum e' == Stats.balance_sum e + sum_balance l)%Q.
Proof.
  induction l as [|t r IH]; intro e.
  - exists e. cbn. split; [reflexivity|]. split; [unfold len; cbn; lia|ring].
  - cbn [tally_merge fold_left].
    destruct (IH (Stats.mkEntry (Stats.n e + 1) (Stats.balance_sum e + Trader.balance t)))
      as [e' [H1 [H2 H3]]].
    exists e'. split; [exact H1|]. cbn [Stats.n Stats.balance_sum] in *.
    split.
    + rewrite H2. unfold len. cbn [List.length]. lia.
    + rewrite H3. cbn [sum_balance fold_right]. fold (sum_balance r). ring.
Qed.

Lemma tally_merge_none : forall l,
    match l with
    | [] => tally_merge None l = None
    | _ :: _ => exists e, tally_merge None l = Some e /\
                          Stats.n e = len l /\
                          (Stats.balance_sum e == sum_balance l)%Q
    end.
Proof.
  intros [|t r]; [reflexivity|]. cbn [tally_merge fold_left].
  destruct (tally_merge_some r (Stats.mkEntry 1 (Trader.balance t))) as [e [H1 [H2 H3]]].
  exists e. split; [exact H1|]. cbn [Stats.n Stats.balance_sum] in *. split.
  - rewrite H2. unfold len. cbn [List.length]. lia.
  - rewrite H3. cbn [sum_balance fold_right]. fold (sum_balance r). reflexivity.
Qed.

Lemma tally_get : forall trs T,
    match of_type T trs with
    | [] => dict_get String.eqb T (Stats.tally trs) = None
    | _ :: _ => exists e, dict_get String.eqb T (Stats.tally trs) = Some e /\
                          Stats.n e = len (of_type T trs) /\
                          (Stats.balance_sum e == sum_balance (of_type T trs))%Q
    end.
Proof.
  intros trs T. rewrite tally_unfold.
  rewrite (proj1 (tally_fold trs [] T)). cbn [dict_get].
  apply tally_merge_none.
Qed.

Lemma insert_key_In : forall k x l, In x (Stats.insert_key k l) <-> x = k \/ In x l.
Proof.
  intros k x l. induction l as [|y r IH]; cbn.
  - split; intros [H|H]; auto.
  - destruct (String.leb k y); cbn; [|rewrite IH]; intuition.
Qed.

Lemma sorted_keys_In : forall x l, In x (Stats.sorted_keys l) <-> In x l.
Proof.
  intros x l. induction l as [|y r IH]; cbn; [reflexivity|].
  rewrite insert_key_In, IH. intuition.
Qed.

Lemma insert_key_NoDup : forall k l,
    NoDup l -> ~ In k l -> NoDup (Stats.insert_key k l).
Proof.
  intros k l. induction l as [|y r IH]; intros Hnd Hni; cbn.
  - constructor; [intros []|constructor].
  - destruct (String.leb k y).
    + constructor; assumption.
    + inversion Hnd; subst. constructor.
      * rewrite insert_key_In. intros [-> | Hin]; [apply Hni; left; reflexivity|].
        contradiction.
      * apply IH; [assumption|]. intro Hin. apply Hni. right. assumption.
Qed.

Lemma sorted_keys_NoDup : forall l, NoDup l -> NoDup (Stats.sorted_keys l).
Proof.
  induction l as [|y r IH]; intro Hnd; cbn; [constructor|].
  inversion Hnd; subst. apply insert_key_NoDup; [auto|].
  rewrite sorted_keys_In. assumption.
Qed.

Lemma insert_key_Sorted : forall k l,
    Sorted (fun a b => String.leb a b = true) l ->
    Sorted (fun a b => String.leb a b = true) (Stats.insert_key k l).
Proof.
  intros k l. induction l as [|y r IH]; intro Hs; cbn.
  - constructor; constructor.
  - destruct (String.leb k y) eqn:E.
    + constructor; [assumption|]. constructor. assumption.
    + inversion Hs as [|y' r' Hr Hhd]; subst. constructor; [auto|].
      assert (Hyk : String.leb y k = true).
      { destruct (String.leb_total k y) as [H|H]; [congruence|assumption]. }
      destruct r as [|z r']; cbn.
      * constructor. assumption.
      * destruct (String.leb k z); constructor; [assumption|].
        inversion Hhd; subst. assumption.
Qed.

Lemma sorted_keys_Sorted : forall l,
    Sorted (fun a b => String.leb a b = true) (Stats.sorted_keys l).
Proof.
  induction l as [|y r IH]; cbn; [constructor|]. apply insert_key_Sorted. assumption.
Qed.

Lemma stats_fold : forall tt ks a b,
    (forall k, In k ks -> exists e, dict_get String.eqb k tt = Some e /\ 0 < Stats.n e) ->
    fold_left (fun acc ttype =>
                 '(returned_types, returned_avg_balances) <- acc ;;
                 e <- of_option KeyError (dict_get String.eqb ttype tt) ;;
                 avg_balance <- truediv (Stats.balance_sum e) (inject_Z (Stats.n e)) ;;
                 Ret (returned_types ++ [ttype],
                      returned_avg_balances ++ [avg_balance]))
              ks (Ret (a, b)) =
    Ret (a ++ ks, b ++ map (avg_of tt) ks).
Proof.
  intros tt ks. induction ks as [|k r IH]; intros a b H.
  - cbn. rewrite !app_nil_r. reflexivity.
  - cbn [fold_left bind]. destruct (H k (or_introl eq_refl)) as [e [He Hn]].
    rewrite He. cbn [of_option bind].
    rewrite truediv_nonzero by (apply inject_Z_nonzero; lia). cbn [bind].
    rewrite IH by (intros k' Hk'; apply H; right; assumption).
    cbn [map]. unfold avg_of at 2. rewrite He. rewrite <- !app_assoc. reflexivity.
Qed.

(** X29: what [trade_stats] returns.  It never raises.  The list of
    types holds every trader type that occurs among the traders, once,
    in ascending order; the list of averages is as long, and at each
    position it holds the sum of the balances of the traders of that
    type divided by their number. *)
Theorem trade_stats_averages : forall trs,
    exists types avgs,
      Stats.trade_stats trs = Ret (types, avgs) /\
      List.length avgs = List.length types /\
      NoDup types /\
      Sorted (fun a b => String.leb a b = true) types /\
      (forall T, In T types <->
                 exists t, In t (dict_values trs) /\ Trader.ttype t = T) /\
      (forall i T a,
          nth_error types i = Some T -> nth_error avgs i = Some a ->
          (a == sum_balance (of_type T trs) / inject_Z (len (of_type T trs)))%Q).
Proof.
  intro trs.
  set (tt := Stats.tally trs).
  set (ks := Stats.sorted_keys (dict_keys tt)).
  assert (Hkeys : forall T, In T ks <-> of_type T trs <> []).
  { intro T. unfold ks. rewrite sorted_keys_In.
    rewrite (dict_get_keys String.eqb Seqb_spec'). unfold tt.
    pose proof (tally_get trs T) as G.
    destruct (of_type T trs) as [|t r].
    - rewrite G. split; intro C; contradiction.
    - destruct G as [e [G _]]. rewrite G. split; intros _; discriminate. }
  assert (Hent : forall k, In k ks ->
                           exists e, dict_get String.eqb k tt = Some e /\ 0 < Stats.n e).
  { intros k Hk. apply Hkeys in Hk. pose proof (tally_get trs k) as G.
    destruct (of_type k trs) as [|t r] eqn:E; [contradiction|].
    destruct G as [e [G [Hn _]]]. exists e. split; [exact G|].
    rewrite Hn. unfold len. cbn [List.length]. lia. }
  exists ks, (map (avg_of tt) ks).
  split; [|split; [|split; [|split; [|split]]]].
  - unfold Stats.trade_stats. cbv zeta. fold tt. fold ks.
    rewrite (stats_fold tt ks [] [] Hent). reflexivity.
  - apply length_map.
  - unfold ks. apply sorted_keys_NoDup. unfold tt. rewrite tally_unfold.
    apply (proj2 (tally_fold trs [] EmptyString)). constructor.
  - apply sorted_keys_Sorted.
  - intro T. rewrite Hkeys. unfold of_type. split.
    + intro Hne. destruct (filter _ _) as [|t r] eqn:E; [contradiction|].
      assert (Hin : In t (t :: r)) by (left; reflexivity).
      rewrite <- E in Hin. apply filter_In in Hin. destruct Hin as [Hin Ht].
      exists t. split; [assumption|]. apply Seqb_spec'. assumption.
    + intros [t [Hin Ht]] E.
      assert (Hf : In t (filter (fun t0 => String.eqb (Trader.ttype t0) T)
                                (dict_values trs))).
      { apply filter_In. split; [assumption|]. apply Seqb_spec'. assumption. }
      rewrite E in Hf. contradiction.
  - intros i T a HT Ha. rewrite nth_error_map, HT in Ha. cbn in Ha.
    injection Ha as <-.
    assert (Hin : In T ks) by (eapply nth_error_In; eassumption).
    apply Hkeys in Hin. pose proof (tally_get trs T) as G.
    destruct (of_type T trs) as [|t r] eqn:E; [contradiction|].
    destruct G as [e [G [Hn Hs]]]. unfold avg_of. fold tt in G. rewrite G.
    rewrite Hn, Hs. reflexivity.
Qed.

(* ================================================================= *)
(** ** Traders on the data the exchange publishes *)

Lemma book_del_worstprice : forall h o,
    OH.worstprice (OH.book_del h o) = OH.worstprice h.
Proof.
  intros h o. unfold OH.book_del.
  destruct (dict_get String.eqb (tid o) (OH.orders h)); [|reflexivity].
  rewrite build_lob_eq. reflexivity.
Qed.

Lemma process_worstprice : forall ex time order tr ex',
    ex_ok ex ->
    Exchange.process_order2 ex time order = Ret (tr, ex') ->
    OH.worstprice (Exchange.bids ex') = OH.worstprice (Exchange.bids ex) /\
    OH.worstprice (Exchange.asks ex') = OH.worstprice (Exchange.asks ex).
Proof.
  intros ex time order tr ex' Hok H.
  pose proof Hok as [Hb [Ha [Hbt Hat]]].
  destruct (otype order) eqn:Hot.
  - rewrite process_bid_eq in H by assumption. cbv zeta in H.
    set (o' := set_qid order (Exchange.quote_id ex)) in *.
    set (b1 := snd (OH.book_add (Exchange.bids ex) o')) in *.
    destruct (book_add_ok (Exchange.bids ex) o' Hb) as [Hb1 [Ho1 [_ Hw1]]].
    fold b1 in Hb1, Ho1, Hw1.
    assert (Hne1 : OH.orders b1 <> []) by (rewrite Ho1; apply dict_set_nonempty).
    destruct (0 <? OH.n_orders (Exchange.asks ex)) eqn:En.
    + apply n_orders_pos in En; [|assumption].
      destruct (delete_best_cases _ Ha En)
        as [pa [oa [resta [Hbpa [Hbta [_ [_ [_ Hda]]]]]]]].
      destruct (delete_best_cases _ Hb1 Hne1)
        as [pb [ob [restb [Hbpb [_ [_ [_ [_ Hdb]]]]]]]].
      rewrite Hbpb, Hbpa in H.
      destruct (pb >=? pa).
      * destruct Hda as [[da Hda] | [Hda _]]; rewrite Hda in H; [|discriminate].
        cbn [bind] in H.
        destruct Hdb as [[db Hdb] | [Hdb _]]; rewrite Hdb in H; [|discriminate].
        cbn [bind finish] in H. rewrite Hbta in H. injection H as <- <-.
        cbn [Exchange.set_tape Exchange.bids Exchange.asks].
        destruct (after_delete_fields b1 (tid ob) db) as [_ [_ [W1 _]]].
        destruct (after_delete_fields (Exchange.asks ex) (tid oa) da) as [_ [_ [W2 _]]].
        split; congruence.
      * cbn [bind finish] in H. injection H as <- <-. cbn. auto.
    + cbn [bind finish] in H. injection H as <- <-. cbn. auto.
  - rewrite process_ask_eq in H by assumption. cbv zeta in H.
    set (o' := set_qid order (Exchange.quote_id ex)) in *.
    set (a1 := snd (OH.book_add (Exchange.asks ex) o')) in *.
    destruct (book_add_ok (Exchange.asks ex) o' Ha) as [Ha1 [Ho1 [_ Hw1]]].
    fold a1 in Ha1, Ho1, Hw1.
    assert (Hne1 : OH.orders a1 <> []) by (rewrite Ho1; apply dict_set_nonempty).
    destruct (0 <? OH.n_orders (Exchange.bids ex)) eqn:En.
    + apply n_orders_pos in En; [|assumption].
      destruct (delete_best_cases _ Hb En)
        as [pb [ob [restb [Hbpb [Hbtb [_ [_ [_ Hdb]]]]]]]].
      destruct (delete_best_cases _ Ha1 Hne1)
        as [pa [oa [resta [Hbpa [_ [_ [_ [_ Hda]]]]]]]].
      rewrite Hbpb, Hbpa in H.
      destruct (pa <=? pb).
      * destruct Hdb as [[db Hdb] | [Hdb _]]; rewrite Hdb in H; [|discriminate].
        cbn [bind] in H.
        destruct Hda as [[da Hda] | [Hda _]]; rewrite Hda in H; [|discriminate].
        cbn [bind finish] in H. rewrite Hbtb in H. injection H as <- <-.
        cbn [Exchange.set_tape Exchange.bids Exchange.asks].
        destruct (after_delete_fields a1 (tid oa) da) as [_ [_ [W1 _]]].
        destruct (after_delete_fields (Exchange.bids ex) (tid ob) db) as [_ [_ [W2 _]]].
        split; congruence.
      * cbn [bind finish] in H. injection H as <- <-. cbn. auto.
    + cbn [bind finish] in H. injection H as <- <-. cbn. auto.
Qed.

Lemma reachable_worstprice : forall ex,
    reachable ex ->
    OH.worstprice (Exchange.bids ex) = bse_sys_minprice /\
    OH.worstprice (Exchange.asks ex) = bse_sys_maxprice.
Proof.
  induction 1 as [| ex time order tr ex' Hr IH H | ex time order ex' Hr IH H].
  - split; reflexivity.
  - destruct (reachable_inv _ Hr) as [Hok _].
    destruct (process_worstprice _ _ _ _ _ Hok H) as [W1 W2].
    destruct IH as [I1 I2]. split; congruence.
  - destruct (reachable_inv _ Hr) as [Hok _].
    destruct (del_order_shape ex time order Hok) as [ex2 [H2 [Ho [Hp _]]]].
    rewrite H in H2. injection H2 as <-. destruct IH as [I1 I2].
    destruct (otype order); cbn [own_side opp_side] in Ho, Hp.
    + rewrite Ho, Hp, book_del_worstprice. auto.
    + rewrite Ho, Hp, book_del_worstprice. auto.
Qed.

(** What a reachable exchange publishes for a side: a best price when
    the side is not empty, and the system's extreme price as stub. *)
Lemma published_side : forall ex time s,
    reachable ex ->
    let side := side_of (Published.publish_lob (Published.obj_of ex) time) s in
    (0 < Published.n side -> exists b, Published.best side = Some b) /\
    Published.worst side =
    match s with Bid => bse_sys_minprice | Ask => bse_sys_maxprice end.
Proof.
  intros ex time s Hr. destruct (reachable_inv _ Hr) as [Hok _].
  destruct (reachable_worstprice _ Hr) as [W1 W2].
  destruct (own_side_ok ex s Hok) as [Hh _].
  assert (E : side_of (Published.publish_lob (Published.obj_of ex) time) s =
              Published.mkSide (OH.best_price (own_side ex s))
                               (OH.worstprice (own_side ex s))
                               (OH.n_orders (own_side ex s))
                               (match s with Bid => 0%nat | Ask => 1%nat end)).
  { destruct s; reflexivity. }
  cbv zeta. rewrite E. cbn [Published.n Published.best Published.worst]. split.
  - intro Hn. destruct (best_price_some _ Hh (nonempty_of_n _ Hh Hn)) as [p [Hp _]].
    exists p. assumption.
  - destruct s; assumption.
Qed.

(** X30: the data a reachable exchange publishes suit the Shaver and
    the Sniper.  Given the data published by any state the exchange
    reaches, a Shaver holding a customer order with a limit between
    [bse_sys_minprice] and [bse_sys_maxprice] raises nothing and quotes
    within its limit, and so does a Sniper whose countdown is between
    0 and 0.2: neither can trip the 'Bad bid' / 'Bad ask' exit of the
    session.  The quote carries the current quote counter of the
    exchange. *)
Theorem shavers_quote_on_published_data : forall ex tr time countdown o rest,
    reachable ex ->
    Trader.orders tr = o :: rest ->
    bse_sys_minprice <= price o <= bse_sys_maxprice ->
    (exists order,
        Trader_Shaver.getorder tr time countdown
          (Published.publish_lob (Published.obj_of ex) time) =
        Ret (Some order, Trader.set_lastquote tr (Some order)) /\
        within_limit (otype o) (price o) (price order) /\
        otype order = otype o /\ qid order = Exchange.quote_id ex) /\
    ((0 <= countdown)%Q -> (countdown <= Trader_Sniper.lurk_threshold)%Q ->
     exists order,
       Trader_Sniper.getorder tr time countdown
         (Published.publish_lob (Published.obj_of ex) time) =
       Ret (Some order, Trader.set_lastquote tr (Some order)) /\
       within_limit (otype o) (price o) (price order) /\
       otype order = otype o /\ qid order = Exchange.quote_id ex).
Proof.
  intros ex tr time countdown o rest Hr Ho Hl.
  set (lob := Published.publish_lob (Published.obj_of ex) time).
  assert (Hside : forall s,
             (0 < Published.n (side_of lob s) ->
              exists b, Published.best (side_of lob s) = Some b) /\
             Published.worst (side_of lob s) =
             match s with Bid => bse_sys_minprice | Ask => bse_sys_maxprice end).
  { intro s. exact (published_side ex time s Hr). }
  assert (Hq : Published.QID lob = Exchange.quote_id ex) by reflexivity.
  assert (Hquote : forall shave,
             exists q,
               match otype o with
               | Bid =>
                   if 0 <? Published.n (Published.pd_bids lob) then
                     best <- of_option TypeError (Published.best (Published.pd_bids lob)) ;;
                     Ret (if best + shave >? price o then price o else best + shave)
                   else Ret (Published.worst (Published.pd_bids lob))
               | Ask =>
                   if 0 <? Published.n (Published.pd_asks lob) then
                     best <- of_option TypeError (Published.best (Published.pd_asks lob)) ;;
                     Ret (if best - shave <? price o then price o else best - shave)
                   else Ret (Published.worst (Published.pd_asks lob))
               end = Ret q /\ within_limit (otype o) (price o) q).
  { intro shave. destruct (otype o) eqn:Hot.
    - destruct (Hside Bid) as [Hb Hw]. cbn [side_of] in Hb, Hw.
      destruct (0 <? Published.n (Published.pd_bids lob)) eqn:En.
      + apply Z.ltb_lt in En. destruct (Hb En) as [b Eb]. rewrite Eb.
        cbn [of_option bind]. eexists. split; [reflexivity|].
        exact (proj1 (shaved_quote_cases Bid (price o) b shave)).
      + eexists. split; [reflexivity|]. rewrite Hw. unfold within_limit. lia.
    - destruct (Hside Ask) as [Hb Hw]. cbn [side_of] in Hb, Hw.
      destruct (0 <? Published.n (Published.pd_asks lob)) eqn:En.
      + apply Z.ltb_lt in En. destruct (Hb En) as [b Eb]. rewrite Eb.
        cbn [of_option bind]. eexists. split; [reflexivity|].
        exact (proj1 (shaved_quote_cases Ask (price o) b shave)).
      + eexists. split; [reflexivity|]. rewrite Hw. unfold within_limit. lia. }
  split.
  - destruct (Hquote 1) as [q [Eq Hw]].
    unfold Trader_Shaver.getorder. rewrite Ho. cbv zeta. rewrite Eq. cbn [bind].
    eexists. split; [reflexivity|]. cbn. auto.
  - intros Hc0 Hc1. destruct (shave_returns countdown Hc0) as [Hs _].
    destruct (Hquote (Qfloor (shave_arg countdown))) as [q [Eq Hw]].
    unfold Trader_Sniper.getorder. rewrite Hs. cbn [bind]. rewrite Ho.
    apply Qlt_bool_false in Hc1. rewrite Hc1. cbv zeta. rewrite Eq. cbn [bind].
    eexists. split; [reflexivity|]. cbn. auto.
Qed.

Lemma shavers_quote_on_published_data_witness :
  (exists order,
      Trader_Shaver.getorder shaver_B01 3 (1 # 10)
        (Published.publish_lob (Published.obj_of ex_S01_B02) 3) =
      Ret (Some order, Trader.set_lastquote shaver_B01 (Some order)) /\
      price order <= 60 /\
      otype order = Bid /\ qid order = Exchange.quote_id ex_S01_B02) /\
  ((0 <= 1 # 10)%Q -> (1 # 10 <= Trader_Sniper.lurk_threshold)%Q ->
   exists order,
     Trader_Sniper.getorder shaver_B01 3 (1 # 10)
       (Published.publish_lob (Published.obj_of ex_S01_B02) 3) =
     Ret (Some order, Trader.set_lastquote shaver_B01 (Some order)) /\
     price order <= 60 /\
     otype order = Bid /\ qid order = Exchange.quote_id ex_S01_B02).
Proof.
  apply (shavers_quote_on_published_data ex_S01_B02 shaver_B01 3 (1 # 10)
                                         B01_limit60 []).
  - eapply reach_process; [exact reachable_ex_S01|].
    instantiate (1 := None). instantiate (1 := B02_bid40). instantiate (1 := 2%Q).
    vm_compute. reflexivity.
  - reflexivity.
  - unfold bse_sys_minprice, bse_sys_maxprice. cbn. lia.
Defined.
